(** * PortalBox NeoPixel controller: the firmware and its specification

    A shallow embedding of [src/firmware.cpp], the Arduino sketch that
    drives the LED strip of a Portal Box from line-oriented commands
    received over the serial port, followed by the properties its
    specification states about it and by further properties of the
    sketch.

    The sketch names its target in its header ([@target Arduino Pro Mini
    (pro8MHzatmega328)]): on that machine [int] is 16 bits wide, [char] and
    [uint8_t] 8 bits, [unsigned long] and [uint32_t] 32 bits.  Integers are
    [Z] with the wrap-around of each width written out.

    Three of the functions the sketch calls belong to the C library
    ([strtok], [atoi], [strcmp]) and the strip object belongs to the
    Adafruit NeoPixel library; they are modelled here by what the sketch
    can observe of them. *)

From Stdlib Require Import ZArith Ascii String Bool Lia.
From stdpp Require Import base list.

Local Open Scope Z_scope.

(** ** Machine integers *)

Module Int16.

(** [int] of avr-gcc: two's complement on 16 bits. *)
Definition min_int : Z := -32768.
Definition max_int : Z := 32767.

Definition wrap (z : Z) : Z := (z + 32768) mod 65536 - 32768.

Definition in_range (z : Z) : Prop := min_int <= z <= max_int.

Definition add (a b : Z) : Z := wrap (a + b).
Definition sub (a b : Z) : Z := wrap (a - b).
Definition mul (a b : Z) : Z := wrap (a * b).

(** C's [/] truncates towards zero and has no result for a zero
    divisor. *)
Definition div (a b : Z) : option Z :=
  if b =? 0 then None else Some (wrap (Z.quot a b)).

End Int16.

(** [uint8_t], the type of the brightness and of a colour channel. *)
Definition to_uint8 (z : Z) : Z := z mod 256.

(** [uint16_t], the type of a pixel index. *)
Definition to_uint16 (z : Z) : Z := z mod 65536.

(** [unsigned long], the type of the argument of [delay]. *)
Definition to_ulong (z : Z) : Z := z mod 4294967296.

(** ** Constants of the sketch *)

Definition MAX_INPUT_BUFFER_LEN : Z := 127.
Definition LED_PIN : Z := 5.
Definition LED_COUNT : Z := 15.
Definition DEFAULT_BRIGHTNESS : Z := 128.
Definition MAX_PULSE_BRIGHTNESS : Z := 120.
Definition MIN_PULSE_BRIGHTNESS : Z := 20.
Definition PULSE_BRIGHTNESS_STEP : Z := 5.

(** From [Arduino.h] for the Pro Mini. *)
Definition LED_BUILTIN : Z := 13.

Inductive level : Type := LOW | HIGH.

(** ** C strings *)

Definition NUL : ascii := Ascii.zero.

Definition byte_of (c : ascii) : Z := Z.of_N (N_of_ascii c).

(** The string a [char *] designates: the bytes before the first null
    byte. *)
Fixpoint c_str (mem : list ascii) : string :=
  match mem with
  | [] => EmptyString
  | c :: mem' => if Ascii.eqb c NUL then EmptyString else String c (c_str mem')
  end.

(** The memory a string literal occupies. *)
Definition c_mem (s : string) : list ascii :=
  list_ascii_of_string s ++ [NUL].

(** [strcmp]: the difference of the first two bytes that differ. *)
Fixpoint strcmp (a b : string) : Z :=
  match a, b with
  | EmptyString, EmptyString => 0
  | EmptyString, String d _ => - byte_of d
  | String c _, EmptyString => byte_of c
  | String c a', String d b' =>
      if Ascii.eqb c d then strcmp a' b' else byte_of c - byte_of d
  end.

(** *** strtok *)

Definition is_delim (delim : string) (c : ascii) : bool :=
  existsb (Ascii.eqb c) (list_ascii_of_string delim).

(** Skip the delimiters in front of the next token. *)
Fixpoint skip_delims (delim s : string) : string :=
  match s with
  | EmptyString => EmptyString
  | String c s' => if is_delim delim c then skip_delims delim s' else s
  end.

(** Scan one token.  The second component is the pointer [strtok] keeps
    for its next call: the text after the delimiter that ended the token,
    or the empty string at the terminator. *)
Fixpoint scan_token (delim s : string) : string * string :=
  match s with
  | EmptyString => (EmptyString, EmptyString)
  | String c s' =>
      if is_delim delim c then (EmptyString, s')
      else let '(tok, rest) := scan_token delim s' in (String c tok, rest)
  end.

(** One call of [strtok].  [str] is the first argument ([None] for
    [NULL]), [last] the pointer kept from the previous call.  The result
    is the token ([None] for [NULL]) and the pointer kept for the next
    call.  The null bytes [strtok] writes over the delimiters of [str] are
    what cuts the tokens apart; they lie inside the command, which [loop]
    zeroes right after [process_command] returns. *)
Definition strtok_r (str : option string) (delim : string)
    (last : option string) : option string * option string :=
  match (match str with Some s => Some s | None => last end) with
  | None => (None, None)
  | Some s =>
      match skip_delims delim s with
      | EmptyString => (None, Some EmptyString)
      | String c s' =>
          let '(tok, rest) := scan_token delim (String c s') in
          (Some tok, Some rest)
      end
  end.

(** *** atoi *)

(** [isspace] in the C locale. *)
Definition isspace (c : ascii) : bool :=
  let n := byte_of c in (n =? 32) || ((9 <=? n) && (n <=? 13)).

Definition isdigit (c : ascii) : bool :=
  let n := byte_of c in (48 <=? n) && (n <=? 57).

Fixpoint skip_spaces (s : string) : string :=
  match s with
  | EmptyString => EmptyString
  | String c s' => if isspace c then skip_spaces s' else s
  end.

(** The digits are accumulated in a 16-bit register, as avr-libc does. *)
Fixpoint atoi_digits (acc : Z) (s : string) : Z :=
  match s with
  | EmptyString => acc
  | String c s' =>
      if isdigit c
      then atoi_digits (to_uint16 (acc * 10 + (byte_of c - 48))) s'
      else acc
  end.

Definition atoi_str (s : string) : Z :=
  match skip_spaces s with
  | String "-"%char s' => Int16.wrap (- atoi_digits 0 s')
  | String "+"%char s' => Int16.wrap (atoi_digits 0 s')
  | s' => Int16.wrap (atoi_digits 0 s')
  end.

(** ** State of the firmware *)

(** The calls on the devices (pins, strip, timer, serial port) and the
    assignments to the two animation flags, in program order. *)
Inductive event : Type :=
| DigitalWrite (pin : Z) (v : level)
| SetBrightness (b : Z)
| SetPixelColor (n : Z) (c : Z)
| StripShow (frame : list Z) (bright : Z)
| Delay (ms : Z)
| PrintlnInt (n : Z)
| PrintlnStr (s : string)
| AssignIsPulsing (b : bool)
| AssignPulseRising (b : bool).

(** What the sketch can observe of the strip object: the colour of each
    pixel as packed by [Color], and the brightness. *)
Record Adafruit_NeoPixel : Type := NeoPixel {
  pixels : list Z;
  brightness : Z
}.

Record firmware : Type := Firmware {
  input_buffer : list ascii;
  len_input_buffer_data : Z;
  strip : Adafruit_NeoPixel;
  is_pulsing : bool;
  pulse_rising : bool;
  (** the level of the pin [LED_BUILTIN] *)
  led_builtin : level;
  (** the pointer [strtok] keeps between calls *)
  strtok_last : option string;
  log : list event
}.

Definition set_input_buffer (b : list ascii) (st : firmware) : firmware :=
  Firmware b (len_input_buffer_data st) (strip st) (is_pulsing st)
    (pulse_rising st) (led_builtin st) (strtok_last st) (log st).

Definition set_len_input_buffer_data (n : Z) (st : firmware) : firmware :=
  Firmware (input_buffer st) n (strip st) (is_pulsing st)
    (pulse_rising st) (led_builtin st) (strtok_last st) (log st).

Definition set_strip (s : Adafruit_NeoPixel) (st : firmware) : firmware :=
  Firmware (input_buffer st) (len_input_buffer_data st) s (is_pulsing st)
    (pulse_rising st) (led_builtin st) (strtok_last st) (log st).

Definition set_is_pulsing (b : bool) (st : firmware) : firmware :=
  Firmware (input_buffer st) (len_input_buffer_data st) (strip st) b
    (pulse_rising st) (led_builtin st) (strtok_last st) (log st).

Definition set_pulse_rising (b : bool) (st : firmware) : firmware :=
  Firmware (input_buffer st) (len_input_buffer_data st) (strip st)
    (is_pulsing st) b (led_builtin st) (strtok_last st) (log st).

Definition set_led_builtin (v : level) (st : firmware) : firmware :=
  Firmware (input_buffer st) (len_input_buffer_data st) (strip st)
    (is_pulsing st) (pulse_rising st) v (strtok_last st) (log st).

Definition set_strtok_last (p : option string) (st : firmware) : firmware :=
  Firmware (input_buffer st) (len_input_buffer_data st) (strip st)
    (is_pulsing st) (pulse_rising st) (led_builtin st) p (log st).

Definition emit (e : event) (st : firmware) : firmware :=
  Firmware (input_buffer st) (len_input_buffer_data st) (strip st)
    (is_pulsing st) (pulse_rising st) (led_builtin st) (strtok_last st)
    (log st ++ [e]).

(** ** Statements *)

(** The two operations of the sketch that C leaves without a result. *)
Inductive fault : Type := NullPointer | DivisionByZero.

(** How a statement ends: control goes on to the next statement, the
    enclosing function returns, or the statement has no defined
    behaviour. *)
Inductive flow (A : Type) : Type :=
| Next (a : A) (st : firmware)
| Return (st : firmware)
| Abort (f : fault).

Arguments Next {A} a st.
Arguments Return {A} st.
Arguments Abort {A} f.

Definition stmt (A : Type) : Type := firmware -> flow A.

Definition ret {A} (a : A) : stmt A := fun st => Next a st.

Definition bind {A B} (m : stmt A) (k : A -> stmt B) : stmt B :=
  fun st =>
    match m st with
    | Next a st' => k a st'
    | Return st' => Return st'
    | Abort f => Abort f
    end.

Declare Scope stmt_scope.
Delimit Scope stmt_scope with stmt.
Notation "x <- m ;; k" := (bind m (fun x => k))
  (at level 100, m at next level, right associativity) : stmt_scope.
Notation "m ;; k" := (bind m (fun _ => k))
  (at level 100, right associativity) : stmt_scope.
Local Open Scope stmt_scope.

(** [return;] *)
Definition return_ {A} : stmt A := fun st => Return st.

Definition abort {A} (f : fault) : stmt A := fun _ => Abort f.

Definition modify (f : firmware -> firmware) : stmt unit :=
  fun st => Next tt (f st).

(** A call of a [void] function: its [return] ends the call only. *)
Definition call (body : stmt unit) : stmt unit :=
  fun st =>
    match body st with
    | Next _ st' => Next tt st'
    | Return st' => Next tt st'
    | Abort f => Abort f
    end.

(** [for (int i = lo; i < hi; i++) body], with [hi - lo] iterations. *)
Fixpoint for_count (n : nat) (i : Z) (body : Z -> stmt unit) : stmt unit :=
  match n with
  | O => ret tt
  | S n' => body i ;; for_count n' (i + 1) body
  end.

Definition for_lt (lo hi : Z) (body : Z -> stmt unit) : stmt unit :=
  for_count (Z.to_nat (hi - lo)) lo body.

(** *** Arduino and library calls *)

Definition digitalWrite (pin : Z) (v : level) : stmt unit :=
  modify (fun st =>
    emit (DigitalWrite pin v)
      (if pin =? LED_BUILTIN then set_led_builtin v st else st)).

Definition delay (ms : Z) : stmt unit :=
  modify (emit (Delay (to_ulong ms))).

Definition Serial_println_int (n : Z) : stmt unit :=
  modify (emit (PrintlnInt n)).

Definition Serial_println_str (s : string) : stmt unit :=
  modify (emit (PrintlnStr s)).

Definition strip_Color (r g b : Z) : Z :=
  Z.lor (Z.shiftl (to_uint8 r) 16) (Z.lor (Z.shiftl (to_uint8 g) 8) (to_uint8 b)).

(** [setPixelColor] ignores an index past the end of the strip. *)
Definition strip_setPixelColor (n c : Z) : stmt unit :=
  modify (fun st =>
    emit (SetPixelColor n c)
      (set_strip
         (NeoPixel (<[Z.to_nat (to_uint16 n) := c]> (pixels (strip st)))
                   (brightness (strip st))) st)).

Definition strip_setBrightness (b : Z) : stmt unit :=
  modify (fun st =>
    emit (SetBrightness b)
      (set_strip (NeoPixel (pixels (strip st)) (to_uint8 b)) st)).

Definition strip_getBrightness : stmt Z :=
  fun st => Next (brightness (strip st)) st.

Definition strip_show : stmt unit :=
  modify (fun st =>
    emit (StripShow (pixels (strip st)) (brightness (strip st))) st).

(** [strtok] is given the text of the command and keeps the text still
    to be cut.  The null bytes the C function writes over the delimiters
    of the command are not recorded in [input_buffer]: the field holds
    the bytes [loop] has put there until [flush_input_buffer] clears
    them, which it does right after [process_command] returns. *)
Definition strtok (str : option string) (delim : string)
    : stmt (option string) :=
  fun st =>
    let '(tok, last) := strtok_r str delim (strtok_last st) in
    Next tok (set_strtok_last last st).

(** [atoi] and [strcmp] read through the pointer they are given. *)
Definition atoi (p : option string) : stmt Z :=
  match p with
  | None => abort NullPointer
  | Some s => ret (atoi_str s)
  end.

Definition strcmp_ptr (a : string) (p : option string) : stmt Z :=
  match p with
  | None => abort NullPointer
  | Some s => ret (strcmp a s)
  end.

Definition int_div (a b : Z) : stmt Z :=
  match Int16.div a b with
  | None => abort DivisionByZero
  | Some q => ret q
  end.

Definition assign_is_pulsing (b : bool) : stmt unit :=
  modify (fun st => emit (AssignIsPulsing b) (set_is_pulsing b st)).

Definition assign_pulse_rising (b : bool) : stmt unit :=
  modify (fun st => emit (AssignPulseRising b) (set_pulse_rising b st)).

Definition gets {A} (f : firmware -> A) : stmt A :=
  fun st => Next (f st) st.

(** [if (c) { body }] *)
Definition when (c : bool) (body : stmt unit) : stmt unit :=
  if c then body else ret tt.

(** ** The sketch *)

Definition SP : string := String " "%char EmptyString.

(** The test every colour channel goes through, and the one a duration
    or a repeat count goes through. *)
Definition bad_channel (v : Z) : bool := (0 >? v) || (255 <? v).
Definition bad_count (v : Z) : bool := 0 >? v.

(** What [blink] does once its arguments are read (lines 127 to 148):
    the strip alternates between black and the colour. *)
Definition blink_effect (red green blue duration repeats : Z) : stmt unit :=
  wait <- int_div duration (Int16.mul 2 repeats) ;;
  let color := strip_Color red green blue in
  let black := strip_Color 0 0 0 in
  assign_is_pulsing false ;;
  strip_setBrightness DEFAULT_BRIGHTNESS ;;
  for_lt 0 repeats (fun i =>
    for_lt 0 LED_COUNT (fun j => strip_setPixelColor j black) ;;
    strip_show ;;
    delay wait ;;
    for_lt 0 LED_COUNT (fun j => strip_setPixelColor j color) ;;
    strip_show ;;
    delay wait) ;;
  for_lt 0 LED_COUNT (fun j => strip_setPixelColor j black) ;;
  strip_show.

(** What [wipe] does once its arguments are read (lines 181 to 190): the
    pixels take the colour one after the other. *)
Definition wipe_effect (red green blue duration : Z) : stmt unit :=
  let color := strip_Color red green blue in
  wait <- int_div duration LED_COUNT ;;
  assign_is_pulsing false ;;
  strip_setBrightness DEFAULT_BRIGHTNESS ;;
  for_lt 0 LED_COUNT (fun i =>
    strip_setPixelColor i color ;;
    strip_show ;;
    delay wait).

(** What [color] does once its arguments are read (lines 215 to 222). *)
Definition color_effect (red green blue : Z) : stmt unit :=
  let color := strip_Color red green blue in
  assign_is_pulsing false ;;
  strip_setBrightness DEFAULT_BRIGHTNESS ;;
  for_lt 0 LED_COUNT (fun i => strip_setPixelColor i color) ;;
  strip_show.

(** The branch of [process_command] for [blink]: a colour as three
    components, a duration and a repeat count. *)
Definition cmd_blink : stmt unit :=
  fragment <- strtok None SP ;;
  red <- atoi fragment ;;
  when (bad_channel red) (Serial_println_int 1 ;; return_) ;;
  fragment <- strtok None SP ;;
  green <- atoi fragment ;;
  when (bad_channel green) (Serial_println_int 1 ;; return_) ;;
  fragment <- strtok None SP ;;
  blue <- atoi fragment ;;
  when (bad_channel blue) (Serial_println_int 1 ;; return_) ;;
  fragment <- strtok None SP ;;
  duration <- atoi fragment ;;
  when (bad_count duration) (Serial_println_int 1 ;; return_) ;;
  fragment <- strtok None SP ;;
  repeats <- atoi fragment ;;
  when (bad_count repeats) (Serial_println_int 1 ;; return_) ;;
  blink_effect red green blue duration repeats.

(** The branch for [wipe]: red, green, blue and the duration of the whole
    effect. *)
Definition cmd_wipe : stmt unit :=
  fragment <- strtok None SP ;;
  red <- atoi fragment ;;
  when (bad_channel red) (Serial_println_int 1 ;; return_) ;;
  fragment <- strtok None SP ;;
  green <- atoi fragment ;;
  when (bad_channel green) (Serial_println_int 1 ;; return_) ;;
  fragment <- strtok None SP ;;
  blue <- atoi fragment ;;
  when (bad_channel blue) (Serial_println_int 1 ;; return_) ;;
  fragment <- strtok None SP ;;
  duration <- atoi fragment ;;
  when (bad_count duration) (Serial_println_int 1 ;; return_) ;;
  wipe_effect red green blue duration.

(** The branch for [color]: red, green and blue. *)
Definition cmd_color : stmt unit :=
  fragment <- strtok None SP ;;
  red <- atoi fragment ;;
  when (bad_channel red) (Serial_println_int 1 ;; return_) ;;
  fragment <- strtok None SP ;;
  green <- atoi fragment ;;
  when (bad_channel green) (Serial_println_int 1 ;; return_) ;;
  fragment <- strtok None SP ;;
  blue <- atoi fragment ;;
  when (bad_channel blue) (Serial_println_int 1 ;; return_) ;;
  color_effect red green blue.

(** The branch for [pulse]: pulsing is indefinite, so only the flag is
    set here and the animation is done in [loop]. *)
Definition cmd_pulse : stmt unit :=
  assign_is_pulsing true.

(** [process_command]: parse a command and carry it out.  The local
    [errno] is the value of the [if] chain. *)
Definition process_command (command : list ascii) : stmt unit :=
  let errno := 0 in
  digitalWrite LED_BUILTIN LOW ;;
  fragment <- strtok (Some (c_str command)) SP ;;
  errno <- (
    c <- strcmp_ptr "blink" fragment ;;
    if 0 =? c then cmd_blink ;; ret errno else
    c <- strcmp_ptr "wipe" fragment ;;
    if 0 =? c then cmd_wipe ;; ret errno else
    c <- strcmp_ptr "color" fragment ;;
    if 0 =? c then cmd_color ;; ret errno else
    c <- strcmp_ptr "pulse" fragment ;;
    if 0 =? c then cmd_pulse ;; ret errno else
    ret 1) ;;
  digitalWrite LED_BUILTIN HIGH ;;
  Serial_println_int errno.

(** [memset (mem, c, n)] *)
Fixpoint memset (mem : list ascii) (c : ascii) (n : nat) : list ascii :=
  match n, mem with
  | S n', _ :: mem' => c :: memset mem' c n'
  | _, _ => mem
  end.

(** [flush_input_buffer]: clear the characters in the input buffer and
    set the length of the data to zero. *)
Definition flush_input_buffer : stmt unit :=
  modify (fun st =>
    set_input_buffer
      (memset (input_buffer st) NUL (Z.to_nat (len_input_buffer_data st)))
      st) ;;
  modify (set_len_input_buffer_data 0).

(** The globals before [setup] runs. *)
Definition power_on : firmware :=
  Firmware [] 0 (NeoPixel [] 0) false false LOW None [].

(** [setup], from the allocation of the buffer to the last write on the
    builtin LED; opening the serial port changes nothing the sketch
    reads. *)
Definition setup : stmt unit :=
  modify (set_input_buffer
            (replicate (Z.to_nat (MAX_INPUT_BUFFER_LEN + 1)) NUL)) ;;
  modify (set_strip (NeoPixel (replicate (Z.to_nat LED_COUNT) 0) 0)) ;;
  strip_setBrightness DEFAULT_BRIGHTNESS ;;
  strip_setBrightness DEFAULT_BRIGHTNESS ;;
  for_lt 0 LED_COUNT (fun i => strip_setPixelColor i 0) ;;
  strip_show ;;
  digitalWrite LED_BUILTIN HIGH.

(** The body of [switch (input)] for one byte read from the port. *)
Definition loop_switch (input : ascii) : stmt unit :=
  let n := byte_of input in
  if n =? 0 then
    ret tt
  else if (n =? 13) || (n =? 10) then
    len <- gets len_input_buffer_data ;;
    when (0 <? len) (
      command <- gets input_buffer ;;
      call (process_command command) ;;
      call flush_input_buffer)
  else
    len <- gets len_input_buffer_data ;;
    modify (fun st =>
      set_input_buffer (<[Z.to_nat len := input]> (input_buffer st)) st) ;;
    modify (set_len_input_buffer_data (Int16.add len 1)) ;;
    len <- gets len_input_buffer_data ;;
    when (MAX_INPUT_BUFFER_LEN <=? len) (
      Serial_println_str "Input too long" ;;
      call flush_input_buffer).

(** [while (-1 != (input = Serial.read()))], over the bytes the port
    delivers before it runs empty. *)
Fixpoint serial_drain (rx : list ascii) : stmt unit :=
  match rx with
  | [] => ret tt
  | input :: rx' => loop_switch input ;; serial_drain rx'
  end.

(** The body of [if (is_pulsing)]: one step of the pulse animation. *)
Definition pulse_step : stmt unit :=
  brightness <- strip_getBrightness ;;
  rising <- gets pulse_rising ;;
  brightness <- (
    if rising then
      let brightness := Int16.add brightness PULSE_BRIGHTNESS_STEP in
      if MAX_PULSE_BRIGHTNESS <? brightness then
        assign_pulse_rising false ;;
        ret MAX_PULSE_BRIGHTNESS
      else ret brightness
    else
      let brightness := Int16.sub brightness PULSE_BRIGHTNESS_STEP in
      if MIN_PULSE_BRIGHTNESS >? brightness then
        assign_pulse_rising true ;;
        ret MIN_PULSE_BRIGHTNESS
      else ret brightness) ;;
  strip_setBrightness brightness ;;
  strip_show ;;
  delay 100.

(** [loop], given the bytes the serial port delivers during it. *)
Definition loop (rx : list ascii) : stmt unit :=
  serial_drain rx ;;
  pulsing <- gets is_pulsing ;;
  when pulsing pulse_step.

(** ** Running the sketch *)

(** What a call leaves behind. *)
Inductive outcome : Type :=
| Done (st : firmware)
| Undefined (f : fault).

Definition run (s : stmt unit) (st : firmware) : outcome :=
  match call s st with
  | Next _ st' => Done st'
  | Return st' => Done st'
  | Abort f => Undefined f
  end.

(** The state [setup] leaves. *)
Definition booted : firmware :=
  match run setup power_on with
  | Done st => st
  | Undefined _ => power_on
  end.

(** A line of text as it sits in the input buffer. *)
Definition line (s : string) : list ascii := c_mem s.

Definition bytes (s : string) : list ascii := list_ascii_of_string s.

(** ** Vocabulary of the properties *)

(** The text between delimiters, empty pieces included. *)
Fixpoint fields (delim s : string) : list string :=
  match s with
  | EmptyString => [EmptyString]
  | String c s' =>
      if is_delim delim c then EmptyString :: fields delim s'
      else match fields delim s' with
           | f :: fs => String c f :: fs
           | [] => [String c EmptyString]
           end
  end.

Definition nonempty (s : string) : bool :=
  match s with EmptyString => false | String _ _ => true end.

(** The tokens of a text: its non-empty fields. *)
Definition tokens (delim s : string) : list string :=
  List.filter nonempty (fields delim s).

(** The tokens of a command line as it sits in memory. *)
Definition fragments (command : list ascii) : list string :=
  tokens SP (c_str command).

(** The tokens [strtok] has still to deliver. *)
Definition pending (last : option string) : list string :=
  match last with
  | None => []
  | Some s => tokens SP s
  end.

(** The commands that take arguments, their keywords and the test each
    of their arguments goes through, in order. *)
Inductive effect_command : Type := Blink | Wipe | Color.

Definition keyword (c : effect_command) : string :=
  match c with
  | Blink => "blink"
  | Wipe => "wipe"
  | Color => "color"
  end.

Definition signature (c : effect_command) : list (Z -> bool) :=
  match c with
  | Blink => [bad_channel; bad_channel; bad_channel; bad_count; bad_count]
  | Wipe => [bad_channel; bad_channel; bad_channel; bad_count]
  | Color => [bad_channel; bad_channel; bad_channel]
  end.

(** The token [t] passes the test [bad]. *)
Definition passes (bad : Z -> bool) (t : string) : Prop :=
  bad (atoi_str t) = false.

(** The events of one pass over the strip that gives every pixel the
    colour [c], and the pixels after it. *)
Definition fill_events (c : Z) : list event :=
  map (fun j => SetPixelColor j c) (seqZ 0 LED_COUNT).

Definition solid (c : Z) : list Z := replicate (Z.to_nat LED_COUNT) c.

(** The strip has the pixels [setup] gave it. *)
Definition strip_ok (st : firmware) : Prop :=
  length (pixels (strip st)) = Z.to_nat LED_COUNT.

(** What reading the arguments of a command comes to: every argument is
    there and passes its test, one is rejected, or the tokens run out.
    [rest] is what [strtok] has left to deliver. *)
Inductive parse : Type :=
| Parsed (vs : list Z) (rest : list string)
| Rejected (rest : list string)
| Missing.

Fixpoint parse_args (sig : list (Z -> bool)) (args : list string) : parse :=
  match sig with
  | [] => Parsed [] args
  | bad :: sig' =>
      match args with
      | [] => Missing
      | t :: args' =>
          if bad (atoi_str t) then Rejected args'
          else match parse_args sig' args' with
               | Parsed vs rest => Parsed (atoi_str t :: vs) rest
               | r => r
               end
      end
  end.

Definition branch (c : effect_command) : stmt unit :=
  match c with
  | Blink => cmd_blink
  | Wipe => cmd_wipe
  | Color => cmd_color
  end.

Definition effect (c : effect_command) (vs : list Z) : stmt unit :=
  match c, vs with
  | Blink, [r; g; b; d; n] => blink_effect r g b d n
  | Wipe, [r; g; b; d] => wipe_effect r g b d
  | Color, [r; g; b] => color_effect r g b
  | _, _ => ret tt
  end.

(** The state with other pixels and more events in its log. *)
Definition painted (px : list Z) (evs : list event) (st : firmware)
    : firmware :=
  Firmware (input_buffer st) (len_input_buffer_data st)
    (NeoPixel px (brightness (strip st))) (is_pulsing st) (pulse_rising st)
    (led_builtin st) (strtok_last st) (log st ++ evs).

(** One cycle of [blink]: black, then the colour, each shown and held. *)
Definition blink_cycle (c wait : Z) : list event :=
  fill_events 0 ++ [StripShow (solid 0) DEFAULT_BRIGHTNESS; Delay wait]
  ++ fill_events c ++ [StripShow (solid c) DEFAULT_BRIGHTNESS; Delay wait].

Definition blink_events (c wait : Z) (n : nat) : list event :=
  [AssignIsPulsing false; SetBrightness DEFAULT_BRIGHTNESS]
  ++ concat (replicate n (blink_cycle c wait))
  ++ fill_events 0 ++ [StripShow (solid 0) DEFAULT_BRIGHTNESS].

Definition color_events (c : Z) : list event :=
  [AssignIsPulsing false; SetBrightness DEFAULT_BRIGHTNESS]
  ++ fill_events c ++ [StripShow (solid c) DEFAULT_BRIGHTNESS].

(** The state a command leaves the strip in when it is carried out:
    pulsing off, the default brightness, the pixels [px], and [evs] more
    events in the log. *)
Definition finished (px : list Z) (evs : list event) (st : firmware)
    : firmware :=
  Firmware (input_buffer st) (len_input_buffer_data st)
    (NeoPixel px DEFAULT_BRIGHTNESS) false (pulse_rising st)
    (led_builtin st) (strtok_last st) (log st ++ evs).

(** The pixels while [wipe] is at pixel [i]: the colour up to [i], the
    former pixels after it. *)
Definition wiped (c : Z) (px : list Z) (i : nat) : list Z :=
  replicate (S i) c ++ drop (S i) px.

Definition wipe_events (c wait : Z) (px : list Z) : list event :=
  [AssignIsPulsing false; SetBrightness DEFAULT_BRIGHTNESS]
  ++ flat_map (fun i => [SetPixelColor (Z.of_nat i) c;
                         StripShow (wiped c px i) DEFAULT_BRIGHTNESS;
                         Delay wait])
       (seq 0 (Z.to_nat LED_COUNT)).

(** The half-cycle of [blink] in milliseconds, as the sketch computes it
    and as [delay] receives it. *)
Definition blink_wait (duration repeats : Z) : Z :=
  to_ulong (Int16.wrap (Z.quot duration (Int16.mul 2 repeats))).

Definition wipe_wait (duration : Z) : Z :=
  to_ulong (Int16.wrap (Z.quot duration LED_COUNT)).

(** What carrying out a command with the values [vs] adds to the log
    between the two writes on the builtin LED, and the pixels it leaves. *)
Definition effect_events (c : effect_command) (vs : list Z) (px : list Z)
    : list event :=
  match c, vs with
  | Blink, [r; g; b; d; n] =>
      blink_events (strip_Color r g b) (blink_wait d n) (Z.to_nat n)
  | Wipe, [r; g; b; d] => wipe_events (strip_Color r g b) (wipe_wait d) px
  | Color, [r; g; b] => color_events (strip_Color r g b)
  | _, _ => []
  end.

Definition effect_pixels (c : effect_command) (vs : list Z) : list Z :=
  match c, vs with
  | Blink, _ => solid 0
  | _, r :: g :: b :: _ => solid (strip_Color r g b)
  | _, _ => []
  end.

(** [st'] is [st] after a command that was carried out: status 0. *)
Definition carried_out (px : list Z) (evs : list event)
    (st st' : firmware) : Prop :=
  input_buffer st' = input_buffer st
  /\ len_input_buffer_data st' = len_input_buffer_data st
  /\ strip st' = NeoPixel px DEFAULT_BRIGHTNESS
  /\ is_pulsing st' = false
  /\ pulse_rising st' = pulse_rising st
  /\ led_builtin st' = HIGH
  /\ log st' = log st ++ DigitalWrite LED_BUILTIN LOW :: evs
                 ++ [DigitalWrite LED_BUILTIN HIGH; PrintlnInt 0].

(** [st'] is [st] after a command that was turned down at an argument:
    status 1. *)
Definition turned_down (st st' : firmware) : Prop :=
  input_buffer st' = input_buffer st
  /\ len_input_buffer_data st' = len_input_buffer_data st
  /\ strip st' = strip st
  /\ is_pulsing st' = is_pulsing st
  /\ pulse_rising st' = pulse_rising st
  /\ led_builtin st' = LOW
  /\ log st' = log st ++ [DigitalWrite LED_BUILTIN LOW; PrintlnInt 1].

(** The state in which a branch of [process_command] starts: the builtin
    LED low, the first token taken. *)
Definition entered (last : option string) (st : firmware) : firmware :=
  set_strtok_last last
    (emit (DigitalWrite LED_BUILTIN LOW) (set_led_builtin LOW st)).

(** The calls of [strtok] on a text: the first with the text, the
    others with [NULL].  [strtok_calls s n] is what call number [n]
    returns, with the pointer it keeps. *)
Fixpoint strtok_calls (s : string) (n : nat) : option string * option string :=
  match n with
  | O => strtok_r (Some s) SP None
  | S n' => strtok_r None SP (snd (strtok_calls s n'))
  end.

(** [atoi] finds a number in the token: after the white space and the
    sign it skips there is a digit. *)
Definition parses_as_number (t : string) : bool :=
  match skip_spaces t with
  | String "-"%char (String c _) => isdigit c
  | String "+"%char (String c _) => isdigit c
  | String c _ => isdigit c
  | EmptyString => false
  end.

(** [n] steps of the pulse animation, as [n] turns of [loop] with no
    serial input make them. *)
Definition pulse_steps (n : nat) : stmt unit :=
  for_count n 0 (fun _ => pulse_step).

Definition in_pulse_range (b : Z) : Prop :=
  MIN_PULSE_BRIGHTNESS <= b <= MAX_PULSE_BRIGHTNESS.

(** The step that starts in [st] clamps: the brightness stepped in the
    current direction passes the boundary. *)
Definition clamps (st : firmware) : bool :=
  if pulse_rising st
  then MAX_PULSE_BRIGHTNESS <? brightness (strip st) + PULSE_BRIGHTNESS_STEP
  else brightness (strip st) - PULSE_BRIGHTNESS_STEP <? MIN_PULSE_BRIGHTNESS.

(** The brightness values shown by the events of a log, in order. *)
Definition shown (evs : list event) : list Z :=
  flat_map (fun e => match e with StripShow _ b => [b] | _ => [] end) evs.

(** A byte [loop] appends to the buffer: neither null nor a line
    terminator. *)
Definition data_byte (c : ascii) : Prop :=
  byte_of c <> 0 /\ byte_of c <> 13 /\ byte_of c <> 10.

(** The buffer as [setup] allocates it and [loop] keeps it: 128 bytes,
    the last of which is never written. *)
Definition buffer_ok (st : firmware) : Prop :=
  length (input_buffer st) = Z.to_nat (MAX_INPUT_BUFFER_LEN + 1)
  /\ drop (Z.to_nat MAX_INPUT_BUFFER_LEN) (input_buffer st) = [NUL].

(** [st'] differs from [st] in the input buffer at most. *)
Definition same_devices (st st' : firmware) : Prop :=
  strip st' = strip st
  /\ is_pulsing st' = is_pulsing st
  /\ pulse_rising st' = pulse_rising st
  /\ led_builtin st' = led_builtin st
  /\ log st' = log st.

(** The firmware with the pulse animation under way: [setup], then one
    turn of [loop] that receives the line [pulse]. *)
Definition breathing : firmware :=
  match run (loop (bytes "pulse" ++ ["010"%char])) booted with
  | Done st => st
  | Undefined _ => booted
  end.

(** The animation two steps on: the brightness is between the two
    boundaries of the pulse. *)
Definition settled : firmware :=
  match run (loop []) breathing with
  | Done st => st
  | Undefined _ => breathing
  end.

(** A line of 127 letters followed by the text [pulse] and a line
    feed. *)
Definition overlong_input : list ascii :=
  replicate 127 "a"%char ++ bytes "pulse" ++ ["010"%char].

Definition byte_range (b : Z) : Prop := 0 <= b <= 255.

(** What [process_command] leaves alone whatever the line: the input
    buffer and its length, the direction of the pulse, and the number of
    pixels of the strip. *)
Definition untouched (st st' : firmware) : Prop :=
  input_buffer st' = input_buffer st
  /\ len_input_buffer_data st' = len_input_buffer_data st
  /\ pulse_rising st' = pulse_rising st
  /\ length (pixels (strip st')) = length (pixels (strip st)).

(** A statement keeps the relation [R] between the state it starts in
    and the state it leaves, however it ends. *)
Definition keeps (R : firmware -> firmware -> Prop) {A} (s : stmt A) : Prop :=
  forall st,
    match s st with
    | Next _ st' => R st st'
    | Return st' => R st st'
    | Abort _ => True
    end.

(** The state between two turns of [loop]: the strip has its pixels, the
    buffer its 128 bytes with the last one null, and the data in it
    leaves room for one byte at least. *)
Definition ready (st : firmware) : Prop :=
  strip_ok st
  /\ buffer_ok st
  /\ 0 <= len_input_buffer_data st <= MAX_INPUT_BUFFER_LEN - 1.

Definition stays_ready (st st' : firmware) : Prop := ready st -> ready st'.

(** A byte that does not end a line, and the bytes of a run of input
    that [loop] puts in the buffer: all but the null bytes. *)
Definition not_terminator (c : ascii) : Prop :=
  byte_of c <> 13 /\ byte_of c <> 10.

Definition buffered (bs : list ascii) : list ascii :=
  List.filter (fun c => negb (byte_of c =? 0)) bs.


(** ** Vocabulary of the further properties *)

(** A string with no null byte in it, as every C string is. *)
Fixpoint nul_free (s : string) : Prop :=
  match s with
  | EmptyString => True
  | String c s' => c <> NUL /\ nul_free s'
  end.

(** A byte that ends a line, and a byte [loop] does not buffer. *)
Definition terminator (c : ascii) : Prop :=
  byte_of c = 13 \/ byte_of c = 10.

Definition blank (c : ascii) : Prop :=
  byte_of c = 0 \/ terminator c.

(** The buffer with the data bytes [bs] at its start and null bytes
    after them. *)
Definition holding (bs : list ascii) : list ascii :=
  bs ++ replicate (Z.to_nat (MAX_INPUT_BUFFER_LEN + 1) - length bs) NUL.

(** The state with [bs] in the buffer. *)
Definition loaded (bs : list ascii) (st : firmware) : firmware :=
  set_len_input_buffer_data (Z.of_nat (length bs))
    (set_input_buffer (holding bs) st).

(** The state between two bytes of input: the buffer holds its data, at
    most 126 bytes none of which is null, and null bytes after them up
    to its 128th byte; the strip has its pixels and a brightness of one
    byte. *)
Definition tidy (st : firmware) : Prop :=
  strip_ok st
  /\ byte_range (brightness (strip st))
  /\ exists data,
       input_buffer st = holding data
       /\ len_input_buffer_data st = Z.of_nat (length data)
       /\ (length data <= Z.to_nat (MAX_INPUT_BUFFER_LEN - 1))%nat
       /\ Forall (fun c => c <> NUL) data.

Definition stays_tidy (st st' : firmware) : Prop := tidy st -> tidy st'.

(** What [process_command] keeps besides what it leaves [untouched]: a
    brightness of one byte. *)
Definition gentle (st st' : firmware) : Prop :=
  untouched st st'
  /\ (byte_range (brightness (strip st)) ->
      byte_range (brightness (strip st'))).

(** A status or a diagnostic written to the serial port. *)
Definition is_println (e : event) : Prop :=
  match e with
  | PrintlnInt _ => True
  | PrintlnStr _ => True
  | _ => False
  end.

(** The direction and the brightness after one step of the pulse, from
    the direction and the brightness before it. *)
Definition pulse_next (s : bool * Z) : bool * Z :=
  let '(rising, b) := s in
  if rising then
    if MAX_PULSE_BRIGHTNESS <? b + PULSE_BRIGHTNESS_STEP
    then (false, MAX_PULSE_BRIGHTNESS)
    else (true, b + PULSE_BRIGHTNESS_STEP)
  else
    if b - PULSE_BRIGHTNESS_STEP <? MIN_PULSE_BRIGHTNESS
    then (true, MIN_PULSE_BRIGHTNESS)
    else (false, b - PULSE_BRIGHTNESS_STEP).

Definition pulse_state (st : firmware) : bool * Z :=
  (pulse_rising st, brightness (strip st)).

(** A run of spaces, and words laid out in a line: each word comes
    after the number of spaces given with it, and one space more when it
    is not the first. *)
Fixpoint spaces (n : nat) : string :=
  match n with
  | O => EmptyString
  | S n' => String " "%char (spaces n')
  end.

Fixpoint spaced (ws : list (nat * string)) : string :=
  match ws with
  | [] => EmptyString
  | (n, w) :: ws' =>
      String.append (spaces n)
        (String.append w
           match ws' with
           | [] => EmptyString
           | _ :: _ => String.append SP (spaced ws')
           end)
  end.

(** A word: not empty, with no space and no null byte in it. *)
Fixpoint space_free (s : string) : Prop :=
  match s with
  | EmptyString => True
  | String c s' => is_delim SP c = false /\ space_free s'
  end.

Definition word (w : string) : Prop :=
  w <> EmptyString /\ space_free w /\ nul_free w.

(** The first token of a line is none of the four keywords. *)
Definition unrecognized (name : string) : Prop :=
  name <> "blink"%string /\ name <> "wipe"%string
  /\ name <> "color"%string /\ name <> "pulse"%string.

(** The frames [wipe] shows: pixel after pixel takes the colour. *)
Definition wipe_frames (c : Z) (px : list Z) : list (list Z) :=
  map (wiped c px) (seq 0 (Z.to_nat LED_COUNT)).

(** The frames shown by the events of a log, in order. *)
Definition frames (evs : list event) : list (list Z) :=
  flat_map (fun e => match e with StripShow f _ => [f] | _ => [] end) evs.

(** The waits of the events of a log, in order. *)
Definition waits (evs : list event) : list Z :=
  flat_map (fun e => match e with Delay ms => [ms] | _ => [] end) evs.

(** A statement that writes nothing to the serial port while it runs on,
    and whose early [return] comes right after the status 1 is written;
    [Q] holds of the value it runs on with. *)
Definition quiet {A} (Q : A -> Prop) (s : stmt A) : Prop :=
  forall st,
    match s st with
    | Next a st' =>
        Q a
        /\ exists evs,
             log st' = log st ++ evs
             /\ Forall (fun e => ~ is_println e) evs
    | Return st' =>
        exists evs,
          log st' = log st ++ evs ++ [PrintlnInt 1]
          /\ Forall (fun e => ~ is_println e) evs
    | Abort _ => True
    end.

Definition any {A} (a : A) : Prop := True.

Definition status (errno : Z) : Prop := errno = 0 \/ errno = 1.

(** * Properties *)

(** ** The tokenizer *)

Lemma scan_token_fields delim s :
  exists fs, fields delim s = fst (scan_token delim s) :: fs
             /\ List.filter nonempty fs = tokens delim (snd (scan_token delim s)).
Proof.
  induction s as [|c s IH]; simpl.
  - exists []. split; reflexivity.
  - destruct (is_delim delim c).
    + exists (fields delim s). split; reflexivity.
    + destruct IH as (fs & Hf & Ht).
      destruct (scan_token delim s) as [tok rest]; simpl in *.
      rewrite Hf. exists fs. split; [reflexivity | exact Ht].
Qed.

Lemma tokens_skip_delims delim s :
  tokens delim (skip_delims delim s) = tokens delim s.
Proof.
  induction s as [|c s IH]; simpl; [reflexivity|].
  unfold tokens at 2. simpl.
  destruct (is_delim delim c) eqn:E; simpl.
  - exact IH.
  - unfold tokens. simpl. rewrite E. reflexivity.
Qed.

Lemma skip_delims_head delim s c s' :
  skip_delims delim s = String c s' -> is_delim delim c = false.
Proof.
  induction s as [|d s IH]; simpl; [discriminate|].
  destruct (is_delim delim d) eqn:E; [exact IH|].
  intros [= -> ->]. exact E.
Qed.

Lemma scan_token_nonempty delim c s :
  is_delim delim c = false ->
  nonempty (fst (scan_token delim (String c s))) = true.
Proof.
  intros E. simpl. rewrite E.
  destruct (scan_token delim s). reflexivity.
Qed.

(** A call of [strtok] on a text delivers its first token and keeps the
    others for the calls that follow; with no token left it delivers
    [NULL]. *)
Lemma strtok_r_tokens delim s last :
  fst (strtok_r (Some s) delim last) = head (tokens delim s)
  /\ match snd (strtok_r (Some s) delim last) with
     | Some r => tokens delim r
     | None => []
     end = tail (tokens delim s).
Proof.
  unfold strtok_r.
  rewrite <- (tokens_skip_delims delim s).
  destruct (skip_delims delim s) as [|c s'] eqn:E.
  - split; reflexivity.
  - pose proof (skip_delims_head _ _ _ _ E) as Hc.
    pose proof (scan_token_nonempty delim c s' Hc) as Hne.
    destruct (scan_token_fields delim (String c s')) as (fs & Hf & Ht).
    destruct (scan_token delim (String c s')) as [tok rest].
    cbn [fst snd] in *.
    unfold tokens at 1 3. rewrite Hf. simpl. rewrite Hne. simpl.
    split; [reflexivity | symmetry; exact Ht].
Qed.

Lemma strtok_r_next last :
  fst (strtok_r None SP last) = head (pending last)
  /\ pending (snd (strtok_r None SP last)) = tail (pending last).
Proof.
  destruct last as [s|]; [|split; reflexivity].
  destruct (strtok_r_tokens SP s None) as [H1 H2].
  unfold pending at 2 3.
  change (strtok_r None SP (Some s)) with (strtok_r (Some s) SP None).
  split; [exact H1|].
  unfold pending.
  destruct (snd (strtok_r (Some s) SP None)) eqn:E; exact H2.
Qed.

Lemma strtok_r_first s last :
  fst (strtok_r (Some s) SP last) = head (tokens SP s)
  /\ pending (snd (strtok_r (Some s) SP last)) = tail (tokens SP s).
Proof.
  destruct (strtok_r_tokens SP s last) as [H1 H2].
  split; [exact H1|].
  unfold pending.
  destruct (snd (strtok_r (Some s) SP last)) eqn:E; exact H2.
Qed.

(** ** Running statements *)

Arguments strtok : simpl never.
Arguments atoi_str : simpl never.
Arguments bad_channel : simpl never.
Arguments bad_count : simpl never.
Arguments strip_Color : simpl never.
Arguments pending : simpl never.
Arguments for_lt : simpl never.
Arguments cmd_blink : simpl never.
Arguments cmd_wipe : simpl never.
Arguments cmd_color : simpl never.
Arguments blink_effect : simpl never.
Arguments wipe_effect : simpl never.
Arguments color_effect : simpl never.
Arguments Int16.mul : simpl never.
Arguments Int16.div : simpl never.
Arguments Int16.wrap : simpl never.
Arguments to_ulong : simpl never.

Ltac open_state st :=
  let ib := fresh "ib" in
  let len := fresh "len" in
  let px := fresh "px" in
  let br := fresh "br" in
  let ip := fresh "ip" in
  let pr := fresh "pr" in
  let led := fresh "led" in
  let last := fresh "last" in
  let lg := fresh "lg" in
  destruct st as [ib len [px br] ip pr led last lg].

Ltac open_strip px H :=
  unfold strip_ok in H; cbn in H;
  do 15 (destruct px as [|? px]; [discriminate H|]);
  destruct px; [clear H | discriminate H].

(** States are compared field by field, the log as one list. *)
Ltac norm_state :=
  unfold painted, finished, emit, set_input_buffer,
    set_len_input_buffer_data, set_strip, set_is_pulsing, set_pulse_rising,
    set_led_builtin, set_strtok_last;
  cbn [input_buffer len_input_buffer_data strip is_pulsing pulse_rising
       led_builtin strtok_last log pixels brightness];
  rewrite <- ?app_assoc; cbn [app].

Lemma strtok_first_run {A} (s : string) (k : option string -> stmt A) st :
  exists last,
    pending last = tail (tokens SP s)
    /\ bind (strtok (Some s) SP) k st
       = k (head (tokens SP s)) (set_strtok_last last st).
Proof.
  destruct (strtok_r_first s (strtok_last st)) as [H1 H2].
  exists (snd (strtok_r (Some s) SP (strtok_last st))).
  split; [exact H2|].
  unfold bind, strtok.
  destruct (strtok_r (Some s) SP (strtok_last st)) as [tok last].
  cbn [fst snd] in *. rewrite H1. reflexivity.
Qed.

Lemma strtok_next_run {A} (k : option string -> stmt A) st :
  exists last,
    pending last = tail (pending (strtok_last st))
    /\ bind (strtok None SP) k st
       = k (head (pending (strtok_last st))) (set_strtok_last last st).
Proof.
  destruct (strtok_r_next (strtok_last st)) as [H1 H2].
  exists (snd (strtok_r None SP (strtok_last st))).
  split; [exact H2|].
  unfold bind, strtok.
  destruct (strtok_r None SP (strtok_last st)) as [tok last].
  cbn [fst snd] in *. rewrite H1. reflexivity.
Qed.

(** Reading one argument: the next token, its conversion and its test. *)
Lemma read_arg_run {A} (bad : Z -> bool) (k : Z -> stmt A) st :
  exists last,
    pending last = tail (pending (strtok_last st))
    /\ bind (strtok None SP) (fun fragment =>
         bind (atoi fragment) (fun v =>
           bind (when (bad v) (bind (Serial_println_int 1) (fun _ => return_)))
                (fun _ => k v))) st
       = match head (pending (strtok_last st)) with
         | None => Abort NullPointer
         | Some t =>
             if bad (atoi_str t)
             then Return (emit (PrintlnInt 1) (set_strtok_last last st))
             else k (atoi_str t) (set_strtok_last last st)
         end.
Proof.
  destruct (strtok_next_run
              (fun fragment =>
                 bind (atoi fragment) (fun v =>
                   bind (when (bad v)
                           (bind (Serial_println_int 1) (fun _ => return_)))
                        (fun _ => k v))) st) as (last & Hl & Heq).
  exists last. split; [exact Hl|].
  rewrite Heq.
  destruct (head (pending (strtok_last st))) as [t|]; [|reflexivity].
  cbn. destruct (bad (atoi_str t)); reflexivity.
Qed.

(** *** The strip *)

Lemma painted_painted px1 e1 px2 e2 st :
  painted px2 e2 (painted px1 e1 st) = painted px2 (e1 ++ e2) st.
Proof. norm_state. reflexivity. Qed.

Lemma painted_finished px1 e1 px2 e2 st :
  painted px2 e2 (finished px1 e1 st) = finished px2 (e1 ++ e2) st.
Proof. norm_state. reflexivity. Qed.

Lemma strip_ok_painted c evs st : strip_ok (painted (solid c) evs st).
Proof. reflexivity. Qed.

Lemma fill_run c st :
  strip_ok st ->
  for_lt 0 LED_COUNT (fun j => strip_setPixelColor j c) st
  = Next tt (painted (solid c) (fill_events c) st).
Proof.
  intros H. open_state st. open_strip px H.
  cbv -[app]. rewrite <- !app_assoc. reflexivity.
Qed.

(** Pulsing off and the brightness reset, as every effect begins. *)
Lemma prepare_run {A} (k : stmt A) st :
  bind (assign_is_pulsing false)
    (fun _ => bind (strip_setBrightness DEFAULT_BRIGHTNESS) (fun _ => k)) st
  = k (finished (pixels (strip st))
         [AssignIsPulsing false; SetBrightness DEFAULT_BRIGHTNESS] st).
Proof.
  cbn. f_equal. norm_state. reflexivity.
Qed.

Lemma color_effect_run r g b st :
  strip_ok st ->
  color_effect r g b st
  = Next tt (finished (solid (strip_Color r g b))
               (color_events (strip_Color r g b)) st).
Proof.
  intros H. unfold color_effect. cbv zeta.
  rewrite prepare_run. unfold bind at 1.
  rewrite fill_run by exact H.
  cbn. rewrite painted_finished. unfold strip_show, modify, color_events.
  f_equal. norm_state. reflexivity.
Qed.

Lemma black_is_zero : strip_Color 0 0 0 = 0.
Proof. reflexivity. Qed.

Lemma blink_cycle_run c w st :
  strip_ok st ->
  brightness (strip st) = DEFAULT_BRIGHTNESS ->
  bind (for_lt 0 LED_COUNT (fun j => strip_setPixelColor j 0)) (fun _ =>
    bind strip_show (fun _ =>
      bind (delay w) (fun _ =>
        bind (for_lt 0 LED_COUNT (fun j => strip_setPixelColor j c)) (fun _ =>
          bind strip_show (fun _ => delay w))))) st
  = Next tt (painted (solid c) (blink_cycle c (to_ulong w)) st).
Proof.
  intros H Hb. unfold bind, strip_show, delay, modify.
  rewrite (fill_run 0 st H). rewrite fill_run by reflexivity.
  f_equal. unfold blink_cycle. norm_state. rewrite Hb. reflexivity.
Qed.

Lemma blink_loop_run c w n : forall i st,
  strip_ok st ->
  brightness (strip st) = DEFAULT_BRIGHTNESS ->
  for_count n i (fun _ =>
    bind (for_lt 0 LED_COUNT (fun j => strip_setPixelColor j 0)) (fun _ =>
      bind strip_show (fun _ =>
        bind (delay w) (fun _ =>
          bind (for_lt 0 LED_COUNT (fun j => strip_setPixelColor j c)) (fun _ =>
            bind strip_show (fun _ => delay w)))))) st
  = Next tt (painted (match n with O => pixels (strip st) | S _ => solid c end)
               (concat (replicate n (blink_cycle c (to_ulong w)))) st).
Proof.
  induction n as [|n IH]; intros i st H Hb.
  - cbn. f_equal. open_state st. norm_state. rewrite app_nil_r. reflexivity.
  - cbn [for_count]. unfold bind at 1.
    rewrite (blink_cycle_run c w st H Hb).
    rewrite IH by (try reflexivity; exact Hb).
    f_equal. rewrite painted_painted. cbn [replicate concat].
    destruct n; reflexivity.
Qed.

Lemma blink_effect_run r g b d n st :
  strip_ok st ->
  Int16.mul 2 n <> 0 ->
  blink_effect r g b d n st
  = Next tt (finished (solid 0)
               (blink_events (strip_Color r g b) (blink_wait d n) (Z.to_nat n))
               st).
Proof.
  intros H Hz. unfold blink_effect, int_div, Int16.div.
  destruct (Z.eqb_spec (Int16.mul 2 n) 0) as [E|_]; [contradiction|].
  cbn [bind ret]. cbv zeta. rewrite black_is_zero.
  rewrite prepare_run. unfold bind at 1. unfold for_lt at 1.
  rewrite blink_loop_run by (try reflexivity; exact H).
  rewrite Z.sub_0_r.
  unfold bind at 1. rewrite fill_run by (destruct (Z.to_nat n); [exact H | reflexivity]).
  unfold strip_show, modify. f_equal.
  unfold blink_events, blink_wait. norm_state. reflexivity.
Qed.

Lemma wipe_effect_run r g b d st :
  strip_ok st ->
  wipe_effect r g b d st
  = Next tt (finished (solid (strip_Color r g b))
               (wipe_events (strip_Color r g b) (wipe_wait d)
                  (pixels (strip st))) st).
Proof.
  intros H. unfold wipe_effect, wipe_wait, int_div.
  change (Int16.div d LED_COUNT)
    with (Some (Int16.wrap (Z.quot d LED_COUNT))).
  cbv zeta. cbn [bind ret]. rewrite prepare_run.
  generalize (strip_Color r g b) as c.
  generalize (Int16.wrap (Z.quot d LED_COUNT)) as w. intros w c.
  unfold delay. generalize (to_ulong w) as u. clear w. intros u.
  open_state st. open_strip px H.
  cbv -[app]. rewrite <- !app_assoc. reflexivity.
Qed.

(** *** The branches of [process_command] *)

Lemma set_strtok_last_twice l1 l2 st :
  set_strtok_last l2 (set_strtok_last l1 st) = set_strtok_last l2 st.
Proof. reflexivity. Qed.

Lemma strtok_last_set l st : strtok_last (set_strtok_last l st) = l.
Proof. reflexivity. Qed.

Ltac read_arg :=
  lazymatch goal with
  | |- context [bind (strtok None SP) (fun fragment =>
         bind (atoi fragment) (fun v =>
           bind (when (@?bad v) _) (fun _ => @?k v))) ?st] =>
      let last := fresh "last" in
      let Hl := fresh "Hlast" in
      let Heq := fresh "Heq" in
      destruct (read_arg_run bad k st) as (last & Hl & Heq);
      cbn beta in Heq; rewrite Heq; clear Heq;
      rewrite ?strtok_last_set in Hl |- *;
      repeat change (set_strtok_last ?a (set_strtok_last ?b ?s))
        with (set_strtok_last a s)
  end.

(** One argument: the tokens have run out, the token is rejected, or the
    branch goes on to the next argument. *)
Ltac next_arg :=
  read_arg;
  let t := fresh "t" in
  let E := fresh "E" in
  match goal with
  | Hp : pending _ = ?args |- _ =>
      is_var args; rewrite Hp in *; clear Hp;
      destruct args as [|t args]
  end;
  cbn [head tail parse_args signature] in *;
  [ reflexivity | ];
  lazymatch goal with
  | |- context [if ?bad (atoi_str t) then _ else _] =>
      destruct (bad (atoi_str t)) eqn:E
  end;
  [ eexists; split; [eassumption | reflexivity] | ].

Lemma branch_run c st :
  match parse_args (signature c) (pending (strtok_last st)) with
  | Missing => branch c st = Abort NullPointer
  | Rejected rest =>
      exists last,
        pending last = rest
        /\ branch c st = Return (emit (PrintlnInt 1) (set_strtok_last last st))
  | Parsed vs rest =>
      exists last,
        pending last = rest
        /\ branch c st = effect c vs (set_strtok_last last st)
  end.
Proof.
  remember (pending (strtok_last st)) as args eqn:Hp. symmetry in Hp.
  destruct c; cbn [branch].
  - unfold cmd_blink. do 5 next_arg.
    eexists; split; [eassumption | cbn [effect]; reflexivity].
  - unfold cmd_wipe. do 4 next_arg.
    eexists; split; [eassumption | cbn [effect]; reflexivity].
  - unfold cmd_color. do 3 next_arg.
    eexists; split; [eassumption | cbn [effect]; reflexivity].
Qed.

(** *** The whole of [process_command] *)

Ltac eval_strcmp :=
  repeat match goal with
  | |- context [0 =? strcmp ?a ?b] =>
      let v := eval vm_compute in (0 =? strcmp a b) in
      change (0 =? strcmp a b) with v
  end.

(** [process_command] on a line that starts with the keyword of [c] is
    the branch of [c], followed, unless the branch returns, by the write
    that sets the builtin LED high and by the status 0. *)
Lemma process_command_branch c command st args :
  fragments command = keyword c :: args ->
  exists last,
    pending last = args
    /\ process_command command st
       = bind (branch c) (fun _ =>
           bind (digitalWrite LED_BUILTIN HIGH) (fun _ =>
             Serial_println_int 0)) (entered last st).
Proof.
  intros Hf. unfold process_command. cbv zeta.
  cbn [bind digitalWrite modify].
  match goal with
  | |- context [bind (strtok (Some ?s) SP) ?k ?st1] =>
      destruct (strtok_first_run s k st1) as (last & Hl & Heq)
  end.
  exists last. unfold fragments in Hf. rewrite Hf in Hl, Heq.
  split; [exact Hl|].
  rewrite Heq. cbn [head]. unfold entered.
  change (LED_BUILTIN =? LED_BUILTIN) with true. cbv iota.
  clear Heq.
  destruct c; cbn [keyword branch strcmp_ptr]; unfold bind, ret; cbv beta;
    eval_strcmp; cbv iota beta;
    match goal with
    | |- context [?b ?s] =>
        first [constr_eq b cmd_blink | constr_eq b cmd_wipe
              | constr_eq b cmd_color];
        destruct (b s); reflexivity
    end.
Qed.


Lemma run_bind_abort {A} (m : stmt A) (k : A -> stmt unit) st f :
  m st = Abort f -> run (bind m k) st = Undefined f.
Proof. intros H. unfold run, call, bind. rewrite H. reflexivity. Qed.

Lemma run_bind_next {A} (m : stmt A) (k : A -> stmt unit) st a st' :
  m st = Next a st' -> run (bind m k) st = run (k a) st'.
Proof. intros H. unfold run, call, bind. rewrite H. reflexivity. Qed.

Lemma run_eq (s1 s2 : stmt unit) st1 st2 :
  s1 st1 = s2 st2 -> run s1 st1 = run s2 st2.
Proof. intros H. unfold run, call. rewrite H. reflexivity. Qed.

(** The tokens run out before the arguments do: [atoi] is handed the
    null pointer. *)
Lemma process_command_missing c command st args :
  fragments command = keyword c :: args ->
  parse_args (signature c) args = Missing ->
  run (process_command command) st = Undefined NullPointer.
Proof.
  intros Hf Hp.
  destruct (process_command_branch c command st args Hf) as (last & Hl & Heq).
  rewrite (run_eq _ _ _ _ Heq).
  pose proof (branch_run c (entered last st)) as Hb.
  change (strtok_last (entered last st)) with last in Hb.
  rewrite Hl, Hp in Hb.
  apply run_bind_abort. exact Hb.
Qed.


(** Every argument passes: the effect is carried out on the values
    read. *)
Lemma process_command_parsed c command st args vs rest :
  fragments command = keyword c :: args ->
  parse_args (signature c) args = Parsed vs rest ->
  exists last,
    pending last = rest
    /\ run (process_command command) st
       = run (bind (effect c vs) (fun _ =>
                bind (digitalWrite LED_BUILTIN HIGH) (fun _ =>
                  Serial_println_int 0))) (entered last st).
Proof.
  intros Hf Hp.
  destruct (process_command_branch c command st args Hf) as (last & Hl & Heq).
  rewrite (run_eq _ _ _ _ Heq).
  pose proof (branch_run c (entered last st)) as Hb.
  change (strtok_last (entered last st)) with last in Hb.
  rewrite Hl, Hp in Hb. destruct Hb as (last' & Hl' & Hb).
  exists last'. split; [exact Hl'|].
  apply run_eq. unfold bind at 1 3. rewrite Hb. reflexivity.
Qed.

(** *** Reading arguments *)

Lemma parse_args_passes sig : forall ts rest,
  Forall2 passes sig ts ->
  parse_args sig (ts ++ rest) = Parsed (map atoi_str ts) rest.
Proof.
  induction sig as [|bad sig IH]; intros ts rest H; inversion H; subst.
  - reflexivity.
  - cbn. unfold passes in *.
    match goal with E : bad _ = false |- _ => rewrite E end.
    rewrite IH by assumption. reflexivity.
Qed.

Lemma parse_args_short sig : forall args,
  (length args < length sig)%nat ->
  Forall2 passes (take (length args) sig) args ->
  parse_args sig args = Missing.
Proof.
  induction sig as [|bad sig IH]; intros args Hlen H.
  - cbn in Hlen. lia.
  - destruct args as [|t args]; [reflexivity|].
    cbn in Hlen, H. inversion H; subst. cbn. unfold passes in *.
    match goal with E : bad _ = false |- _ => rewrite E end.
    rewrite IH; [reflexivity | lia | assumption].
Qed.


(** *** Machine integers *)

Lemma wrap_range z : Int16.in_range (Int16.wrap z).
Proof.
  unfold Int16.in_range, Int16.wrap, Int16.min_int, Int16.max_int.
  pose proof (Z.mod_pos_bound (z + 32768) 65536). lia.
Qed.

Lemma wrap_small z : Int16.in_range z -> Int16.wrap z = z.
Proof.
  unfold Int16.in_range, Int16.wrap, Int16.min_int, Int16.max_int. intros H.
  rewrite Z.mod_small by lia. lia.
Qed.

Lemma atoi_str_range t : Int16.in_range (atoi_str t).
Proof.
  unfold atoi_str.
  destruct (skip_spaces t) as [|c s]; [apply wrap_range|].
  destruct c as [[] [] [] [] [] [] [] []]; apply wrap_range.
Qed.

Lemma bad_count_false v : bad_count v = false <-> 0 <= v.
Proof. unfold bad_count. rewrite Z.gtb_ltb, Z.ltb_ge. reflexivity. Qed.

Lemma bad_channel_false v : bad_channel v = false <-> 0 <= v <= 255.
Proof.
  unfold bad_channel. rewrite orb_false_iff, Z.gtb_ltb, !Z.ltb_ge. reflexivity.
Qed.

(** Twice a repeat count is zero for the count zero only. *)
Lemma mul2_zero n :
  0 <= n -> Int16.in_range n -> Int16.mul 2 n = 0 <-> n = 0.
Proof.
  unfold Int16.in_range, Int16.mul, Int16.wrap, Int16.min_int, Int16.max_int.
  intros H0 H. split; [|intros ->; reflexivity].
  intros E.
  destruct (Z_lt_dec (2 * n + 32768) 65536) as [Hlt|Hge].
  - rewrite Z.mod_small in E by lia. lia.
  - assert (Hm : (2 * n + 32768) mod 65536 = 2 * n + 32768 - 65536).
    { symmetry. apply (Z.mod_unique _ _ 1); lia. }
    lia.
Qed.

(** Up to 16383 repeats the half-cycle is the quotient of the duration
    by twice the count. *)
Lemma blink_wait_exact d n :
  0 <= d -> Int16.in_range d -> 1 <= n <= 16383 ->
  blink_wait d n = d / (2 * n).
Proof.
  unfold Int16.in_range, Int16.min_int, Int16.max_int. intros Hd Hr Hn.
  unfold blink_wait, Int16.mul.
  rewrite (wrap_small (2 * n))
    by (unfold Int16.in_range, Int16.min_int, Int16.max_int; lia).
  rewrite Z.quot_div_nonneg by lia.
  assert (0 <= d / (2 * n) <= d).
  { split; [apply Z.div_pos; lia|].
    apply Z.div_le_upper_bound; nia. }
  rewrite wrap_small
    by (unfold Int16.in_range, Int16.min_int, Int16.max_int; lia).
  unfold to_ulong. apply Z.mod_small. lia.
Qed.

(** *** Commands that are carried out *)

Lemma effect_run c vs st :
  strip_ok st ->
  length vs = length (signature c) ->
  (c = Blink -> forall n, last vs = Some n -> Int16.mul 2 n <> 0) ->
  effect c vs st
  = Next tt (finished (effect_pixels c vs)
               (effect_events c vs (pixels (strip st))) st).
Proof.
  intros Hok Hlen Hn.
  destruct c; cbn in Hlen;
    repeat (destruct vs as [|? vs]; [discriminate Hlen|]);
    destruct vs; try discriminate Hlen;
    cbn [effect effect_pixels effect_events].
  - apply blink_effect_run; [exact Hok|]. apply Hn; reflexivity.
  - apply wipe_effect_run. exact Hok.
  - apply color_effect_run. exact Hok.
Qed.

Lemma Forall2_passes_last sig ts n :
  Forall2 passes sig ts -> last ts = Some n ->
  exists bad, last sig = Some bad /\ passes bad n.
Proof.
  intros H. induction H as [|bad t sig ts Hp H IH]; [discriminate|].
  destruct H as [|bad' t' sig' ts' Hp' H'].
  - cbn. intros [= <-]. exists bad. split; [reflexivity | exact Hp].
  - intros Hl. apply IH. exact Hl.
Qed.

Lemma last_map {A B} (f : A -> B) (l : list A) :
  last (map f l) = option_map f (last l).
Proof.
  induction l as [|a l IH]; [reflexivity|].
  destruct l as [|b l]; [reflexivity|]. exact IH.
Qed.

(** The end of [process_command]: the builtin LED high, then the
    status. *)
Lemma finish_run errno st :
  run (bind (digitalWrite LED_BUILTIN HIGH)
         (fun _ => Serial_println_int errno)) st
  = Done (emit (PrintlnInt errno)
            (emit (DigitalWrite LED_BUILTIN HIGH) (set_led_builtin HIGH st))).
Proof. reflexivity. Qed.

Lemma carried_out_intro px evs lst st :
  carried_out px evs st
    (emit (PrintlnInt 0)
       (emit (DigitalWrite LED_BUILTIN HIGH)
          (set_led_builtin HIGH (finished px evs (entered lst st))))).
Proof.
  unfold carried_out. cbn. rewrite <- !app_assoc.
  repeat split; reflexivity.
Qed.

Lemma process_command_carried_out c command st ts rest :
  strip_ok st ->
  fragments command = keyword c :: ts ++ rest ->
  Forall2 passes (signature c) ts ->
  (c = Blink -> forall n, last ts = Some n -> atoi_str n <> 0) ->
  exists st',
    run (process_command command) st = Done st'
    /\ carried_out (effect_pixels c (map atoi_str ts))
         (effect_events c (map atoi_str ts) (pixels (strip st))) st st'
    /\ pending (strtok_last st') = rest.
Proof.
  intros Hok Hf Hp Hn.
  destruct (process_command_parsed c command st _ _ _ Hf
              (parse_args_passes _ _ rest Hp)) as (lst & Hl & Heq).
  rewrite Heq. clear Heq.
  assert (He : effect c (map atoi_str ts) (entered lst st)
               = Next tt (finished (effect_pixels c (map atoi_str ts))
                            (effect_events c (map atoi_str ts)
                               (pixels (strip (entered lst st))))
                            (entered lst st))).
  { apply effect_run.
    - unfold strip_ok in *. exact Hok.
    - rewrite length_map. symmetry. eapply Forall2_length. exact Hp.
    - intros -> n Hlast. rewrite last_map in Hlast.
      destruct (last ts) as [t|] eqn:Et; [|discriminate].
      injection Hlast as <-.
      destruct (Forall2_passes_last _ _ _ Hp Et) as (bad & Hb & Hpass).
      injection Hb as <-.
      rewrite mul2_zero;
        [apply Hn; reflexivity
        | apply bad_count_false; exact Hpass
        | apply atoi_str_range]. }
  change (pixels (strip (entered lst st))) with (pixels (strip st)) in He.
  rewrite (run_bind_next _ _ _ _ _ He), finish_run.
  eexists. split; [reflexivity|]. split; [|exact Hl].
  apply carried_out_intro.
Qed.

(** ** The tokenizer, call after call *)

Lemma tail_drop {A} (l : list A) n : tail (drop n l) = drop (S n) l.
Proof.
  revert l. induction n as [|n IH]; intros [|a l]; cbn.
  - reflexivity.
  - rewrite drop_0. reflexivity.
  - reflexivity.
  - apply IH.
Qed.

(** Call number [n] of [strtok] returns token number [n] of the text,
    and [NULL] once the tokens have run out. *)
Lemma strtok_calls_tokens s n :
  fst (strtok_calls s n) = tokens SP s !! n
  /\ pending (snd (strtok_calls s n)) = drop (S n) (tokens SP s).
Proof.
  induction n as [|n [IH1 IH2]]; cbn [strtok_calls].
  - destruct (strtok_r_first s None) as [H1 H2].
    rewrite H1, H2. destruct (tokens SP s); split; reflexivity.
  - destruct (strtok_r_next (snd (strtok_calls s n))) as [H1 H2].
    rewrite H1, H2, IH2. split.
    + rewrite head_lookup, lookup_drop, Nat.add_0_r. reflexivity.
    + apply tail_drop.
Qed.

(** ** The pulse command and the pulse animation *)

(** [pulse] sets the flag and nothing else: the strip is not touched. *)
Lemma process_command_pulse command st rest :
  fragments command = "pulse"%string :: rest ->
  exists st',
    run (process_command command) st = Done st'
    /\ log st' = log st ++ [DigitalWrite LED_BUILTIN LOW; AssignIsPulsing true;
                            DigitalWrite LED_BUILTIN HIGH; PrintlnInt 0]
    /\ strip st' = strip st
    /\ is_pulsing st' = true
    /\ pulse_rising st' = pulse_rising st
    /\ led_builtin st' = HIGH.
Proof.
  intros Hf. unfold run, call, process_command. cbv zeta.
  cbn [bind digitalWrite modify].
  match goal with
  | |- context [bind (strtok (Some ?s) SP) ?k ?st1] =>
      destruct (strtok_first_run s k st1) as (lst & Hl & Heq)
  end.
  unfold fragments in Hf. rewrite Hf in Heq. rewrite Heq. clear Heq.
  cbn [head strcmp_ptr]. unfold bind, ret. cbv beta.
  eval_strcmp. cbv iota beta.
  eexists. split; [reflexivity|].
  cbn. rewrite <- !app_assoc. repeat split; reflexivity.
Qed.

(** One step of the animation, case by case. *)
Lemma pulse_step_run st :
  byte_range (brightness (strip st)) ->
  exists st',
    pulse_step st = Next tt st'
    /\ brightness (strip st')
       = (if clamps st
          then if pulse_rising st then MAX_PULSE_BRIGHTNESS
               else MIN_PULSE_BRIGHTNESS
          else if pulse_rising st
               then brightness (strip st) + PULSE_BRIGHTNESS_STEP
               else brightness (strip st) - PULSE_BRIGHTNESS_STEP)
    /\ pulse_rising st' = xorb (pulse_rising st) (clamps st)
    /\ pixels (strip st') = pixels (strip st)
    /\ is_pulsing st' = is_pulsing st
    /\ exists evs,
         log st' = log st ++ evs
         /\ shown evs = [brightness (strip st')].
Proof.
  unfold byte_range, clamps, MAX_PULSE_BRIGHTNESS, MIN_PULSE_BRIGHTNESS,
    PULSE_BRIGHTNESS_STEP.
  intros Hb. unfold pulse_step.
  cbn [bind strip_getBrightness gets].
  unfold Int16.add, Int16.sub, MAX_PULSE_BRIGHTNESS, MIN_PULSE_BRIGHTNESS,
    PULSE_BRIGHTNESS_STEP.
  rewrite !wrap_small
    by (unfold Int16.in_range, Int16.min_int, Int16.max_int; lia).
  rewrite Z.gtb_ltb.
  destruct (pulse_rising st) eqn:Er.
  - destruct (120 <? brightness (strip st) + 5) eqn:E.
    + eexists. split; [reflexivity|]. cbn. rewrite ?Er.
      repeat split; try reflexivity.
      eexists. split; [rewrite <- !app_assoc; reflexivity | reflexivity].
    + apply Z.ltb_ge in E.
      eexists. split; [reflexivity|]. cbn. rewrite ?Er.
      unfold to_uint8. rewrite Z.mod_small by lia.
      repeat split; try reflexivity.
      eexists. split; [rewrite <- !app_assoc; reflexivity | reflexivity].
  - destruct (brightness (strip st) - 5 <? 20) eqn:E.
    + eexists. split; [reflexivity|]. cbn. rewrite ?Er.
      repeat split; try reflexivity.
      eexists. split; [rewrite <- !app_assoc; reflexivity | reflexivity].
    + apply Z.ltb_ge in E.
      eexists. split; [reflexivity|]. cbn. rewrite ?Er.
      unfold to_uint8. rewrite Z.mod_small by lia.
      repeat split; try reflexivity.
      eexists. split; [rewrite <- !app_assoc; reflexivity | reflexivity].
Qed.

Lemma shown_app e1 e2 : shown (e1 ++ e2) = shown e1 ++ shown e2.
Proof. unfold shown. apply flat_map_app. Qed.

Lemma in_pulse_range_byte b : in_pulse_range b -> byte_range b.
Proof.
  unfold in_pulse_range, byte_range, MIN_PULSE_BRIGHTNESS,
    MAX_PULSE_BRIGHTNESS. lia.
Qed.

(** One step keeps the brightness between the two boundaries. *)
Lemma pulse_step_range st :
  in_pulse_range (brightness (strip st)) ->
  exists st',
    pulse_step st = Next tt st'
    /\ in_pulse_range (brightness (strip st'))
    /\ exists evs,
         log st' = log st ++ evs
         /\ shown evs = [brightness (strip st')].
Proof.
  intros Hr.
  destruct (pulse_step_run st (in_pulse_range_byte _ Hr))
    as (st' & Hs & Hb & _ & _ & _ & Hlog).
  exists st'. split; [exact Hs|]. split; [|exact Hlog].
  rewrite Hb. unfold clamps.
  unfold in_pulse_range, MIN_PULSE_BRIGHTNESS, MAX_PULSE_BRIGHTNESS,
    PULSE_BRIGHTNESS_STEP in *.
  destruct (pulse_rising st).
  - destruct (Z.ltb_spec 120 (brightness (strip st) + 5)); lia.
  - destruct (Z.ltb_spec (brightness (strip st) - 5) 20); lia.
Qed.

Lemma pulse_steps_range n : forall i st,
  in_pulse_range (brightness (strip st)) ->
  exists st',
    for_count n i (fun _ => pulse_step) st = Next tt st'
    /\ in_pulse_range (brightness (strip st'))
    /\ exists evs,
         log st' = log st ++ evs
         /\ Forall in_pulse_range (shown evs).
Proof.
  induction n as [|n IH]; intros i st Hr.
  - exists st. split; [reflexivity|]. split; [exact Hr|].
    exists []. split; [symmetry; apply app_nil_r | constructor].
  - destruct (pulse_step_range st Hr) as (st1 & Hs & Hr1 & evs1 & Hl1 & Hs1).
    destruct (IH (i + 1) st1 Hr1) as (st2 & Hs2 & Hr2 & evs2 & Hl2 & Hf2).
    exists st2. cbn [for_count]. unfold bind. rewrite Hs.
    split; [exact Hs2|]. split; [exact Hr2|].
    exists (evs1 ++ evs2). split.
    + rewrite Hl2, Hl1, app_assoc. reflexivity.
    + rewrite shown_app, Hs1. constructor; assumption.
Qed.

(** Falling from above, the brightness goes down step by step and every
    value on the way is shown. *)
Lemma pulse_steps_descend k : forall i st,
  pulse_rising st = false ->
  byte_range (brightness (strip st)) ->
  MIN_PULSE_BRIGHTNESS
    <= brightness (strip st) - PULSE_BRIGHTNESS_STEP * Z.of_nat k ->
  exists st',
    for_count k i (fun _ => pulse_step) st = Next tt st'
    /\ brightness (strip st')
       = brightness (strip st) - PULSE_BRIGHTNESS_STEP * Z.of_nat k
    /\ pulse_rising st' = false
    /\ pixels (strip st') = pixels (strip st)
    /\ exists evs,
         log st' = log st ++ evs
         /\ shown evs
            = map (fun j => brightness (strip st)
                            - PULSE_BRIGHTNESS_STEP * Z.of_nat j)
                (seq 1 k).
Proof.
  induction k as [|k IH]; intros i st Hf Hb Hk.
  - exists st. split; [reflexivity|]. split; [cbn; lia|].
    split; [exact Hf|]. split; [reflexivity|].
    exists []. split; [symmetry; apply app_nil_r | reflexivity].
  - destruct (pulse_step_run st Hb)
      as (st1 & Hs & Hb1 & Hr1 & Hp1 & _ & evs1 & Hl1 & Hs1).
    assert (Hc : clamps st = false).
    { unfold clamps. rewrite Hf. apply Z.ltb_ge.
      rewrite Nat2Z.inj_succ in Hk.
      unfold MIN_PULSE_BRIGHTNESS, PULSE_BRIGHTNESS_STEP in *. lia. }
    rewrite Hc, Hf in Hb1, Hr1. cbn in Hr1.
    assert (Hb1' : byte_range (brightness (strip st1))).
    { rewrite Nat2Z.inj_succ in Hk.
      unfold byte_range, MIN_PULSE_BRIGHTNESS, PULSE_BRIGHTNESS_STEP in *.
      lia. }
    destruct (IH (i + 1) st1 Hr1 Hb1')
      as (st2 & Hs2 & Hb2 & Hr2 & Hp2 & evs2 & Hl2 & Hsh2).
    { rewrite Hb1. rewrite Nat2Z.inj_succ in Hk.
      unfold PULSE_BRIGHTNESS_STEP in *. lia. }
    exists st2. cbn [for_count]. unfold bind. rewrite Hs.
    split; [exact Hs2|].
    split; [rewrite Hb2, Hb1, Nat2Z.inj_succ; unfold PULSE_BRIGHTNESS_STEP; lia|].
    split; [exact Hr2|]. split; [congruence|].
    exists (evs1 ++ evs2). split.
    + rewrite Hl2, Hl1, app_assoc. reflexivity.
    + rewrite shown_app, Hs1, Hsh2, Hb1. cbn [seq map app].
      f_equal.
      rewrite <- (seq_shift k 1), map_map. apply List.map_ext. intros j.
      rewrite Nat2Z.inj_succ. unfold PULSE_BRIGHTNESS_STEP. lia.
Qed.

(** ** The line buffer *)

Lemma memset_replicate (mem : list ascii) c n :
  (n <= length mem)%nat -> memset mem c n = replicate n c ++ drop n mem.
Proof.
  revert mem. induction n as [|n IH]; intros [|a mem] H; cbn in *;
    try reflexivity; try lia.
  rewrite IH by lia. reflexivity.
Qed.

Lemma serial_drain_app a b st st' :
  serial_drain a st = Next tt st' ->
  serial_drain (a ++ b) st = serial_drain b st'.
Proof.
  revert st. induction a as [|c a IH]; intros st H; cbn in *.
  - injection H as ->. reflexivity.
  - unfold bind in *. destruct (loop_switch c st) as [[] st1| |];
      try discriminate.
    apply IH. exact H.
Qed.

(** A data byte that leaves room in the buffer is appended to it. *)
Lemma loop_switch_data c st :
  data_byte c ->
  0 <= len_input_buffer_data st < MAX_INPUT_BUFFER_LEN - 1 ->
  loop_switch c st
  = Next tt (set_len_input_buffer_data (len_input_buffer_data st + 1)
               (set_input_buffer
                  (<[Z.to_nat (len_input_buffer_data st) := c]>
                     (input_buffer st)) st)).
Proof.
  unfold data_byte, MAX_INPUT_BUFFER_LEN. intros (H0 & H13 & H10) Hlen.
  unfold loop_switch. cbv zeta.
  destruct (Z.eqb_spec (byte_of c) 0); [contradiction|].
  destruct (Z.eqb_spec (byte_of c) 13); [contradiction|].
  destruct (Z.eqb_spec (byte_of c) 10); [contradiction|].
  cbn [orb bind gets modify len_input_buffer_data set_input_buffer
       set_len_input_buffer_data].
  unfold Int16.add. rewrite wrap_small
    by (unfold Int16.in_range, Int16.min_int, Int16.max_int; lia).
  unfold MAX_INPUT_BUFFER_LEN.
  destruct (Z.leb_spec 127 (len_input_buffer_data st + 1)); [lia|].
  reflexivity.
Qed.

(** The data byte that fills the buffer: the diagnostic, and the buffer
    is cleared. *)
Lemma loop_switch_overflow c st :
  data_byte c ->
  len_input_buffer_data st = MAX_INPUT_BUFFER_LEN - 1 ->
  loop_switch c st
  = Next tt (set_len_input_buffer_data 0
               (set_input_buffer
                  (memset (<[Z.to_nat (MAX_INPUT_BUFFER_LEN - 1) := c]>
                             (input_buffer st))
                     NUL (Z.to_nat MAX_INPUT_BUFFER_LEN))
                  (emit (PrintlnStr "Input too long") st))).
Proof.
  unfold data_byte. intros (H0 & H13 & H10) Hlen.
  unfold loop_switch. cbv zeta.
  destruct (Z.eqb_spec (byte_of c) 0); [contradiction|].
  destruct (Z.eqb_spec (byte_of c) 13); [contradiction|].
  destruct (Z.eqb_spec (byte_of c) 10); [contradiction|].
  cbn [orb bind gets modify len_input_buffer_data set_input_buffer
       set_len_input_buffer_data].
  rewrite Hlen. reflexivity.
Qed.

(** Data bytes that fit are buffered and nothing else happens. *)
Lemma serial_drain_data bs : forall st,
  Forall data_byte bs ->
  0 <= len_input_buffer_data st ->
  len_input_buffer_data st + Z.of_nat (length bs) <= MAX_INPUT_BUFFER_LEN - 1 ->
  exists st',
    serial_drain bs st = Next tt st'
    /\ len_input_buffer_data st'
       = len_input_buffer_data st + Z.of_nat (length bs)
    /\ same_devices st st'
    /\ length (input_buffer st') = length (input_buffer st)
    /\ drop (Z.to_nat MAX_INPUT_BUFFER_LEN) (input_buffer st')
       = drop (Z.to_nat MAX_INPUT_BUFFER_LEN) (input_buffer st).
Proof.
  induction bs as [|c bs IH]; intros st Hd H0 Hlen.
  - exists st. cbn. split; [reflexivity|]. split; [lia|].
    repeat split; reflexivity.
  - inversion Hd as [|? ? Hc Hd']; subst.
    cbn [length] in Hlen. rewrite Nat2Z.inj_succ in Hlen.
    unfold MAX_INPUT_BUFFER_LEN in *.
    pose proof (loop_switch_data c st Hc) as Hs.
    unfold MAX_INPUT_BUFFER_LEN in Hs. specialize (Hs ltac:(lia)).
    destruct (IH (set_len_input_buffer_data (len_input_buffer_data st + 1)
                    (set_input_buffer
                       (<[Z.to_nat (len_input_buffer_data st) := c]>
                          (input_buffer st)) st)) Hd')
      as (st' & Hs' & Hl' & Hsame & Hlb & Hdrop); [cbn; lia | cbn; lia |].
    exists st'. cbn [serial_drain]. unfold bind. rewrite Hs.
    split; [exact Hs'|].
    split; [rewrite Hl'; cbn [length]; rewrite Nat2Z.inj_succ; cbn; lia|].
    split; [exact Hsame|].
    split; [rewrite Hlb; cbn; apply length_insert|].
    rewrite Hdrop. cbn. apply drop_insert_lt. lia.
Qed.

(** From an empty buffer, 127 data bytes in a row bring the diagnostic
    and leave the buffer empty; no command is processed. *)
Lemma serial_drain_overflow bs st :
  buffer_ok st ->
  len_input_buffer_data st = 0 ->
  length bs = Z.to_nat MAX_INPUT_BUFFER_LEN ->
  Forall data_byte bs ->
  exists st',
    serial_drain bs st = Next tt st'
    /\ log st' = log st ++ [PrintlnStr "Input too long"]
    /\ len_input_buffer_data st' = 0
    /\ input_buffer st' = replicate (Z.to_nat (MAX_INPUT_BUFFER_LEN + 1)) NUL
    /\ strip st' = strip st
    /\ is_pulsing st' = is_pulsing st
    /\ pulse_rising st' = pulse_rising st
    /\ led_builtin st' = led_builtin st.
Proof.
  intros [Hlen Hdrop] H0 Hbs Hd.
  destruct bs as [|c front _] using rev_ind; [discriminate Hbs|].
  apply Forall_app in Hd. destruct Hd as [Hfront Hc].
  inversion Hc as [|? ? Hc' _]; subst. clear Hc.
  rewrite length_app in Hbs. cbn in Hbs.
  assert (Hfl : length front = 126%nat).
  { change (Z.to_nat MAX_INPUT_BUFFER_LEN) with 127%nat in Hbs. lia. }
  destruct (serial_drain_data front st Hfront)
    as (st1 & Hs1 & Hl1 & (Hstrip & Hip & Hpr & Hled & Hlog) & Hlb & Hdr);
    [lia | unfold MAX_INPUT_BUFFER_LEN; lia |].
  assert (Hs2 := loop_switch_overflow c st1 Hc').
  rewrite Hl1, H0, Hfl in Hs2. specialize (Hs2 eq_refl).
  eexists. split.
  { rewrite (serial_drain_app _ _ _ _ Hs1). cbn [serial_drain].
    unfold bind. rewrite Hs2. reflexivity. }
  cbn. rewrite Hlog, Hstrip, Hip, Hpr, Hled.
  repeat split; try reflexivity.
  rewrite memset_replicate
    by (rewrite length_insert, Hlb, Hlen; cbv; lia).
  change (Z.to_nat MAX_INPUT_BUFFER_LEN) with 127%nat in *.
  rewrite drop_insert_lt by (cbv; lia).
  rewrite Hdr, Hdrop. reflexivity.
Qed.

(** Null bytes are dropped on the way to the buffer. *)
Lemma serial_drain_buffered bs st :
  serial_drain bs st = serial_drain (buffered bs) st.
Proof.
  revert st. induction bs as [|c bs IH]; intros st; [reflexivity|].
  cbn [buffered List.filter serial_drain].
  destruct (Z.eqb_spec (byte_of c) 0) as [E|E]; cbn [negb].
  - unfold bind, loop_switch. rewrite E. cbn. apply IH.
  - cbn [serial_drain]. unfold bind.
    destruct (loop_switch c st); try reflexivity. apply IH.
Qed.

Lemma buffered_data bs : Forall not_terminator bs -> Forall data_byte (buffered bs).
Proof.
  intros H. induction H as [|c bs [H13 H10] H IH]; [constructor|].
  cbn [buffered List.filter].
  destruct (Z.eqb_spec (byte_of c) 0) as [E|E]; cbn [negb]; [exact IH|].
  constructor; [|exact IH]. repeat split; assumption.
Qed.

(** ** The state after [setup] *)

Lemma strip_ok_booted : strip_ok booted.
Proof. reflexivity. Qed.

Lemma buffer_ok_booted : buffer_ok booted.
Proof. split; reflexivity. Qed.

Lemma strip_ok_breathing : strip_ok breathing.
Proof. reflexivity. Qed.

(** ** Tokens that are not numbers *)

(** [atoi] returns 0 for a token in which it finds no number. *)
Lemma atoi_str_unparseable t : parses_as_number t = false -> atoi_str t = 0.
Proof.
  unfold parses_as_number, atoi_str.
  destruct (skip_spaces t) as [|c s]; [reflexivity|].
  destruct c as [[] [] [] [] [] [] [] []]; cbn [atoi_digits];
    try (intros ->; reflexivity);
    destruct s as [|d s]; try reflexivity; cbn [atoi_digits];
    try (intros ->; reflexivity); intros H; try discriminate H.
Qed.

(** Such a token passes the test of every argument. *)
Lemma unparseable_passes bad t :
  parses_as_number t = false ->
  bad = bad_channel \/ bad = bad_count ->
  passes bad t.
Proof.
  intros H Hb. unfold passes. rewrite (atoi_str_unparseable t H).
  destruct Hb as [-> | ->]; reflexivity.
Qed.

Lemma signature_tests c bad :
  In bad (signature c) -> bad = bad_channel \/ bad = bad_count.
Proof.
  destruct c; cbn; intros H;
    repeat (destruct H as [<- | H]; [auto|]); contradiction.
Qed.

Lemma Forall2_unparseable_passes sig ts :
  (forall bad, In bad sig -> bad = bad_channel \/ bad = bad_count) ->
  Forall2 (fun bad t => parses_as_number t = false \/ passes bad t) sig ts ->
  Forall2 passes sig ts.
Proof.
  intros Hin H. induction H as [|bad t sig ts Ht H IH]; constructor.
  - destruct Ht as [Ht | Ht]; [|exact Ht].
    apply unparseable_passes; [exact Ht|]. apply Hin. left. reflexivity.
  - apply IH. intros b Hb. apply Hin. right. exact Hb.
Qed.

(** ** What a command leaves alone *)

Section Keeps.

Variable R : firmware -> firmware -> Prop.
Hypothesis R_refl : forall st, R st st.
Hypothesis R_trans : forall a b c, R a b -> R b c -> R a c.

Lemma keeps_ret {A} (a : A) : keeps R (ret a).
Proof. intros st. apply R_refl. Qed.

Lemma keeps_return {A} : keeps R (@return_ A).
Proof. intros st. apply R_refl. Qed.

Lemma keeps_abort {A} f : keeps R (@abort A f).
Proof. intros st. exact I. Qed.

Lemma keeps_bind {A B} (m : stmt A) (k : A -> stmt B) :
  keeps R m -> (forall a, keeps R (k a)) -> keeps R (bind m k).
Proof.
  intros Hm Hk st. unfold bind. specialize (Hm st).
  destruct (m st) as [a st1 | st1 | f]; [|exact Hm | exact I].
  specialize (Hk a st1).
  destruct (k a st1) as [b st2 | st2 | f]; [| | exact I];
    eapply R_trans; eassumption.
Qed.

Lemma keeps_when c (body : stmt unit) : keeps R body -> keeps R (when c body).
Proof. intros H. destruct c; [exact H | apply keeps_ret]. Qed.

Lemma keeps_for_count n : forall i (body : Z -> stmt unit),
  (forall j, keeps R (body j)) -> keeps R (for_count n i body).
Proof.
  induction n as [|n IH]; intros i body H; cbn [for_count].
  - apply keeps_ret.
  - apply keeps_bind; [apply H | intros _; apply IH; exact H].
Qed.

Lemma keeps_for_lt lo hi (body : Z -> stmt unit) :
  (forall j, keeps R (body j)) -> keeps R (for_lt lo hi body).
Proof. apply keeps_for_count. Qed.

Lemma keeps_modify (f : firmware -> firmware) :
  (forall st, R st (f st)) -> keeps R (modify f).
Proof. intros H st. apply H. Qed.

Lemma keeps_call (body : stmt unit) : keeps R body -> keeps R (call body).
Proof.
  intros H st. unfold call. specialize (H st).
  destruct (body st); exact H.
Qed.

Lemma keeps_run (s : stmt unit) st :
  keeps R s ->
  match run s st with
  | Done st' => R st st'
  | Undefined _ => True
  end.
Proof.
  intros H. unfold run. specialize (keeps_call s H st).
  destruct (call s st); intros H'; exact H'.
Qed.

End Keeps.

Lemma untouched_refl st : untouched st st.
Proof. repeat split; reflexivity. Qed.

Lemma untouched_trans a b c : untouched a b -> untouched b c -> untouched a c.
Proof.
  unfold untouched. intros (H1 & H2 & H3 & H4) (H5 & H6 & H7 & H8).
  repeat split; congruence.
Qed.

Create HintDb keeps.

Lemma keeps_digitalWrite pin v : keeps untouched (digitalWrite pin v).
Proof.
  apply keeps_modify. intros st. destruct (pin =? LED_BUILTIN);
    repeat split; reflexivity.
Qed.

Lemma keeps_println_int n : keeps untouched (Serial_println_int n).
Proof. apply keeps_modify. intros st. repeat split; reflexivity. Qed.

Lemma keeps_delay ms : keeps untouched (delay ms).
Proof. apply keeps_modify. intros st. repeat split; reflexivity. Qed.

Lemma keeps_show : keeps untouched strip_show.
Proof. apply keeps_modify. intros st. repeat split; reflexivity. Qed.

Lemma keeps_setBrightness b : keeps untouched (strip_setBrightness b).
Proof. apply keeps_modify. intros st. repeat split; reflexivity. Qed.

Lemma keeps_setPixelColor n c : keeps untouched (strip_setPixelColor n c).
Proof.
  apply keeps_modify. intros st. repeat split; try reflexivity.
  cbn. apply length_insert.
Qed.

Lemma keeps_assign_is_pulsing b : keeps untouched (assign_is_pulsing b).
Proof. apply keeps_modify. intros st. repeat split; reflexivity. Qed.

Lemma keeps_strtok str delim : keeps untouched (strtok str delim).
Proof.
  intros st. unfold strtok.
  destruct (strtok_r str delim (strtok_last st)). repeat split; reflexivity.
Qed.

Lemma keeps_atoi p : keeps untouched (atoi p).
Proof. intros st. destruct p; [apply untouched_refl | exact I]. Qed.

Lemma keeps_strcmp_ptr a p : keeps untouched (strcmp_ptr a p).
Proof. intros st. destruct p; [apply untouched_refl | exact I]. Qed.

Lemma keeps_int_div a b : keeps untouched (int_div a b).
Proof.
  intros st. unfold int_div. destruct (Int16.div a b);
    [apply untouched_refl | exact I].
Qed.

#[local] Hint Resolve keeps_digitalWrite keeps_println_int keeps_delay
  keeps_show keeps_setBrightness keeps_setPixelColor keeps_assign_is_pulsing
  keeps_strtok keeps_atoi keeps_strcmp_ptr keeps_int_div : keeps.

(** The statements of [process_command] are taken apart down to the
    calls, each of which is in the hint database. *)
Ltac keeps_untouched :=
  repeat first
    [ apply (keeps_bind untouched untouched_trans); [|intros ?]
    | apply (keeps_when untouched untouched_refl)
    | apply (keeps_for_lt untouched untouched_refl untouched_trans); intros ?
    | apply (keeps_ret untouched untouched_refl)
    | apply (keeps_return untouched untouched_refl)
    | match goal with
      | |- keeps _ (if ?b then _ else _) => destruct b
      end
    | solve [auto with keeps] ].

Lemma keeps_blink_effect r g b d n : keeps untouched (blink_effect r g b d n).
Proof. unfold blink_effect. keeps_untouched. Qed.

Lemma keeps_wipe_effect r g b d : keeps untouched (wipe_effect r g b d).
Proof. unfold wipe_effect. keeps_untouched. Qed.

Lemma keeps_color_effect r g b : keeps untouched (color_effect r g b).
Proof. unfold color_effect. keeps_untouched. Qed.

#[local] Hint Resolve keeps_blink_effect keeps_wipe_effect
  keeps_color_effect : keeps.

Lemma keeps_cmd_blink : keeps untouched cmd_blink.
Proof. unfold cmd_blink. keeps_untouched. Qed.

Lemma keeps_cmd_wipe : keeps untouched cmd_wipe.
Proof. unfold cmd_wipe. keeps_untouched. Qed.

Lemma keeps_cmd_color : keeps untouched cmd_color.
Proof. unfold cmd_color. keeps_untouched. Qed.

Lemma keeps_cmd_pulse : keeps untouched cmd_pulse.
Proof. unfold cmd_pulse. keeps_untouched. Qed.

#[local] Hint Resolve keeps_cmd_blink keeps_cmd_wipe keeps_cmd_color
  keeps_cmd_pulse : keeps.

(** Whatever the line, and however [process_command] ends, the input
    buffer, its length, the direction of the pulse and the number of
    pixels are what they were. *)
Lemma process_command_untouched command :
  keeps untouched (process_command command).
Proof. unfold process_command. cbv zeta. keeps_untouched. Qed.

Lemma strip_ok_process_command command st :
  strip_ok st ->
  match run (process_command command) st with
  | Done st' => strip_ok st'
  | Undefined _ => True
  end.
Proof.
  intros H.
  pose proof (keeps_run untouched (process_command command) st
                (process_command_untouched command)) as Hk.
  destruct (run (process_command command) st) as [st'|]; [|exact I].
  destruct Hk as (_ & _ & _ & Hlen). unfold strip_ok in *. congruence.
Qed.

(** ** What [loop] keeps *)

Lemma memset_length mem c n : length (memset mem c n) = length mem.
Proof.
  revert mem. induction n as [|n IH]; intros [|a mem]; cbn; try reflexivity.
  rewrite IH. reflexivity.
Qed.

Lemma memset_drop mem c n m :
  (n <= m)%nat -> drop m (memset mem c n) = drop m mem.
Proof.
  revert mem m. induction n as [|n IH]; intros [|a mem] m H; cbn;
    try reflexivity.
  destruct m as [|m]; [lia|]. cbn. apply IH. lia.
Qed.

Lemma stays_ready_refl st : stays_ready st st.
Proof. intros H. exact H. Qed.

Lemma stays_ready_trans a b c :
  stays_ready a b -> stays_ready b c -> stays_ready a c.
Proof. unfold stays_ready. auto. Qed.

Lemma untouched_stays_ready st st' : untouched st st' -> stays_ready st st'.
Proof.
  intros (Hb & Hl & _ & Hp) (Hs & (Hlen & Hlast) & Hr).
  unfold ready, strip_ok, buffer_ok in *. rewrite Hb, Hl, Hp.
  repeat split; assumption || lia.
Qed.

Lemma keeps_ready_process_command command :
  keeps stays_ready (call (process_command command)).
Proof.
  intros st. pose proof (keeps_call untouched _
                           (process_command_untouched command) st) as H.
  destruct (call (process_command command) st); try exact I;
    apply untouched_stays_ready; exact H.
Qed.

Lemma keeps_ready_flush : keeps stays_ready (call flush_input_buffer).
Proof.
  intros st. cbn. intros (Hs & (Hlen & Hlast) & Hr).
  unfold ready, strip_ok, buffer_ok, MAX_INPUT_BUFFER_LEN in *. cbn.
  rewrite memset_length, memset_drop by lia.
  repeat split; assumption || lia.
Qed.

Lemma keeps_ready_loop_switch input : keeps stays_ready (loop_switch input).
Proof.
  unfold loop_switch. cbv zeta.
  destruct (byte_of input =? 0); [apply keeps_ret; apply stays_ready_refl|].
  destruct ((byte_of input =? 13) || (byte_of input =? 10)).
  - apply (keeps_bind _ stays_ready_trans);
      [intros st; apply stays_ready_refl | intros len].
    apply (keeps_when _ stays_ready_refl).
    apply (keeps_bind _ stays_ready_trans);
      [intros st; apply stays_ready_refl | intros command].
    apply (keeps_bind _ stays_ready_trans);
      [apply keeps_ready_process_command | intros _].
    apply keeps_ready_flush.
  - intros st. cbn [bind gets modify].
    cbn [len_input_buffer_data set_len_input_buffer_data set_input_buffer].
    unfold when.
    destruct (Z.leb_spec MAX_INPUT_BUFFER_LEN
                (Int16.add (len_input_buffer_data st) 1)) as [Hge|Hlt].
    + cbn. intros (Hs & (Hlen & Hlast) & Hr).
      unfold ready, strip_ok, buffer_ok, MAX_INPUT_BUFFER_LEN in *. cbn.
      unfold Int16.add in *. rewrite wrap_small in *
        by (unfold Int16.in_range, Int16.min_int, Int16.max_int; lia).
      rewrite memset_length, length_insert, memset_drop by lia.
      rewrite drop_insert_lt by lia.
      repeat split; assumption || lia.
    + cbn. intros (Hs & (Hlen & Hlast) & Hr).
      unfold ready, strip_ok, buffer_ok, MAX_INPUT_BUFFER_LEN in *. cbn.
      unfold Int16.add in *. rewrite wrap_small in *
        by (unfold Int16.in_range, Int16.min_int, Int16.max_int; lia).
      rewrite length_insert, drop_insert_lt by lia.
      repeat split; assumption || lia.
Qed.

Lemma keeps_ready_serial_drain rx : keeps stays_ready (serial_drain rx).
Proof.
  induction rx as [|input rx IH]; cbn [serial_drain].
  - apply keeps_ret. apply stays_ready_refl.
  - apply (keeps_bind _ stays_ready_trans);
      [apply keeps_ready_loop_switch | intros _; exact IH].
Qed.

Lemma keeps_ready_pulse_step : keeps stays_ready pulse_step.
Proof.
  intros st. unfold pulse_step. cbn [bind strip_getBrightness gets].
  destruct (pulse_rising st);
    match goal with
    | |- context [if ?b then _ else _] => destruct b
    end; cbn; intros H; exact H.
Qed.

(** [setup] leaves the firmware ready, and every turn of [loop] that
    ends leaves it so. *)
Lemma ready_booted : ready booted.
Proof.
  split; [reflexivity|]. split; [split; reflexivity|].
  vm_compute. split; discriminate.
Qed.

Lemma loop_keeps_ready rx st :
  ready st ->
  match run (loop rx) st with
  | Done st' => ready st'
  | Undefined _ => True
  end.
Proof.
  intros H.
  assert (Hk : keeps stays_ready (loop rx)).
  { unfold loop.
    apply (keeps_bind _ stays_ready_trans);
      [apply keeps_ready_serial_drain | intros _].
    apply (keeps_bind _ stays_ready_trans);
      [intros st0; apply stays_ready_refl | intros pulsing].
    apply (keeps_when _ stays_ready_refl). apply keeps_ready_pulse_step. }
  pose proof (keeps_run stays_ready (loop rx) st Hk) as Hr.
  destruct (run (loop rx) st); [apply Hr; exact H | exact I].
Qed.

(** * The claims of the specification *)

(** ** Arguments that are not numbers *)

(** C1, as the specification states it, does not hold: the line
    [color abc 0 0] has a token in which [atoi] finds no number where the
    red channel is expected, and it is carried out with status 0, the
    strip filled and shown, whereas the out-of-range [color 300 0 0] is
    turned down with status 1. *)
Lemma unparseable_color_is_carried_out :
  parses_as_number "abc" = false
  /\ fragments (line "color abc 0 0")
     = ["color"; "abc"; "0"; "0"]%string
  /\ (exists st',
        run (process_command (line "color abc 0 0")) booted = Done st'
        /\ log st' = log booted
                     ++ DigitalWrite LED_BUILTIN LOW :: color_events 0
                     ++ [DigitalWrite LED_BUILTIN HIGH; PrintlnInt 0])
  /\ ~ (exists st',
          run (process_command (line "color abc 0 0")) booted = Done st'
          /\ turned_down booted st')
  /\ (exists st',
        run (process_command (line "color 300 0 0")) booted = Done st'
        /\ turned_down booted st').
Proof.
  split; [vm_compute; reflexivity|]. split; [vm_compute; reflexivity|].
  split; [eexists; split; vm_compute; reflexivity|].
  split.
  - intros (st' & Hrun & Hdown).
    vm_compute in Hrun. injection Hrun as <-.
    destruct Hdown as (_ & _ & _ & _ & _ & Hled & _). discriminate Hled.
  - eexists. split; [vm_compute; reflexivity|].
    repeat split; vm_compute; reflexivity.
Qed.

(** C1, amended: a token in which [atoi] finds no number reads as 0 and
    passes the test of whatever argument it stands for.  A line whose
    arguments each either read as 0 in this way or pass their test is
    carried out on the values read and answered with status 0 (for
    [blink], when the repeat count read is not 0). *)
Theorem unparseable_argument_reads_as_zero
    (c : effect_command) (command : list ascii) (st : firmware)
    (ts rest : list string) :
  strip_ok st ->
  fragments command = keyword c :: ts ++ rest ->
  Forall2 (fun bad t => parses_as_number t = false \/ passes bad t)
    (signature c) ts ->
  (c = Blink -> forall n, last ts = Some n -> atoi_str n <> 0) ->
  Forall2 (fun bad t => parses_as_number t = false ->
                        atoi_str t = 0 /\ passes bad t)
    (signature c) ts
  /\ exists st',
       run (process_command command) st = Done st'
       /\ carried_out (effect_pixels c (map atoi_str ts))
            (effect_events c (map atoi_str ts) (pixels (strip st))) st st'.
Proof.
  intros Hok Hf Hargs Hn.
  assert (Hp : Forall2 passes (signature c) ts).
  { apply Forall2_unparseable_passes; [apply signature_tests | exact Hargs]. }
  split.
  { clear - Hp. induction Hp as [|bad t sig ts Ht Hp IH]; constructor.
    - intros Hu. split; [apply atoi_str_unparseable; exact Hu | exact Ht].
    - exact IH. }
  destruct (process_command_carried_out c command st ts rest Hok Hf Hp Hn)
    as (st' & Hrun & Hc & _).
  exists st'. split; assumption.
Qed.

(** The line [color abc 0 0] after [setup]: black, status 0. *)
Lemma unparseable_argument_reads_as_zero_witness :
  exists st',
    run (process_command (line "color abc 0 0")) booted = Done st'
    /\ carried_out (solid 0)
         (effect_events Color [0; 0; 0] (pixels (strip booted))) booted st'.
Proof.
  destruct (unparseable_argument_reads_as_zero Color
              (line "color abc 0 0") booted ["abc"; "0"; "0"]%string [])
    as [_ H].
  - vm_compute. reflexivity.
  - vm_compute. reflexivity.
  - constructor; [left; vm_compute; reflexivity|].
    constructor; [right; vm_compute; reflexivity|].
    constructor; [right; vm_compute; reflexivity|].
    constructor.
  - intros H. discriminate H.
  - exact H.
Defined.

(** ** Lines that are too long *)

(** C2, as the specification states it, does not hold: after 127 letters
    the diagnostic is written and the buffer cleared, and the rest of the
    same line, [pulse], is then processed as a line of its own: the
    interpreter runs, pulsing is switched on and status 0 is written. *)
Lemma overlong_line_tail_is_processed :
  exists st',
    run (serial_drain overlong_input) booted = Done st'
    /\ log st' = log booted
                 ++ [PrintlnStr "Input too long";
                     DigitalWrite LED_BUILTIN LOW; AssignIsPulsing true;
                     DigitalWrite LED_BUILTIN HIGH; PrintlnInt 0]
    /\ is_pulsing booted = false
    /\ is_pulsing st' = true.
Proof.
  eexists. split; [vm_compute; reflexivity|].
  repeat split; vm_compute; reflexivity.
Qed.

(** C2, amended: when a line that starts on an empty buffer reaches 127
    buffered bytes before any terminator, the firmware writes the
    over-length diagnostic and clears the buffer; these bytes reach no
    command, no status is written for them, and neither the strip, the
    flags nor the builtin LED change.  The bytes of the line that follow
    are read as the start of a new line. *)
Theorem overlong_line_is_cut
    (st : firmware) (bs rx : list ascii) :
  buffer_ok st ->
  len_input_buffer_data st = 0 ->
  Forall not_terminator bs ->
  length (buffered bs) = Z.to_nat MAX_INPUT_BUFFER_LEN ->
  exists st',
    serial_drain bs st = Next tt st'
    /\ log st' = log st ++ [PrintlnStr "Input too long"]
    /\ len_input_buffer_data st' = 0
    /\ input_buffer st' = replicate (Z.to_nat (MAX_INPUT_BUFFER_LEN + 1)) NUL
    /\ strip st' = strip st
    /\ is_pulsing st' = is_pulsing st
    /\ pulse_rising st' = pulse_rising st
    /\ led_builtin st' = led_builtin st
    /\ serial_drain (bs ++ rx) st = serial_drain rx st'.
Proof.
  intros Hbuf Hlen Hterm Hbs.
  destruct (serial_drain_overflow (buffered bs) st Hbuf Hlen Hbs
              (buffered_data bs Hterm))
    as (st' & Hrun & Hlog & Hl & Hb & Hs & Hp & Hr & Hled).
  rewrite <- serial_drain_buffered in Hrun.
  exists st'. repeat (split; [assumption|]).
  apply serial_drain_app. exact Hrun.
Qed.

(** 127 letters after [setup]: the diagnostic, and the text that follows
    is drained from an empty buffer. *)
Lemma overlong_line_is_cut_witness :
  exists st',
    serial_drain (replicate 127 "a"%char) booted = Next tt st'
    /\ log st' = log booted ++ [PrintlnStr "Input too long"]
    /\ serial_drain overlong_input booted
       = serial_drain (bytes "pulse" ++ ["010"%char]) st'.
Proof.
  destruct (overlong_line_is_cut booted (replicate 127 "a"%char)
              (bytes "pulse" ++ ["010"%char]))
    as (st' & Hrun & Hlog & _ & _ & _ & _ & _ & _ & Happ).
  - split; reflexivity.
  - reflexivity.
  - apply Forall_replicate. split; discriminate.
  - reflexivity.
  - exists st'. repeat split; assumption.
Defined.

(** ** Arguments that are turned down *)




(** ** Commands that are carried out *)

Lemma effect_events_start c vs px :
  length vs = length (signature c) ->
  exists evs,
    effect_events c vs px
    = [AssignIsPulsing false; SetBrightness DEFAULT_BRIGHTNESS] ++ evs.
Proof.
  intros Hlen.
  destruct c; cbn in Hlen;
    repeat (destruct vs as [|? vs]; [discriminate Hlen|]);
    destruct vs; try discriminate Hlen;
    cbn [effect_events];
    unfold blink_events, wipe_events, color_events;
    eexists; reflexivity.
Qed.

(** C4, as the specification states it, does not hold for [blink] with
    the repeat count 0: every argument of [blink 1 1 1 100 0] passes its
    test, and the division of line 127 comes before the assignment to
    the pulsing flag, so the pulsing that was on is not switched off by
    anything the C language defines. *)
Lemma blink_zero_repeats_leaves_pulsing_on :
  fragments (line "blink 1 1 1 100 0")
  = ["blink"; "1"; "1"; "1"; "100"; "0"]%string
  /\ Forall2 passes (signature Blink) ["1"; "1"; "1"; "100"; "0"]%string
  /\ is_pulsing breathing = true
  /\ run (process_command (line "blink 1 1 1 100 0")) breathing
     = Undefined DivisionByZero
  /\ ~ (exists st',
          run (process_command (line "blink 1 1 1 100 0")) breathing
          = Done st'
          /\ is_pulsing st' = false).
Proof.
  split; [vm_compute; reflexivity|].
  split; [repeat constructor|].
  split; [vm_compute; reflexivity|].
  split; [vm_compute; reflexivity|].
  intros (st' & Hrun & _). vm_compute in Hrun. discriminate Hrun.
Qed.

(** C4, amended: [blink] with a repeat count that is not 0, [wipe] and
    [color], given arguments that pass their tests, first set the
    pulsing flag to false and reset the brightness to the default, and
    only then touch the pixels; when the command is done pulsing is off
    and the brightness is the default. *)
Theorem effect_commands_switch_pulsing_off
    (c : effect_command) (command : list ascii) (st : firmware)
    (ts rest : list string) :
  strip_ok st ->
  fragments command = keyword c :: ts ++ rest ->
  Forall2 passes (signature c) ts ->
  (c = Blink -> forall n, last ts = Some n -> atoi_str n <> 0) ->
  exists st' evs,
    run (process_command command) st = Done st'
    /\ log st' = log st
                 ++ [DigitalWrite LED_BUILTIN LOW; AssignIsPulsing false;
                     SetBrightness DEFAULT_BRIGHTNESS]
                 ++ evs
    /\ is_pulsing st' = false
    /\ brightness (strip st') = DEFAULT_BRIGHTNESS.
Proof.
  intros Hok Hf Hp Hn.
  destruct (process_command_carried_out c command st ts rest Hok Hf Hp Hn)
    as (st' & Hrun & (_ & _ & Hstrip & Hip & _ & _ & Hlog) & _).
  destruct (effect_events_start c (map atoi_str ts) (pixels (strip st)))
    as (evs & Hev).
  { rewrite length_map. symmetry. eapply Forall2_length. exact Hp. }
  exists st', (evs ++ [DigitalWrite LED_BUILTIN HIGH; PrintlnInt 0]).
  split; [exact Hrun|].
  split; [rewrite Hlog, Hev; cbn [app]; reflexivity|].
  split; [exact Hip|]. rewrite Hstrip. reflexivity.
Qed.

(** [pulse] and then [color 10 10 10]: pulsing is off and the
    brightness, 123 after one step of the animation, is the default
    again. *)
Lemma effect_commands_switch_pulsing_off_witness :
  is_pulsing breathing = true
  /\ brightness (strip breathing) = 123
  /\ exists st',
       run (process_command (line "color 10 10 10")) breathing = Done st'
       /\ is_pulsing st' = false
       /\ brightness (strip st') = DEFAULT_BRIGHTNESS.
Proof.
  split; [reflexivity|]. split; [reflexivity|].
  destruct (effect_commands_switch_pulsing_off Color
              (line "color 10 10 10") breathing
              ["10"; "10"; "10"]%string [])
    as (st' & evs & Hrun & _ & Hp & Hb).
  - reflexivity.
  - vm_compute. reflexivity.
  - repeat constructor.
  - intros H. discriminate H.
  - exists st'. repeat split; assumption.
Defined.

(** ** Blink *)

Lemma in_blink_cycle_delay c w x :
  In (Delay x) (blink_cycle c w) -> x = w.
Proof.
  unfold blink_cycle, fill_events. rewrite !in_app_iff.
  intros [H | [H | [H | H]]].
  - apply in_map_iff in H. destruct H as (j & Hj & _). discriminate Hj.
  - cbn in H. destruct H as [H | [H | []]]; congruence.
  - apply in_map_iff in H. destruct H as (j & Hj & _). discriminate Hj.
  - cbn in H. destruct H as [H | [H | []]]; congruence.
Qed.

(** Every wait of a [blink] is the half-cycle, and with one repeat or
    more there is such a wait. *)
Lemma in_blink_events_delay c w n x :
  In (Delay x) (blink_events c w n) -> x = w.
Proof.
  unfold blink_events. rewrite !in_app_iff.
  intros [H | [H | [H | H]]].
  - cbn in H. destruct H as [H | [H | []]]; discriminate H.
  - apply in_concat in H. destruct H as (cy & Hcy & Hin).
    apply list_elem_of_In, elem_of_replicate in Hcy. destruct Hcy as [-> _].
    apply in_blink_cycle_delay in Hin. exact Hin.
  - unfold fill_events in H. apply in_map_iff in H.
    destruct H as (j & Hj & _). discriminate Hj.
  - cbn in H. destruct H as [H | []]. discriminate H.
Qed.

Lemma blink_events_delay c w n :
  (0 < n)%nat -> In (Delay w) (blink_events c w n).
Proof.
  intros Hn. destruct n as [|n]; [lia|].
  unfold blink_events. rewrite !in_app_iff. right. left.
  cbn [replicate concat]. rewrite in_app_iff. left.
  unfold blink_cycle. rewrite !in_app_iff. right. left.
  cbn. right. left. reflexivity.
Qed.

(** A [blink] that is carried out: [n] cycles, then black. *)
Lemma process_command_blink command st r g b d n rest :
  strip_ok st ->
  fragments command
  = "blink"%string :: r :: g :: b :: d :: n :: rest ->
  passes bad_channel r -> passes bad_channel g -> passes bad_channel b ->
  passes bad_count d ->
  1 <= atoi_str n ->
  exists st',
    run (process_command command) st = Done st'
    /\ carried_out (solid 0)
         (blink_events (strip_Color (atoi_str r) (atoi_str g) (atoi_str b))
            (blink_wait (atoi_str d) (atoi_str n)) (Z.to_nat (atoi_str n)))
         st st'.
Proof.
  intros Hok Hf Hr Hg Hb Hd Hn.
  destruct (process_command_carried_out Blink command st
              [r; g; b; d; n] rest Hok Hf)
    as (st' & Hrun & Hc & _).
  - repeat constructor; try assumption.
    unfold passes. apply bad_count_false. lia.
  - intros _ m [= <-]. lia.
  - exists st'. split; assumption.
Qed.

(** C6, as the specification states it, does not hold for every repeat
    count: [int] has 16 bits, so twice a count above 16383 wraps around.
    For [blink 255 0 0 1000 32767] the divisor is -2 and the quotient
    -500, which [delay] receives as 4294966796 milliseconds, whereas
    1000 / (2 * 32767) is 0. *)
Lemma blink_many_repeats_waits_long :
  fragments (line "blink 255 0 0 1000 32767")
  = ["blink"; "255"; "0"; "0"; "1000"; "32767"]%string
  /\ atoi_str "32767" = 32767
  /\ Int16.mul 2 32767 = -2
  /\ 1000 / (2 * 32767) = 0
  /\ exists st' evs,
       run (process_command (line "blink 255 0 0 1000 32767")) booted
       = Done st'
       /\ log st' = log booted ++ evs
       /\ In (Delay 4294966796) evs
       /\ ~ In (Delay (1000 / (2 * 32767))) evs.
Proof.
  split; [vm_compute; reflexivity|].
  split; [vm_compute; reflexivity|].
  split; [vm_compute; reflexivity|].
  split; [vm_compute; reflexivity|].
  assert (En : atoi_str "32767" = 32767) by (vm_compute; reflexivity).
  assert (Ew : blink_wait (atoi_str "1000") (atoi_str "32767") = 4294966796)
    by (vm_compute; reflexivity).
  destruct (process_command_blink (line "blink 255 0 0 1000 32767") booted
              "255" "0" "0" "1000" "32767" [])
    as (st' & Hrun & (_ & _ & _ & _ & _ & _ & Hlog)).
  - reflexivity.
  - vm_compute. reflexivity.
  - vm_compute. reflexivity.
  - vm_compute. reflexivity.
  - vm_compute. reflexivity.
  - vm_compute. reflexivity.
  - rewrite En. lia.
  - rewrite Ew in Hlog.
    eexists st', _. split; [exact Hrun|]. split; [exact Hlog|].
    split.
    + right. apply in_app_iff. left. apply blink_events_delay.
      rewrite En. lia.
    + change (1000 / (2 * 32767)) with 0.
      intros [H | H]; [discriminate H|].
      apply in_app_iff in H. destruct H as [H | H].
      * apply in_blink_events_delay in H. discriminate H.
      * cbn in H. destruct H as [H | [H | []]]; discriminate H.
Qed.

(** C6, amended: a [blink] with arguments that pass their tests and one
    repeat or more alternates the strip between black and the colour as
    many times as the repeat count says, each shown and held for the
    half-cycle the sketch computes; then the strip is black and shown,
    and status 0 is written.  Up to 16383 repeats the half-cycle is the
    duration divided by twice the count, the quotient truncated. *)
Theorem blink_alternates
    (command : list ascii) (st : firmware)
    (r g b d n : string) (rest : list string) :
  strip_ok st ->
  fragments command = "blink"%string :: r :: g :: b :: d :: n :: rest ->
  passes bad_channel r -> passes bad_channel g -> passes bad_channel b ->
  passes bad_count d ->
  1 <= atoi_str n ->
  exists st',
    run (process_command command) st = Done st'
    /\ log st'
       = log st
         ++ [DigitalWrite LED_BUILTIN LOW; AssignIsPulsing false;
             SetBrightness DEFAULT_BRIGHTNESS]
         ++ concat
              (replicate (Z.to_nat (atoi_str n))
                 (blink_cycle
                    (strip_Color (atoi_str r) (atoi_str g) (atoi_str b))
                    (blink_wait (atoi_str d) (atoi_str n))))
         ++ fill_events 0
         ++ [StripShow (solid 0) DEFAULT_BRIGHTNESS;
             DigitalWrite LED_BUILTIN HIGH; PrintlnInt 0]
    /\ pixels (strip st') = solid 0
    /\ (atoi_str n <= 16383 ->
        blink_wait (atoi_str d) (atoi_str n)
        = atoi_str d / (2 * atoi_str n)).
Proof.
  intros Hok Hf Hr Hg Hb Hd Hn.
  destruct (process_command_blink command st r g b d n rest
              Hok Hf Hr Hg Hb Hd Hn)
    as (st' & Hrun & (_ & _ & Hstrip & _ & _ & _ & Hlog)).
  exists st'. split; [exact Hrun|].
  split.
  { rewrite Hlog. unfold blink_events. cbn [app].
    rewrite <- !app_assoc. reflexivity. }
  split; [rewrite Hstrip; reflexivity|].
  intros Hmax. apply blink_wait_exact.
  - apply bad_count_false. exact Hd.
  - apply atoi_str_range.
  - lia.
Qed.

(** [blink 255 0 0 1000 2] after [setup]: two cycles of red with
    half-cycles of 250 milliseconds, then black and status 0. *)
Lemma blink_alternates_witness :
  exists st',
    run (process_command (line "blink 255 0 0 1000 2")) booted = Done st'
    /\ log st'
       = log booted
         ++ [DigitalWrite LED_BUILTIN LOW; AssignIsPulsing false;
             SetBrightness DEFAULT_BRIGHTNESS]
         ++ blink_cycle 16711680 250 ++ blink_cycle 16711680 250
         ++ fill_events 0
         ++ [StripShow (solid 0) DEFAULT_BRIGHTNESS;
             DigitalWrite LED_BUILTIN HIGH; PrintlnInt 0]
    /\ pixels (strip st') = solid 0.
Proof.
  destruct (blink_alternates (line "blink 255 0 0 1000 2") booted
              "255" "0" "0" "1000" "2" [])
    as (st' & Hrun & Hlog & Hpx & _).
  - reflexivity.
  - vm_compute. reflexivity.
  - vm_compute. reflexivity.
  - vm_compute. reflexivity.
  - vm_compute. reflexivity.
  - vm_compute. reflexivity.
  - vm_compute. discriminate.
  - exists st'. split; [exact Hrun|]. split; [|exact Hpx].
    rewrite Hlog. vm_compute. reflexivity.
Defined.

(** C7: a [blink] whose repeat count reads as 0 and whose other
    arguments pass their tests passes validation, the count included;
    the half-cycle is then the duration divided by twice the count with
    nothing in between, the divisor is 0, and the guarded division ends
    in its error branch. *)
Theorem blink_zero_repeats_divides_by_zero
    (command : list ascii) (st : firmware)
    (r g b d n : string) (rest : list string) :
  fragments command = "blink"%string :: r :: g :: b :: d :: n :: rest ->
  passes bad_channel r -> passes bad_channel g -> passes bad_channel b ->
  passes bad_count d ->
  atoi_str n = 0 ->
  passes bad_count n
  /\ parse_args (signature Blink) (r :: g :: b :: d :: n :: rest)
     = Parsed [atoi_str r; atoi_str g; atoi_str b; atoi_str d; 0] rest
  /\ Int16.mul 2 (atoi_str n) = 0
  /\ Int16.div (atoi_str d) (Int16.mul 2 (atoi_str n)) = None
  /\ run (process_command command) st = Undefined DivisionByZero.
Proof.
  intros Hf Hr Hg Hb Hd Hn.
  assert (Hpn : passes bad_count n) by (unfold passes; rewrite Hn; reflexivity).
  assert (Hp : parse_args (signature Blink) (r :: g :: b :: d :: n :: rest)
               = Parsed [atoi_str r; atoi_str g; atoi_str b; atoi_str d; 0]
                   rest).
  { rewrite <- Hn.
    apply (parse_args_passes (signature Blink) [r; g; b; d; n] rest).
    repeat constructor; assumption. }
  split; [exact Hpn|]. split; [exact Hp|].
  rewrite Hn. split; [reflexivity|]. split; [reflexivity|].
  destruct (process_command_parsed Blink command st _ _ _ Hf Hp)
    as (lst & _ & Heq).
  rewrite Heq. apply run_bind_abort. reflexivity.
Qed.

(** [blink 1 1 1 100 0] after [setup]. *)
Lemma blink_zero_repeats_divides_by_zero_witness :
  run (process_command (line "blink 1 1 1 100 0")) booted
  = Undefined DivisionByZero.
Proof.
  destruct (blink_zero_repeats_divides_by_zero (line "blink 1 1 1 100 0")
              booted "1" "1" "1" "100" "0" [])
    as (_ & _ & _ & _ & H).
  - vm_compute. reflexivity.
  - vm_compute. reflexivity.
  - vm_compute. reflexivity.
  - vm_compute. reflexivity.
  - vm_compute. reflexivity.
  - vm_compute. reflexivity.
  - exact H.
Defined.

(** ** The builtin LED *)

(** C8 fails on the code: on the line [color 300 0 0] the builtin LED
    goes low when processing begins, and the [return] of line 198 leaves
    [process_command] after the status 1 is written, without the write of
    line 230 that sets the LED high again.  The LED, high after [setup],
    is low when the status is written and stays low. *)
Theorem rejected_command_leaves_builtin_led_low :
  led_builtin booted = HIGH
  /\ exists st',
       run (process_command (line "color 300 0 0")) booted = Done st'
       /\ log st' = log booted ++ [DigitalWrite LED_BUILTIN LOW; PrintlnInt 1]
       /\ led_builtin st' = LOW.
Proof.
  split; [reflexivity|].
  eexists. split; [vm_compute; reflexivity|].
  split; vm_compute; reflexivity.
Qed.

(** ** Missing arguments *)

(** C9, as the specification states it, does not hold for every line
    with fewer tokens than the command has arguments: [blink 300] has one
    argument where [blink] takes five, and its first argument is turned
    down before [strtok] is called again, so no null token reaches
    [atoi]. *)
Lemma short_line_with_bad_argument_reads_no_null :
  fragments (line "blink 300") = ["blink"; "300"]%string
  /\ (length ["300"%string] < length (signature Blink))%nat
  /\ (exists st',
        run (process_command (line "blink 300")) booted = Done st'
        /\ log st' = log booted
                     ++ [DigitalWrite LED_BUILTIN LOW; PrintlnInt 1])
  /\ run (process_command (line "blink 300")) booted
     <> Undefined NullPointer.
Proof.
  split; [vm_compute; reflexivity|].
  split; [cbn; lia|].
  split; [eexists; split; vm_compute; reflexivity|].
  vm_compute. discriminate.
Qed.

(** C9, amended: when [blink], [wipe] or [color] is given fewer tokens
    than it has arguments and the tokens given pass their tests, every
    call of [strtok] after the last token returns the null pointer, and
    the parser hands the first of them to [atoi]: the line ends in the
    null-pointer branch. *)
Theorem missing_argument_reads_null
    (c : effect_command) (command : list ascii) (st : firmware)
    (args : list string) :
  fragments command = keyword c :: args ->
  (length args < length (signature c))%nat ->
  Forall2 passes (take (length args) (signature c)) args ->
  (forall n, (length args < n)%nat ->
             fst (strtok_calls (c_str command) n) = None)
  /\ parse_args (signature c) args = Missing
  /\ run (process_command command) st = Undefined NullPointer.
Proof.
  intros Hf Hlen Hp.
  split.
  { intros n Hn.
    destruct (strtok_calls_tokens (c_str command) n) as [H _].
    rewrite H. unfold fragments in Hf. rewrite Hf.
    apply lookup_ge_None. cbn [length]. lia. }
  pose proof (parse_args_short _ _ Hlen Hp) as Hm.
  split; [exact Hm|].
  apply (process_command_missing c command st args Hf Hm).
Qed.

(** The line [blink] alone after [setup]. *)
Lemma missing_argument_reads_null_witness :
  run (process_command (line "blink")) booted = Undefined NullPointer.
Proof.
  destruct (missing_argument_reads_null Blink (line "blink") booted [])
    as (_ & _ & H).
  - vm_compute. reflexivity.
  - cbn. lia.
  - constructor.
  - exact H.
Defined.

(** ** The pulse animation *)

(** C5: from a brightness between the two boundaries, with either
    direction, any number of steps of the animation keeps the brightness
    between the boundaries and shows no value outside them; and the step
    that follows reverses the direction exactly when it clamps: to the
    maximum, turning to falling, when it was rising, and to the minimum,
    turning to rising, when it was falling. *)
Theorem pulse_stays_between_boundaries (st : firmware) (n : nat) :
  in_pulse_range (brightness (strip st)) ->
  exists st' evs,
    pulse_steps n st = Next tt st'
    /\ log st' = log st ++ evs
    /\ Forall in_pulse_range (shown evs)
    /\ in_pulse_range (brightness (strip st'))
    /\ exists st'' evs',
         pulse_step st' = Next tt st''
         /\ log st'' = log st' ++ evs'
         /\ shown evs' = [brightness (strip st'')]
         /\ in_pulse_range (brightness (strip st''))
         /\ (pulse_rising st'' <> pulse_rising st' <-> clamps st' = true)
         /\ (clamps st' = true -> pulse_rising st' = true ->
             brightness (strip st'') = MAX_PULSE_BRIGHTNESS
             /\ pulse_rising st'' = false)
         /\ (clamps st' = true -> pulse_rising st' = false ->
             brightness (strip st'') = MIN_PULSE_BRIGHTNESS
             /\ pulse_rising st'' = true)
         /\ (clamps st' = false ->
             brightness (strip st'')
             = if pulse_rising st'
               then brightness (strip st') + PULSE_BRIGHTNESS_STEP
               else brightness (strip st') - PULSE_BRIGHTNESS_STEP).
Proof.
  intros Hr. unfold pulse_steps.
  destruct (pulse_steps_range n 0 st Hr)
    as (st' & Hrun & Hr' & evs & Hlog & Hshown).
  exists st', evs. repeat (split; [assumption|]).
  destruct (pulse_step_range st' Hr') as (st2 & Hs2 & Hr2 & evs2 & Hl2 & Hsh2).
  destruct (pulse_step_run st' (in_pulse_range_byte _ Hr'))
    as (st3 & Hs3 & Hb3 & Hd3 & _).
  rewrite Hs2 in Hs3. injection Hs3 as <-.
  exists st2, evs2. repeat (split; [assumption|]).
  split.
  { rewrite Hd3. destruct (pulse_rising st'), (clamps st'); cbn;
      split; congruence. }
  split.
  { intros Hc Hup. rewrite Hb3, Hd3, Hc, Hup. split; reflexivity. }
  split.
  { intros Hc Hdown. rewrite Hb3, Hd3, Hc, Hdown. split; reflexivity. }
  intros Hc. rewrite Hb3, Hc. reflexivity.
Qed.

(** Three steps from the brightness 118. *)
Lemma pulse_stays_between_boundaries_witness :
  brightness (strip settled) = 118
  /\ exists st' evs,
       pulse_steps 3 settled = Next tt st'
       /\ log st' = log settled ++ evs
       /\ Forall in_pulse_range (shown evs)
       /\ in_pulse_range (brightness (strip st')).
Proof.
  split; [reflexivity|].
  destruct (pulse_stays_between_boundaries settled 3)
    as (st' & evs & Hrun & Hlog & Hshown & Hr & _).
  - unfold in_pulse_range. vm_compute. split; discriminate.
  - exists st', evs. split; [exact Hrun|]. split; [exact Hlog|].
    split; [exact Hshown | exact Hr].
Defined.

(** C10: [pulse] sets the pulsing flag and leaves the strip, its
    brightness included, as it was.  When the brightness is above the
    maximum of the pulse and the direction is falling, each step of the
    animation takes the fixed step off the brightness and shows the
    result, with no clamp against the maximum, as long as the result is
    not below the minimum: the values shown are the brightness less one
    step, less two steps and so on, those above the maximum included. *)
Theorem pulse_starts_from_current_brightness
    (command : list ascii) (st : firmware) (rest : list string) :
  fragments command = "pulse"%string :: rest ->
  pulse_rising st = false ->
  MAX_PULSE_BRIGHTNESS < brightness (strip st) <= 255 ->
  exists st1,
    run (process_command command) st = Done st1
    /\ is_pulsing st1 = true
    /\ strip st1 = strip st
    /\ pulse_rising st1 = false
    /\ forall k : nat,
         MIN_PULSE_BRIGHTNESS
           <= brightness (strip st) - PULSE_BRIGHTNESS_STEP * Z.of_nat k ->
         exists st2 evs,
           pulse_steps k st1 = Next tt st2
           /\ log st2 = log st1 ++ evs
           /\ shown evs
              = map (fun j => brightness (strip st)
                              - PULSE_BRIGHTNESS_STEP * Z.of_nat j)
                  (seq 1 k)
           /\ brightness (strip st2)
              = brightness (strip st) - PULSE_BRIGHTNESS_STEP * Z.of_nat k
           /\ pulse_rising st2 = false.
Proof.
  intros Hf Hfall Hb.
  destruct (process_command_pulse command st rest Hf)
    as (st1 & Hrun & _ & Hstrip & Hip & Hpr & _).
  exists st1. split; [exact Hrun|]. split; [exact Hip|].
  split; [exact Hstrip|]. split; [congruence|].
  intros k Hk.
  destruct (pulse_steps_descend k 0 st1) as (st2 & Hs & Hb2 & Hr2 & _ & evs & Hl & Hsh).
  - congruence.
  - rewrite Hstrip. unfold byte_range, MAX_PULSE_BRIGHTNESS in *. lia.
  - rewrite Hstrip. exact Hk.
  - exists st2, evs. rewrite Hstrip in *.
    repeat (split; [assumption|]). assumption.
Qed.

(** [pulse] after [setup], where the brightness is the default 128: the
    first two steps show 123 and 118. *)
Lemma pulse_starts_from_current_brightness_witness :
  brightness (strip booted) = 128
  /\ exists st1 st2 evs,
       run (process_command (line "pulse")) booted = Done st1
       /\ pulse_steps 2 st1 = Next tt st2
       /\ log st2 = log st1 ++ evs
       /\ shown evs = [123; 118].
Proof.
  split; [reflexivity|].
  destruct (pulse_starts_from_current_brightness (line "pulse") booted [])
    as (st1 & Hrun & _ & _ & _ & Hsteps).
  - vm_compute. reflexivity.
  - reflexivity.
  - vm_compute. split; [reflexivity | discriminate].
  - destruct (Hsteps 2%nat) as (st2 & evs & Hs & Hl & Hsh & _).
    + vm_compute. discriminate.
    + exists st1, st2, evs. repeat split; assumption.
Defined.

(** * Further properties of the sketch *)

(** ** Strings *)

Lemma byte_of_inj c d : byte_of c = byte_of d -> c = d.
Proof.
  unfold byte_of. intros H. apply N2Z.inj in H.
  rewrite <- (ascii_N_embedding c), <- (ascii_N_embedding d), H.
  reflexivity.
Qed.

Lemma byte_of_nul c : byte_of c = 0 <-> c = NUL.
Proof.
  split; [|intros ->; reflexivity].
  intros H. apply byte_of_inj. rewrite H. reflexivity.
Qed.

Lemma nul_free_c_str mem : nul_free (c_str mem).
Proof.
  induction mem as [|c mem IH]; cbn; [exact I|].
  destruct (Ascii.eqb_spec c NUL) as [E|E]; cbn; [exact I|].
  split; assumption.
Qed.

Lemma nul_free_fields delim s :
  nul_free s -> Forall nul_free (fields delim s).
Proof.
  induction s as [|c s IH]; cbn; intros H.
  - repeat constructor.
  - destruct H as [Hc Hs]. specialize (IH Hs).
    destruct (is_delim delim c).
    + constructor; [exact I | exact IH].
    + destruct (fields delim s) as [|f fs]; [repeat constructor; assumption|].
      inversion IH; subst. constructor; [split; assumption | assumption].
Qed.

Lemma nul_free_tokens delim s :
  nul_free s -> Forall nul_free (tokens delim s).
Proof.
  intros H. unfold tokens.
  pose proof (nul_free_fields delim s H) as Hf.
  induction Hf as [|f fs Hn Hf IH]; cbn; [constructor|].
  destruct (nonempty f); [constructor|]; assumption.
Qed.

(** The tokens of a command line have no null byte in them. *)
Lemma nul_free_fragments command : Forall nul_free (fragments command).
Proof. apply nul_free_tokens, nul_free_c_str. Qed.

(** On C strings [strcmp] is 0 for equal strings only. *)
Lemma strcmp_zero a : forall b,
  nul_free a -> nul_free b -> strcmp a b = 0 -> a = b.
Proof.
  induction a as [|c a IH]; intros [|d b] Ha Hb H; cbn in *.
  - reflexivity.
  - destruct Hb as [Hd _]. exfalso. apply Hd, byte_of_nul. lia.
  - destruct Ha as [Hc _]. exfalso. apply Hc, byte_of_nul. lia.
  - destruct Ha as [_ Ha], Hb as [_ Hb].
    destruct (Ascii.eqb_spec c d) as [->|E].
    + f_equal. apply IH; assumption.
    + exfalso. apply E, byte_of_inj. lia.
Qed.

Lemma strcmp_differ a b :
  nul_free a -> nul_free b -> a <> b -> (0 =? strcmp a b) = false.
Proof.
  intros Ha Hb Hne. apply Z.eqb_neq. intros H. apply Hne.
  apply strcmp_zero; [assumption | assumption | lia].
Qed.

(** ** Lines that name no command *)

(** The start of [process_command] whatever the line: the builtin LED
    low, the first call of [strtok]. *)
Lemma process_command_first_token command st :
  exists lst,
    pending lst = tail (fragments command)
    /\ process_command command st
       = bind (bind (strcmp_ptr "blink" (head (fragments command)))
                 (fun c =>
                    if 0 =? c then bind cmd_blink (fun _ => ret 0) else
                    bind (strcmp_ptr "wipe" (head (fragments command)))
                      (fun c =>
                         if 0 =? c then bind cmd_wipe (fun _ => ret 0) else
                         bind (strcmp_ptr "color" (head (fragments command)))
                           (fun c =>
                              if 0 =? c
                              then bind cmd_color (fun _ => ret 0) else
                              bind (strcmp_ptr "pulse"
                                      (head (fragments command)))
                                (fun c =>
                                   if 0 =? c
                                   then bind cmd_pulse (fun _ => ret 0)
                                   else ret 1)))))
           (fun errno =>
              bind (digitalWrite LED_BUILTIN HIGH)
                (fun _ => Serial_println_int errno))
           (entered lst st).
Proof.
  unfold process_command. cbv zeta. cbn [bind digitalWrite modify].
  match goal with
  | |- context [bind (strtok (Some ?s) SP) ?k ?st1] =>
      destruct (strtok_first_run s k st1) as (lst & Hl & Heq)
  end.
  exists lst. split; [exact Hl|]. rewrite Heq. reflexivity.
Qed.

(** X1: a line whose first token is none of [blink], [wipe], [color]
    and [pulse] (the comparison tells upper case from lower case) is
    answered with status 1 after the builtin LED has gone low and high
    again; the strip, the flags and the length of the data are as they
    were. *)
Theorem unrecognized_command_is_answered_1
    (command : list ascii) (st : firmware)
    (name : string) (rest : list string) :
  fragments command = name :: rest ->
  unrecognized name ->
  exists st',
    run (process_command command) st = Done st'
    /\ log st' = log st
                 ++ [DigitalWrite LED_BUILTIN LOW;
                     DigitalWrite LED_BUILTIN HIGH; PrintlnInt 1]
    /\ strip st' = strip st
    /\ is_pulsing st' = is_pulsing st
    /\ pulse_rising st' = pulse_rising st
    /\ led_builtin st' = HIGH
    /\ len_input_buffer_data st' = len_input_buffer_data st.
Proof.
  intros Hf (Hb & Hw & Hc & Hp).
  assert (Hn : nul_free name).
  { pose proof (nul_free_fragments command) as H. rewrite Hf in H.
    inversion H; assumption. }
  destruct (process_command_first_token command st) as (lst & _ & Heq).
  unfold run, call. rewrite Heq, Hf. cbn [head strcmp_ptr].
  unfold bind at 1 2. unfold ret at 1.
  rewrite (strcmp_differ "blink" name) by (cbn; auto 10 || congruence).
  unfold bind at 1. unfold ret at 1.
  rewrite (strcmp_differ "wipe" name) by (cbn; auto 10 || congruence).
  unfold bind at 1. unfold ret at 1.
  rewrite (strcmp_differ "color" name) by (cbn; auto 10 || congruence).
  unfold bind at 1. unfold ret at 1.
  rewrite (strcmp_differ "pulse" name) by (cbn; auto 10 || congruence).
  eexists. split; [reflexivity|].
  cbn. rewrite <- !app_assoc. repeat split; reflexivity.
Qed.

(** [Blink 1 2 3], with a capital, after [setup]. *)
Lemma unrecognized_command_is_answered_1_witness :
  exists st',
    run (process_command (line "Blink 1 2 3")) booted = Done st'
    /\ log st' = log booted
                 ++ [DigitalWrite LED_BUILTIN LOW;
                     DigitalWrite LED_BUILTIN HIGH; PrintlnInt 1]
    /\ strip st' = strip booted.
Proof.
  destruct (unrecognized_command_is_answered_1 (line "Blink 1 2 3") booted
              "Blink" ["1"; "2"; "3"]%string)
    as (st' & Hrun & Hlog & Hs & _).
  - vm_compute. reflexivity.
  - repeat split; discriminate.
  - exists st'. repeat split; assumption.
Defined.

(** X2: a line with no token in it, that is a line of spaces, makes
    [strtok] return the null pointer at its first call, and this pointer
    is what [strcmp] is given: the line ends in the null-pointer
    branch. *)
Theorem line_of_spaces_compares_null
    (command : list ascii) (st : firmware) :
  fragments command = [] ->
  fst (strtok_calls (c_str command) 0) = None
  /\ run (process_command command) st = Undefined NullPointer.
Proof.
  intros Hf. split.
  - destruct (strtok_calls_tokens (c_str command) 0) as [H _].
    rewrite H. unfold fragments in Hf. rewrite Hf. reflexivity.
  - destruct (process_command_first_token command st) as (lst & _ & Heq).
    unfold run, call. rewrite Heq, Hf. reflexivity.
Qed.

(** A line of two spaces after [setup]. *)
Lemma line_of_spaces_compares_null_witness :
  run (process_command (line "  ")) booted = Undefined NullPointer.
Proof.
  destruct (line_of_spaces_compares_null (line "  ") booted) as [_ H].
  - vm_compute. reflexivity.
  - exact H.
Defined.

(** ** From the serial port to the interpreter *)

Lemma holding_length d :
  (length d <= 128)%nat -> length (holding d) = 128%nat.
Proof.
  intros H. unfold holding. rewrite length_app, length_replicate.
  change (Z.to_nat (MAX_INPUT_BUFFER_LEN + 1)) with 128%nat. lia.
Qed.

Lemma holding_cons_nul d :
  (length d < 128)%nat ->
  holding d = d ++ NUL :: replicate (127 - length d) NUL.
Proof.
  intros H. unfold holding.
  change (Z.to_nat (MAX_INPUT_BUFFER_LEN + 1)) with 128%nat.
  replace (128 - length d)%nat with (S (127 - length d)) by lia.
  reflexivity.
Qed.

Lemma holding_snoc d c :
  (length d < 128)%nat -> <[length d := c]> (holding d) = holding (d ++ [c]).
Proof.
  intros H. rewrite holding_cons_nul by exact H. unfold holding.
  change (Z.to_nat (MAX_INPUT_BUFFER_LEN + 1)) with 128%nat.
  rewrite insert_app_r_alt by lia. rewrite Nat.sub_diag.
  rewrite length_app. cbn [length].
  replace (128 - (length d + 1))%nat with (127 - length d)%nat by lia.
  cbn. rewrite <- app_assoc. reflexivity.
Qed.

Lemma holding_memset d :
  (length d <= 128)%nat -> memset (holding d) NUL (length d) = holding [].
Proof.
  intros H. rewrite memset_replicate by (rewrite holding_length; lia).
  unfold holding. rewrite drop_app_length. cbn [length app].
  change (Z.to_nat (MAX_INPUT_BUFFER_LEN + 1)) with 128%nat.
  rewrite <- replicate_add. f_equal. lia.
Qed.

(** The C string at the start of a memory is what precedes the first
    null byte. *)
Lemma c_str_app_nul d rest :
  Forall (fun c => c <> NUL) d ->
  c_str (d ++ NUL :: rest) = string_of_list_ascii d.
Proof.
  intros Hd. induction Hd as [|c d Hc Hd IH];
    cbn [app c_str string_of_list_ascii]; [reflexivity|].
  destruct (Ascii.eqb_spec c NUL) as [E|_]; [contradiction|].
  rewrite IH. reflexivity.
Qed.

Lemma c_str_holding d :
  Forall (fun c => c <> NUL) d ->
  (length d < 128)%nat ->
  c_str (holding d) = string_of_list_ascii d.
Proof.
  intros Hd Hlen. rewrite holding_cons_nul by exact Hlen.
  apply c_str_app_nul. exact Hd.
Qed.

Lemma data_byte_not_nul c : data_byte c -> c <> NUL.
Proof. intros [H _] ->. apply H. reflexivity. Qed.

Lemma loaded_loaded d d' st : loaded d' (loaded d st) = loaded d' st.
Proof. reflexivity. Qed.

Lemma loaded_self d st :
  input_buffer st = holding d ->
  len_input_buffer_data st = Z.of_nat (length d) ->
  loaded d st = st.
Proof. destruct st. cbn. intros -> ->. reflexivity. Qed.

(** Data bytes that fit are appended to the data in the buffer. *)
Lemma serial_drain_loaded bs : forall d st,
  Forall data_byte bs ->
  (length d + length bs <= 126)%nat ->
  serial_drain bs (loaded d st) = Next tt (loaded (d ++ bs) st).
Proof.
  induction bs as [|c bs IH]; intros d st Hd Hlen.
  - rewrite app_nil_r. reflexivity.
  - inversion Hd as [|? ? Hc Hd']; subst. cbn [length] in Hlen.
    cbn [serial_drain]. unfold bind.
    rewrite loop_switch_data;
      [|exact Hc | cbn; unfold MAX_INPUT_BUFFER_LEN; lia].
    cbn [loaded len_input_buffer_data input_buffer
         set_len_input_buffer_data set_input_buffer].
    rewrite Nat2Z.id, holding_snoc by lia.
    replace (Z.of_nat (length d) + 1) with (Z.of_nat (length (d ++ [c])))
      by (rewrite length_app; cbn [length]; lia).
    change (set_len_input_buffer_data (Z.of_nat (length (d ++ [c])))
              (set_input_buffer (holding (d ++ [c])) (loaded d st)))
      with (loaded (d ++ [c]) st).
    rewrite IH by (try rewrite length_app; cbn [length]; assumption || lia).
    rewrite <- app_assoc. reflexivity.
Qed.

(** A terminator after data in the buffer: the buffer goes to the
    interpreter as it is and is cleared afterwards. *)
Lemma loop_switch_terminator t d st :
  terminator t ->
  (1 <= length d <= 128)%nat ->
  loop_switch t (loaded d st)
  = match run (process_command (holding d)) (loaded d st) with
    | Done st' => Next tt (loaded [] st')
    | Undefined f => Abort f
    end.
Proof.
  intros Ht Hlen. unfold loop_switch. cbv zeta.
  assert (E0 : (byte_of t =? 0) = false) by (destruct Ht as [E|E]; rewrite E; reflexivity).
  assert (Et : (byte_of t =? 13) || (byte_of t =? 10) = true)
    by (destruct Ht as [E|E]; rewrite E; reflexivity).
  rewrite E0, Et.
  cbn [bind gets loaded len_input_buffer_data set_len_input_buffer_data
       set_input_buffer input_buffer].
  destruct (Z.ltb_spec 0 (Z.of_nat (length d))) as [_|]; [|lia].
  unfold when, run.
  pose proof (keeps_call untouched _ (process_command_untouched (holding d))
                (loaded d st)) as Hk.
  fold (loaded d st).
  unfold bind at 1. cbn [gets].
  change (input_buffer (loaded d st)) with (holding d).
  unfold bind at 1.
  destruct (call (process_command (holding d)) (loaded d st))
    as [[] st'|st'|f] eqn:E.
  - destruct Hk as (Hb & Hl & _). cbn in Hb, Hl.
    cbn [call flush_input_buffer bind modify]. rewrite Hb, Hl, Nat2Z.id.
    rewrite holding_memset by lia. reflexivity.
  - unfold call in E. destruct (process_command (holding d) (loaded d st));
      discriminate E.
  - reflexivity.
Qed.

(** X3: when the buffer holds the start [d] of a line, the data bytes
    [bs] that follow and the terminator after them hand the interpreter
    the buffer with exactly the bytes [d ++ bs] as its C string, the
    length of the data being their number; when the interpreter is done
    the buffer is all null bytes again and the length 0, and whatever
    else the interpreter left is kept.  Where the interpreter takes an
    undefined branch, so does the loop. *)
Theorem received_line_reaches_interpreter
    (st : firmware) (d bs : list ascii) (t : ascii) :
  input_buffer st = holding d ->
  len_input_buffer_data st = Z.of_nat (length d) ->
  Forall data_byte (d ++ bs) ->
  (1 <= length (d ++ bs) <= Z.to_nat (MAX_INPUT_BUFFER_LEN - 1))%nat ->
  terminator t ->
  c_str (holding (d ++ bs)) = string_of_list_ascii (d ++ bs)
  /\ match run (process_command (holding (d ++ bs))) (loaded (d ++ bs) st) with
     | Done st' => serial_drain (bs ++ [t]) st = Next tt (loaded [] st')
     | Undefined f => serial_drain (bs ++ [t]) st = Abort f
     end.
Proof.
  change (Z.to_nat (MAX_INPUT_BUFFER_LEN - 1)) with 126%nat.
  intros Hb Hl Hd Hlen Ht. rewrite length_app in Hlen.
  split.
  { apply c_str_holding; [|rewrite length_app; lia].
    eapply Forall_impl; [exact Hd|]. intros c. apply data_byte_not_nul. }
  apply Forall_app in Hd. destruct Hd as [_ Hbs].
  replace (serial_drain (bs ++ [t]) st)
    with (serial_drain (bs ++ [t]) (loaded d st))
    by (rewrite (loaded_self d st Hb Hl); reflexivity).
  rewrite (serial_drain_app bs [t] _ _
             (serial_drain_loaded bs d st Hbs ltac:(lia))).
  cbn [serial_drain]. unfold bind.
  rewrite loop_switch_terminator by (try rewrite length_app; assumption || lia).
  destruct (run (process_command (holding (d ++ bs))) (loaded (d ++ bs) st));
    reflexivity.
Qed.

(** The line [pulse] and a line feed on the empty buffer [setup]
    leaves. *)
Lemma received_line_reaches_interpreter_witness :
  c_str (holding (bytes "pulse")) = "pulse"%string
  /\ exists st',
       run (process_command (holding (bytes "pulse")))
         (loaded (bytes "pulse") booted) = Done st'
       /\ serial_drain (bytes "pulse" ++ ["010"%char]) booted
          = Next tt (loaded [] st').
Proof.
  destruct (received_line_reaches_interpreter booted [] (bytes "pulse")
              "010"%char) as [Hs Hr].
  - reflexivity.
  - reflexivity.
  - repeat constructor; discriminate.
  - vm_compute. lia.
  - right. reflexivity.
  - split; [exact Hs|].
    cbn [app] in Hr.
    destruct (run (process_command (holding (bytes "pulse")))
                (loaded (bytes "pulse") booted)) as [st'|f] eqn:E.
    + exists st'. split; [reflexivity | exact Hr].
    + vm_compute in E. discriminate E.
Defined.

(** ** Bytes that reach no line *)

Lemma loop_switch_blank c st :
  blank c -> len_input_buffer_data st = 0 -> loop_switch c st = Next tt st.
Proof.
  intros Hc Hl. unfold loop_switch. cbv zeta.
  destruct Hc as [E | [E | E]]; rewrite E; cbn [Z.eqb orb Pos.eqb];
    try reflexivity; cbn [bind gets]; rewrite Hl; reflexivity.
Qed.

(** X4: while the buffer is empty, line terminators and null bytes do
    nothing at all: an empty line, or the line feed that follows the
    carriage return of a line just processed, reaches no command and
    draws no answer, and the bytes after them are read from the same
    state. *)
Theorem blank_input_is_ignored
    (st : firmware) (bs rx : list ascii) :
  len_input_buffer_data st = 0 ->
  Forall blank bs ->
  serial_drain bs st = Next tt st
  /\ serial_drain (bs ++ rx) st = serial_drain rx st
  /\ run (loop (bs ++ rx)) st = run (loop rx) st.
Proof.
  intros Hl Hb.
  assert (H : serial_drain bs st = Next tt st).
  { induction Hb as [|c bs Hc Hb IH]; [reflexivity|].
    cbn [serial_drain]. unfold bind.
    rewrite (loop_switch_blank c st Hc Hl). exact IH. }
  split; [exact H|].
  pose proof (serial_drain_app bs rx st st H) as Happ.
  split; [exact Happ|].
  unfold run, call, loop. unfold bind at 1 3. rewrite Happ. reflexivity.
Qed.

(** A carriage return, a line feed and an empty line before the line
    [pulse], after [setup]. *)
Lemma blank_input_is_ignored_witness :
  run (loop (["013"; "010"; "010"]%char ++ bytes "pulse" ++ ["010"%char]))
    booted
  = run (loop (bytes "pulse" ++ ["010"%char])) booted.
Proof.
  destruct (blank_input_is_ignored booted ["013"; "010"; "010"]%char
              (bytes "pulse" ++ ["010"%char])) as (_ & _ & H).
  - reflexivity.
  - repeat (constructor;
            [right; first [left; reflexivity | right; reflexivity]|]).
    constructor.
  - exact H.
Defined.

(** X5: a null byte read from the port is dropped wherever it comes, in
    the middle of a line as well: a turn of [loop] does what it does on
    the same bytes with the null bytes taken out. *)
Theorem null_bytes_are_dropped (st : firmware) (rx : list ascii) :
  run (loop rx) st = run (loop (buffered rx)) st.
Proof.
  unfold run, call, loop. unfold bind at 1 3.
  rewrite (serial_drain_buffered rx st). reflexivity.
Qed.

(** ** What every command leaves alone *)

Lemma gentle_refl st : gentle st st.
Proof. split; [apply untouched_refl | auto]. Qed.

Lemma gentle_trans a b c : gentle a b -> gentle b c -> gentle a c.
Proof.
  intros [H1 H2] [H3 H4]. split; [eapply untouched_trans; eassumption | auto].
Qed.

Lemma to_uint8_byte_range b : byte_range (to_uint8 b).
Proof.
  unfold byte_range, to_uint8.
  pose proof (Z.mod_pos_bound b 256 ltac:(lia)). lia.
Qed.

Create HintDb gentle.

Lemma gentle_digitalWrite pin v : keeps gentle (digitalWrite pin v).
Proof.
  apply keeps_modify. intros st. split; [|cbn; destruct (pin =? LED_BUILTIN); auto].
  destruct (pin =? LED_BUILTIN); repeat split; reflexivity.
Qed.

Lemma gentle_println_int n : keeps gentle (Serial_println_int n).
Proof. apply keeps_modify. intros st. split; [repeat split; reflexivity | auto]. Qed.

Lemma gentle_delay ms : keeps gentle (delay ms).
Proof. apply keeps_modify. intros st. split; [repeat split; reflexivity | auto]. Qed.

Lemma gentle_show : keeps gentle strip_show.
Proof. apply keeps_modify. intros st. split; [repeat split; reflexivity | auto]. Qed.

Lemma gentle_setBrightness b : keeps gentle (strip_setBrightness b).
Proof.
  apply keeps_modify. intros st. split; [repeat split; reflexivity|].
  intros _. cbn. apply to_uint8_byte_range.
Qed.

Lemma gentle_setPixelColor n c : keeps gentle (strip_setPixelColor n c).
Proof.
  apply keeps_modify. intros st. split; [|auto].
  repeat split; try reflexivity. cbn. apply length_insert.
Qed.

Lemma gentle_assign_is_pulsing b : keeps gentle (assign_is_pulsing b).
Proof. apply keeps_modify. intros st. split; [repeat split; reflexivity | auto]. Qed.

Lemma gentle_strtok str delim : keeps gentle (strtok str delim).
Proof.
  intros st. unfold strtok.
  destruct (strtok_r str delim (strtok_last st)).
  split; [repeat split; reflexivity | auto].
Qed.

Lemma gentle_atoi p : keeps gentle (atoi p).
Proof. intros st. destruct p; [apply gentle_refl | exact I]. Qed.

Lemma gentle_strcmp_ptr a p : keeps gentle (strcmp_ptr a p).
Proof. intros st. destruct p; [apply gentle_refl | exact I]. Qed.

Lemma gentle_int_div a b : keeps gentle (int_div a b).
Proof.
  intros st. unfold int_div. destruct (Int16.div a b);
    [apply gentle_refl | exact I].
Qed.

#[local] Hint Resolve gentle_digitalWrite gentle_println_int gentle_delay
  gentle_show gentle_setBrightness gentle_setPixelColor
  gentle_assign_is_pulsing gentle_strtok gentle_atoi gentle_strcmp_ptr
  gentle_int_div : gentle.

Ltac keeps_gentle :=
  repeat first
    [ apply (keeps_bind gentle gentle_trans); [|intros ?]
    | apply (keeps_when gentle gentle_refl)
    | apply (keeps_for_lt gentle gentle_refl gentle_trans); intros ?
    | apply (keeps_ret gentle gentle_refl)
    | apply (keeps_return gentle gentle_refl)
    | match goal with
      | |- keeps _ (if ?b then _ else _) => destruct b
      end
    | solve [auto with gentle] ].

Lemma process_command_gentle command :
  keeps gentle (process_command command).
Proof.
  unfold process_command, cmd_blink, cmd_wipe, cmd_color, cmd_pulse,
    blink_effect, wipe_effect, color_effect.
  cbv zeta. keeps_gentle.
Qed.

(** X6: whatever the line, a call of [process_command] that ends has
    left the length of the data in the buffer and the direction of the
    pulse alone, has kept the number of pixels of the strip, and has
    left a brightness of one byte where it found one. *)
Theorem process_command_leaves_globals_alone
    (command : list ascii) (st : firmware) :
  match run (process_command command) st with
  | Done st' =>
      len_input_buffer_data st' = len_input_buffer_data st
      /\ pulse_rising st' = pulse_rising st
      /\ length (pixels (strip st')) = length (pixels (strip st))
      /\ (byte_range (brightness (strip st)) ->
          byte_range (brightness (strip st')))
  | Undefined _ => True
  end.
Proof.
  pose proof (keeps_run gentle (process_command command) st
                (process_command_gentle command)) as H.
  destruct (run (process_command command) st) as [st'|]; [|exact I].
  destruct H as [(_ & Hl & Hr & Hp) Hbr].
  split; [exact Hl|]. split; [exact Hr|].
  split; [exact Hp | exact Hbr].
Qed.

(** The line [blink 255 0 0 200 2] while the animation is under way:
    the command ends, and the direction of the pulse is kept. *)
Lemma process_command_leaves_globals_alone_witness :
  exists st',
    run (process_command (line "blink 255 0 0 200 2")) breathing = Done st'
    /\ pulse_rising st' = pulse_rising breathing
    /\ length (pixels (strip st')) = length (pixels (strip breathing)).
Proof.
  pose proof (process_command_leaves_globals_alone
                (line "blink 255 0 0 200 2") breathing) as H.
  destruct (run (process_command (line "blink 255 0 0 200 2")) breathing)
    as [st'|f] eqn:E.
  - exists st'. split; [reflexivity|]. destruct H as (_ & Hr & Hp & _).
    split; [exact Hr | exact Hp].
  - vm_compute in E. discriminate E.
Defined.

(** ** The state between two bytes of input *)

Lemma stays_tidy_refl st : stays_tidy st st.
Proof. intros H. exact H. Qed.

Lemma stays_tidy_trans a b c :
  stays_tidy a b -> stays_tidy b c -> stays_tidy a c.
Proof. unfold stays_tidy. auto. Qed.

Lemma gentle_stays_tidy st st' : gentle st st' -> stays_tidy st st'.
Proof.
  intros [(Hb & Hl & _ & Hp) Hbr] (Hs & Hr & data & Hd).
  unfold tidy, strip_ok in *. rewrite Hb, Hl, Hp.
  split; [exact Hs|]. split; [auto|]. exists data. exact Hd.
Qed.

Lemma tidy_process_command command :
  keeps stays_tidy (call (process_command command)).
Proof.
  intros st. pose proof (keeps_call gentle _
                           (process_command_gentle command) st) as H.
  destruct (call (process_command command) st); try exact I;
    apply gentle_stays_tidy; exact H.
Qed.

Lemma tidy_flush : keeps stays_tidy (call flush_input_buffer).
Proof.
  intros st. cbn. intros (Hs & Hr & data & Hb & Hl & Hlen & Hd).
  change (Z.to_nat (MAX_INPUT_BUFFER_LEN - 1)) with 126%nat in Hlen.
  split; [exact Hs|]. split; [exact Hr|]. exists []. cbn.
  rewrite Hb, Hl, Nat2Z.id, holding_memset by lia.
  repeat split; [lia | constructor].
Qed.

Lemma tidy_loop_switch input : keeps stays_tidy (loop_switch input).
Proof.
  unfold loop_switch. cbv zeta.
  destruct (Z.eqb_spec (byte_of input) 0) as [|Hn];
    [apply keeps_ret; apply stays_tidy_refl|].
  destruct ((byte_of input =? 13) || (byte_of input =? 10)).
  - apply (keeps_bind _ stays_tidy_trans);
      [intros st; apply stays_tidy_refl | intros len].
    apply (keeps_when _ stays_tidy_refl).
    apply (keeps_bind _ stays_tidy_trans);
      [intros st; apply stays_tidy_refl | intros command].
    apply (keeps_bind _ stays_tidy_trans);
      [apply tidy_process_command | intros _].
    apply tidy_flush.
  - intros st. cbn [bind gets modify].
    cbn [len_input_buffer_data set_len_input_buffer_data set_input_buffer].
    assert (Hin : input <> NUL).
    { intros ->. apply Hn. reflexivity. }
    assert (Ht : tidy st ->
                 exists data,
                   input_buffer st = holding data
                   /\ len_input_buffer_data st = Z.of_nat (length data)
                   /\ (length data <= 126)%nat
                   /\ Forall (fun c => c <> NUL) data
                   /\ Int16.add (len_input_buffer_data st) 1
                      = Z.of_nat (length (data ++ [input]))
                   /\ <[Z.to_nat (len_input_buffer_data st) := input]>
                        (input_buffer st)
                      = holding (data ++ [input])).
    { intros (_ & _ & data & Hb & Hl & Hlen & Hd).
      change (Z.to_nat (MAX_INPUT_BUFFER_LEN - 1)) with 126%nat in Hlen.
      exists data. repeat (split; [assumption|]).
      rewrite Hb, Hl, Nat2Z.id, holding_snoc by lia.
      split; [|reflexivity].
      unfold Int16.add. rewrite length_app. cbn [length].
      rewrite wrap_small
        by (unfold Int16.in_range, Int16.min_int, Int16.max_int; lia).
      lia. }
    unfold when.
    destruct (Z.leb_spec MAX_INPUT_BUFFER_LEN
                (Int16.add (len_input_buffer_data st) 1)) as [Hge|Hlt].
    + cbn. intros Htidy.
      destruct (Ht Htidy) as (data & Hb & Hl & Hlen & Hd & Ha & Hi).
      destruct Htidy as (Hs & Hr & _).
      split; [exact Hs|]. split; [exact Hr|]. exists []. cbn.
      rewrite Ha, Hi, Nat2Z.id.
      rewrite holding_memset by (rewrite length_app; cbn [length]; lia).
      repeat split; [lia | constructor].
    + cbn. intros Htidy.
      destruct (Ht Htidy) as (data & Hb & Hl & Hlen & Hd & Ha & Hi).
      destruct Htidy as (Hs & Hr & _).
      split; [exact Hs|]. split; [exact Hr|]. exists (data ++ [input]). cbn.
      unfold MAX_INPUT_BUFFER_LEN in Hlt. rewrite Ha in Hlt.
      split; [exact Hi|]. split; [exact Ha|].
      split; [change (Z.to_nat (MAX_INPUT_BUFFER_LEN - 1)) with 126%nat; lia|].
      apply Forall_app. split; [exact Hd | repeat constructor; exact Hin].
Qed.

Lemma tidy_serial_drain rx : keeps stays_tidy (serial_drain rx).
Proof.
  induction rx as [|input rx IH]; cbn [serial_drain].
  - apply keeps_ret. apply stays_tidy_refl.
  - apply (keeps_bind _ stays_tidy_trans);
      [apply tidy_loop_switch | intros _; exact IH].
Qed.

Lemma tidy_pulse_step : keeps stays_tidy pulse_step.
Proof.
  intros st. unfold pulse_step. cbn [bind strip_getBrightness gets].
  destruct (pulse_rising st);
    match goal with
    | |- context [if ?b then _ else _] => destruct b
    end; cbn; intros (Hs & _ & Hd);
    (split; [exact Hs|]); (split; [apply to_uint8_byte_range | exact Hd]).
Qed.

(** X7: [setup], run on globals as the C start-up code leaves them (the
    length of the data 0), ends with the buffer allocated and all null
    bytes, the fifteen pixels black and shown once at the default
    brightness, and the builtin LED high; the state it leaves is
    [tidy]. *)
Theorem setup_leaves_tidy (st : firmware) :
  len_input_buffer_data st = 0 ->
  exists st',
    run setup st = Done st'
    /\ tidy st'
    /\ input_buffer st' = holding []
    /\ pixels (strip st') = solid 0
    /\ brightness (strip st') = DEFAULT_BRIGHTNESS
    /\ led_builtin st' = HIGH
    /\ shown (skipn (length (log st)) (log st')) = [DEFAULT_BRIGHTNESS]
    /\ frames (skipn (length (log st)) (log st')) = [solid 0].
Proof.
  intros Hl. destruct st as [ib len [px br] ip pr led lst lg].
  cbn in Hl. subst len.
  eexists. split; [cbv -[app]; reflexivity|].
  split.
  { split; [reflexivity|]. split; [vm_compute; split; discriminate|].
    exists []. repeat split; [cbv; lia | constructor]. }
  split; [reflexivity|]. split; [reflexivity|]. split; [reflexivity|].
  split; [reflexivity|].
  cbn [log length].
  split.
  - match goal with
    | |- shown (skipn _ ?l) = _ =>
        let l' := eval cbv -[app] in l in change l with l'
    end.
    cbn [log]. rewrite <- ?app_assoc.
    rewrite skipn_app, skipn_all, Nat.sub_diag. reflexivity.
  - match goal with
    | |- frames (skipn _ ?l) = _ =>
        let l' := eval cbv -[app] in l in change l with l'
    end.
    rewrite <- ?app_assoc.
    rewrite skipn_app, skipn_all, Nat.sub_diag. reflexivity.
Qed.

(** The globals before [setup]. *)
Lemma setup_leaves_tidy_witness :
  exists st', run setup power_on = Done st' /\ tidy st'.
Proof.
  destruct (setup_leaves_tidy power_on) as (st' & Hrun & Ht & _).
  - reflexivity.
  - exists st'. split; assumption.
Defined.

(** X8: a turn of [loop] that ends leaves the state [tidy] when it finds
    it so, whatever bytes the port delivers: the buffer is its data, at
    most 126 bytes none of which is null, followed by null bytes up to
    its 128th byte, so that it is a C string whose length is the length
    recorded, and no byte past its end is written; the strip keeps its
    fifteen pixels and a brightness of one byte. *)
Theorem loop_keeps_tidy (rx : list ascii) (st : firmware) :
  tidy st ->
  match run (loop rx) st with
  | Done st' =>
      tidy st'
      /\ length (input_buffer st') = Z.to_nat (MAX_INPUT_BUFFER_LEN + 1)
      /\ String.length (c_str (input_buffer st'))
         = Z.to_nat (len_input_buffer_data st')
  | Undefined _ => True
  end.
Proof.
  intros H.
  assert (Hk : keeps stays_tidy (loop rx)).
  { unfold loop.
    apply (keeps_bind _ stays_tidy_trans);
      [apply tidy_serial_drain | intros _].
    apply (keeps_bind _ stays_tidy_trans);
      [intros st0; apply stays_tidy_refl | intros pulsing].
    apply (keeps_when _ stays_tidy_refl). apply tidy_pulse_step. }
  pose proof (keeps_run stays_tidy (loop rx) st Hk) as Hr.
  destruct (run (loop rx) st) as [st'|]; [|exact I].
  specialize (Hr H). split; [exact Hr|].
  destruct Hr as (_ & _ & data & Hb & Hl & Hlen & Hd).
  change (Z.to_nat (MAX_INPUT_BUFFER_LEN - 1)) with 126%nat in Hlen.
  rewrite Hb, Hl, Nat2Z.id. split.
  - apply holding_length. lia.
  - rewrite c_str_holding by (assumption || lia).
    clear. induction data as [|c data IH]; cbn; [reflexivity|].
    rewrite IH. reflexivity.
Qed.

Lemma tidy_booted : tidy booted.
Proof.
  split; [reflexivity|]. split; [vm_compute; split; discriminate|].
  exists []. repeat split; [cbv; lia | constructor].
Qed.

(** The line [color 1 2 3] received in the first turn after [setup]. *)
Lemma loop_keeps_tidy_witness :
  exists st',
    run (loop (bytes "color 1 2 3" ++ ["010"%char])) booted = Done st'
    /\ tidy st'.
Proof.
  pose proof (loop_keeps_tidy (bytes "color 1 2 3" ++ ["010"%char]) booted
                tidy_booted) as H.
  destruct (run (loop (bytes "color 1 2 3" ++ ["010"%char])) booted)
    as [st'|f] eqn:E.
  - exists st'. split; [reflexivity | apply H].
  - vm_compute in E. discriminate E.
Defined.

(** ** The course of the pulse animation *)

(** One step of the animation takes the direction and the brightness to
    what [pulse_next] says, and shows the brightness it sets. *)
Lemma pulse_step_next st :
  byte_range (brightness (strip st)) ->
  exists st',
    pulse_step st = Next tt st'
    /\ pulse_state st' = pulse_next (pulse_state st)
    /\ byte_range (brightness (strip st'))
    /\ pixels (strip st') = pixels (strip st)
    /\ is_pulsing st' = is_pulsing st
    /\ exists evs,
         log st' = log st ++ evs
         /\ shown evs = [snd (pulse_next (pulse_state st))].
Proof.
  intros Hb.
  destruct (pulse_step_run st Hb)
    as (st' & Hs & Hb' & Hr' & Hp & Hi & evs & Hl & Hsh).
  assert (E : pulse_state st' = pulse_next (pulse_state st)).
  { unfold pulse_state, pulse_next. rewrite Hb', Hr'. unfold clamps.
    destruct (pulse_rising st);
      match goal with
      | |- context [if ?c then _ else _] => destruct c
      end; reflexivity. }
  exists st'. split; [exact Hs|]. split; [exact E|].
  split.
  { rewrite Hb'. unfold byte_range, clamps, MAX_PULSE_BRIGHTNESS,
      MIN_PULSE_BRIGHTNESS, PULSE_BRIGHTNESS_STEP in *.
    destruct (pulse_rising st).
    - destruct (Z.ltb_spec 120 (brightness (strip st) + 5)); lia.
    - destruct (Z.ltb_spec (brightness (strip st) - 5) 20); lia. }
  split; [exact Hp|]. split; [exact Hi|].
  exists evs. split; [exact Hl|]. rewrite Hsh, <- E. reflexivity.
Qed.

Lemma iter_shift {A} (f : A -> A) n x :
  Nat.iter n f (f x) = Nat.iter (S n) f x.
Proof. symmetry. apply Nat.iter_succ_r. Qed.

(** Any number of steps: the states on the way are the iterates of
    [pulse_next], and each of them is shown. *)
Lemma pulse_steps_iter n : forall i st,
  byte_range (brightness (strip st)) ->
  exists st',
    for_count n i (fun _ => pulse_step) st = Next tt st'
    /\ pulse_state st' = Nat.iter n pulse_next (pulse_state st)
    /\ byte_range (brightness (strip st'))
    /\ pixels (strip st') = pixels (strip st)
    /\ is_pulsing st' = is_pulsing st
    /\ exists evs,
         log st' = log st ++ evs
         /\ shown evs
            = map (fun k => snd (Nat.iter k pulse_next (pulse_state st)))
                (seq 1 n).
Proof.
  induction n as [|n IH]; intros i st Hb.
  - exists st. split; [reflexivity|]. split; [reflexivity|].
    split; [exact Hb|]. split; [reflexivity|]. split; [reflexivity|].
    exists []. split; [symmetry; apply app_nil_r | reflexivity].
  - destruct (pulse_step_next st Hb)
      as (st1 & Hs & E1 & Hb1 & Hp1 & Hi1 & evs1 & Hl1 & Hsh1).
    destruct (IH (i + 1) st1 Hb1)
      as (st2 & Hs2 & E2 & Hb2 & Hp2 & Hi2 & evs2 & Hl2 & Hsh2).
    exists st2. cbn [for_count]. unfold bind. rewrite Hs.
    split; [exact Hs2|].
    split; [rewrite E2, E1; apply iter_shift|].
    split; [exact Hb2|]. split; [congruence|]. split; [congruence|].
    exists (evs1 ++ evs2). split.
    + rewrite Hl2, Hl1, app_assoc. reflexivity.
    + rewrite shown_app, Hsh1, Hsh2, E1. cbn [seq map app].
      f_equal.
      rewrite <- (seq_shift n 1), map_map. apply List.map_ext. intros k.
      rewrite iter_shift. reflexivity.
Qed.

Lemma for_count_add {n m} (body : Z -> stmt unit) : forall i st,
  for_count (n + m) i body st
  = bind (for_count n i body)
      (fun _ => for_count m (i + Z.of_nat n) body) st.
Proof.
  induction n as [|n IH]; intros i st.
  - cbn. rewrite Z.add_0_r. reflexivity.
  - cbn [Nat.add for_count]. unfold bind at 1 2 3.
    destruct (body i st) as [[] st1| |]; try reflexivity.
    rewrite IH. unfold bind.
    replace (i + 1 + Z.of_nat n) with (i + Z.of_nat (S n)) by lia.
    reflexivity.
Qed.

(** The brightness values of the pulse between the boundaries that are
    a whole number of steps above the minimum. *)
Lemma on_grid b :
  in_pulse_range b ->
  (b - MIN_PULSE_BRIGHTNESS) mod PULSE_BRIGHTNESS_STEP = 0 ->
  exists j, (j < 21)%nat /\ b = 20 + 5 * Z.of_nat j.
Proof.
  unfold in_pulse_range, MIN_PULSE_BRIGHTNESS, MAX_PULSE_BRIGHTNESS,
    PULSE_BRIGHTNESS_STEP.
  intros Hr Hm. exists (Z.to_nat ((b - 20) / 5)).
  pose proof (Z.div_mod (b - 20) 5 ltac:(lia)) as Hd. rewrite Hm in Hd.
  split; [|rewrite Z2Nat.id; lia].
  assert ((b - 20) / 5 < 21) by (apply Z.div_lt_upper_bound; lia).
  lia.
Qed.

Lemma grid_period :
  Forall (fun j =>
    Forall (fun r : bool =>
      Nat.iter 42 pulse_next (r, 20 + 5 * Z.of_nat j)
      = (r, 20 + 5 * Z.of_nat j)
      /\ Forall (fun k =>
           Nat.iter k pulse_next (r, 20 + 5 * Z.of_nat j)
           <> (r, 20 + 5 * Z.of_nat j)) (seq 1 41))
      [true; false]) (seq 0 21).
Proof. apply (bool_decide_unpack _). vm_compute. exact I. Qed.

Lemma bytes_settle :
  Forall (fun b =>
    Forall (fun r : bool =>
      in_pulse_range (snd (Nat.iter 27 pulse_next (r, b))))
      [true; false]) (seqZ 0 256).
Proof. apply (bool_decide_unpack _). vm_compute. exact I. Qed.

Lemma grid_levels :
  Forall (fun j =>
    Forall (fun r : bool =>
      Forall (fun i =>
        count_occ Z.eq_dec
          (map (fun k => snd (Nat.iter k pulse_next (r, 20 + 5 * Z.of_nat j)))
             (seq 1 42))
          (20 + 5 * Z.of_nat i) = 2%nat) (seq 0 21))
      [true; false]) (seq 0 21).
Proof. apply (bool_decide_unpack _). vm_compute. exact I. Qed.

(** X9: between the boundaries, on a brightness that is a whole number
    of steps above the minimum, the animation is periodic with period
    42: after 42 steps the direction and the brightness are what they
    were, after fewer they are not, and in these 42 steps each of the 21
    levels from the minimum to the maximum is shown exactly twice.  The
    pixels are not touched. *)
Theorem pulse_repeats_every_42_steps (st : firmware) :
  in_pulse_range (brightness (strip st)) ->
  (brightness (strip st) - MIN_PULSE_BRIGHTNESS) mod PULSE_BRIGHTNESS_STEP
  = 0 ->
  (exists st' evs,
     pulse_steps 42 st = Next tt st'
     /\ pulse_state st' = pulse_state st
     /\ pixels (strip st') = pixels (strip st)
     /\ log st' = log st ++ evs
     /\ forall level,
          in_pulse_range level ->
          (level - MIN_PULSE_BRIGHTNESS) mod PULSE_BRIGHTNESS_STEP = 0 ->
          count_occ Z.eq_dec (shown evs) level = 2%nat)
  /\ forall k, (0 < k < 42)%nat ->
       exists st',
         pulse_steps k st = Next tt st'
         /\ pulse_state st' <> pulse_state st.
Proof.
  intros Hr Hm.
  destruct (on_grid _ Hr Hm) as (j & Hj & Eb).
  assert (Es : pulse_state st = (pulse_rising st, 20 + 5 * Z.of_nat j)).
  { unfold pulse_state. rewrite Eb. reflexivity. }
  assert (Hin : j ∈ seq 0 21) by (apply elem_of_seq; lia).
  assert (Hrin : pulse_rising st ∈ [true; false])
    by (destruct (pulse_rising st); repeat constructor).
  pose proof (proj1 (Forall_forall _ _) grid_period j Hin) as Hp.
  pose proof (proj1 (Forall_forall _ _) Hp _ Hrin) as [H42 Hk]. clear Hp.
  pose proof (proj1 (Forall_forall _ _) grid_levels j Hin) as Hp.
  pose proof (proj1 (Forall_forall _ _) Hp _ Hrin) as Hlev. clear Hp.
  cbv beta in Hlev. rewrite <- Es in H42, Hk, Hlev.
  split.
  - destruct (pulse_steps_iter 42 0 st (in_pulse_range_byte _ Hr))
      as (st' & Hs & E & _ & Hpx & _ & evs & Hl & Hsh).
    exists st', evs. split; [exact Hs|].
    split; [rewrite E; exact H42|]. split; [exact Hpx|].
    split; [exact Hl|].
    intros level Hlr Hlm. destruct (on_grid _ Hlr Hlm) as (i & Hi & ->).
    rewrite Hsh.
    apply (proj1 (Forall_forall _ _) Hlev i). apply elem_of_seq. lia.
  - intros k Hk'.
    destruct (pulse_steps_iter k 0 st (in_pulse_range_byte _ Hr))
      as (st' & Hs & E & _).
    exists st'. split; [exact Hs|]. rewrite E.
    apply (proj1 (Forall_forall _ _) Hk k). apply elem_of_seq. lia.
Qed.

(** Falling from the maximum. *)
Lemma pulse_repeats_every_42_steps_witness :
  exists st',
    pulse_steps 42 (set_strip (NeoPixel (solid 0) 120) booted) = Next tt st'
    /\ pulse_state st' = (false, 120).
Proof.
  destruct (pulse_repeats_every_42_steps
              (set_strip (NeoPixel (solid 0) 120) booted))
    as [(st' & evs & Hs & E & _) _].
  - vm_compute. split; discriminate.
  - reflexivity.
  - exists st'. split; [exact Hs | exact E].
Defined.

(** X10: from any brightness of one byte and either direction, 27 steps
    of the animation bring the brightness between the two boundaries,
    where it stays: with 27 steps or more, the brightness at the end and
    every brightness shown from the 27th step on is between the
    boundaries. *)
Theorem pulse_settles_within_27_steps (st : firmware) (n : nat) :
  byte_range (brightness (strip st)) ->
  (27 <= n)%nat ->
  exists st' evs,
    pulse_steps n st = Next tt st'
    /\ log st' = log st ++ evs
    /\ length (shown evs) = n
    /\ Forall in_pulse_range (drop 26 (shown evs))
    /\ in_pulse_range (brightness (strip st')).
Proof.
  intros Hb Hn.
  destruct (pulse_steps_iter 27 0 st Hb)
    as (st1 & Hs1 & E1 & _ & _ & _ & evs1 & Hl1 & Hsh1).
  assert (Hr1 : in_pulse_range (brightness (strip st1))).
  { change (brightness (strip st1)) with (snd (pulse_state st1)).
    rewrite E1.
    assert (Hin : brightness (strip st) ∈ seqZ 0 256)
      by (apply elem_of_seqZ; unfold byte_range in Hb; lia).
    pose proof (proj1 (Forall_forall _ _) bytes_settle _ Hin) as Hp.
    apply (proj1 (Forall_forall _ _) Hp).
    destruct (pulse_rising st); repeat constructor. }
  destruct (pulse_steps_range (n - 27) (0 + Z.of_nat 27) st1 Hr1)
    as (st2 & Hs2 & Hr2 & evs2 & Hl2 & Hf2).
  assert (Hlen2 : length (shown evs2) = (n - 27)%nat).
  { destruct (pulse_steps_iter (n - 27) (0 + Z.of_nat 27) st1
                (in_pulse_range_byte _ Hr1))
      as (st2' & Hs2' & _ & _ & _ & _ & evs2' & Hl2' & Hsh2').
    rewrite Hs2 in Hs2'. injection Hs2' as <-.
    rewrite Hl2 in Hl2'. apply app_inv_head in Hl2'. subst evs2'.
    rewrite Hsh2', length_map, length_seq. reflexivity. }
  exists st2, (evs1 ++ evs2).
  split.
  { unfold pulse_steps. replace n with (27 + (n - 27))%nat at 1 by lia.
    rewrite for_count_add. unfold bind. rewrite Hs1. exact Hs2. }
  split; [rewrite Hl2, Hl1, app_assoc; reflexivity|].
  rewrite shown_app.
  split.
  { rewrite length_app, Hlen2, Hsh1, length_map, length_seq. lia. }
  split; [|exact Hr2].
  rewrite drop_app_le by (rewrite Hsh1, length_map, length_seq; lia).
  apply Forall_app. split; [|exact Hf2].
  rewrite Hsh1.
  change (seq 1 27) with (seq 1 26 ++ [27%nat]).
  rewrite map_app, drop_app_length'
    by (rewrite length_map, length_seq; reflexivity).
  constructor; [|constructor].
  rewrite <- E1. exact Hr1.
Qed.

(** Falling from the brightness 255, the furthest from the boundaries. *)
Lemma pulse_settles_within_27_steps_witness :
  exists st',
    pulse_steps 27 (set_strip (NeoPixel (solid 0) 255) booted) = Next tt st'
    /\ in_pulse_range (brightness (strip st')).
Proof.
  destruct (pulse_settles_within_27_steps
              (set_strip (NeoPixel (solid 0) 255) booted) 27)
    as (st' & evs & Hs & _ & _ & _ & Hr).
  - vm_compute. split; discriminate.
  - lia.
  - exists st'. split; [exact Hs | exact Hr].
Defined.

(** ** The answer to a command *)

Lemma quiet_ret {A} (Q : A -> Prop) (a : A) : Q a -> quiet Q (ret a).
Proof.
  intros H st. split; [exact H|]. exists [].
  split; [symmetry; apply app_nil_r | constructor].
Qed.

Lemma quiet_bind {A B} (P : A -> Prop) (Q : B -> Prop)
    (m : stmt A) (k : A -> stmt B) :
  quiet P m -> (forall a, P a -> quiet Q (k a)) -> quiet Q (bind m k).
Proof.
  intros Hm Hk st. unfold bind. specialize (Hm st).
  destruct (m st) as [a st1 | st1 | f]; [|exact Hm | exact I].
  destruct Hm as (Ha & evs1 & Hl1 & Hs1).
  specialize (Hk a Ha st1).
  destruct (k a st1) as [b st2 | st2 | f]; [| | exact I].
  - destruct Hk as (Hb & evs2 & Hl2 & Hs2). split; [exact Hb|].
    exists (evs1 ++ evs2). split; [rewrite Hl2, Hl1, app_assoc; reflexivity|].
    apply Forall_app. split; assumption.
  - destruct Hk as (evs2 & Hl2 & Hs2).
    exists (evs1 ++ evs2).
    split; [rewrite Hl2, Hl1, <- !app_assoc; reflexivity|].
    apply Forall_app. split; assumption.
Qed.

(** [Serial.println(1); return;] *)
Lemma quiet_reject {B} (Q : B -> Prop) :
  quiet Q (bind (Serial_println_int 1) (fun _ => @return_ B)).
Proof.
  intros st. cbn. exists []. split; [reflexivity | constructor].
Qed.

Lemma quiet_when c (body : stmt unit) : quiet any body -> quiet any (when c body).
Proof. intros H. destruct c; [exact H | apply quiet_ret; exact I]. Qed.

Lemma quiet_for_count n : forall i (body : Z -> stmt unit),
  (forall j, quiet any (body j)) -> quiet any (for_count n i body).
Proof.
  induction n as [|n IH]; intros i body H; cbn [for_count].
  - apply quiet_ret. exact I.
  - apply (quiet_bind any); [apply H | intros _ _; apply IH; exact H].
Qed.

Lemma quiet_for_lt lo hi (body : Z -> stmt unit) :
  (forall j, quiet any (body j)) -> quiet any (for_lt lo hi body).
Proof. apply quiet_for_count. Qed.

Create HintDb quiet.

Lemma quiet_digitalWrite pin v : quiet any (digitalWrite pin v).
Proof.
  intros st. split; [exact I|]. exists [DigitalWrite pin v].
  split; [|repeat constructor; intros []].
  unfold digitalWrite. cbn. destruct (pin =? LED_BUILTIN); reflexivity.
Qed.

Lemma quiet_delay ms : quiet any (delay ms).
Proof.
  intros st. split; [exact I|]. eexists.
  split; [reflexivity | repeat constructor; intros []].
Qed.

Lemma quiet_show : quiet any strip_show.
Proof.
  intros st. split; [exact I|]. eexists.
  split; [reflexivity | repeat constructor; intros []].
Qed.

Lemma quiet_setBrightness b : quiet any (strip_setBrightness b).
Proof.
  intros st. split; [exact I|]. eexists.
  split; [reflexivity | repeat constructor; intros []].
Qed.

Lemma quiet_setPixelColor n c : quiet any (strip_setPixelColor n c).
Proof.
  intros st. split; [exact I|]. eexists.
  split; [reflexivity | repeat constructor; intros []].
Qed.

Lemma quiet_assign_is_pulsing b : quiet any (assign_is_pulsing b).
Proof.
  intros st. split; [exact I|]. eexists.
  split; [reflexivity | repeat constructor; intros []].
Qed.

Lemma quiet_strtok str delim : quiet any (strtok str delim).
Proof.
  intros st. unfold strtok.
  destruct (strtok_r str delim (strtok_last st)).
  split; [exact I|]. exists [].
  split; [symmetry; apply app_nil_r | constructor].
Qed.

Lemma quiet_atoi p : quiet any (atoi p).
Proof.
  intros st. destruct p; [|exact I]. cbn. split; [exact I|]. exists [].
  split; [symmetry; apply app_nil_r | constructor].
Qed.

Lemma quiet_strcmp_ptr a p : quiet any (strcmp_ptr a p).
Proof.
  intros st. destruct p; [|exact I]. cbn. split; [exact I|]. exists [].
  split; [symmetry; apply app_nil_r | constructor].
Qed.

Lemma quiet_int_div a b : quiet any (int_div a b).
Proof.
  intros st. unfold int_div. destruct (Int16.div a b); [|exact I].
  split; [exact I|]. exists [].
  split; [symmetry; apply app_nil_r | constructor].
Qed.

#[local] Hint Resolve quiet_digitalWrite quiet_delay quiet_show
  quiet_setBrightness quiet_setPixelColor quiet_assign_is_pulsing
  quiet_strtok quiet_atoi quiet_strcmp_ptr quiet_int_div : quiet.

Ltac quiet_steps :=
  repeat match goal with
    | |- quiet _ (bind (Serial_println_int 1) _) => apply quiet_reject
    | |- quiet _ (when _ _) => apply quiet_when
    | |- quiet _ (for_lt _ _ _) => apply quiet_for_lt; intros ?
    | |- quiet _ (ret _) =>
        apply quiet_ret;
        first [exact I | left; reflexivity | right; reflexivity]
    | |- quiet _ (bind _ _) => apply (quiet_bind any); [|intros ? _]
    | |- quiet _ (if ?b then _ else _) => destruct b
    | |- quiet _ _ => solve [auto with quiet]
    end.

(** The [if] chain of [process_command]: quiet, and its value is the
    status. *)
Lemma quiet_branches fragment :
  quiet status
    (bind (strcmp_ptr "blink" fragment)
       (fun c =>
          if 0 =? c then bind cmd_blink (fun _ => ret 0) else
          bind (strcmp_ptr "wipe" fragment)
            (fun c =>
               if 0 =? c then bind cmd_wipe (fun _ => ret 0) else
               bind (strcmp_ptr "color" fragment)
                 (fun c =>
                    if 0 =? c then bind cmd_color (fun _ => ret 0) else
                    bind (strcmp_ptr "pulse" fragment)
                      (fun c =>
                         if 0 =? c then bind cmd_pulse (fun _ => ret 0)
                         else ret 1))))).
Proof.
  unfold cmd_blink, cmd_wipe, cmd_color, cmd_pulse,
    blink_effect, wipe_effect, color_effect.
  cbv zeta. quiet_steps.
Qed.

(** X11: a call of [process_command] that ends has written one line to
    the serial port, the status, which is 0 or 1 and the last thing the
    call does; all it does before, from the write that sets the builtin
    LED low on, writes nothing to the port.  A status 0 comes with the
    builtin LED set high again. *)
Theorem command_draws_one_status
    (command : list ascii) (st : firmware) :
  match run (process_command command) st with
  | Done st' =>
      exists evs errno,
        log st' = log st
                  ++ DigitalWrite LED_BUILTIN LOW :: evs ++ [PrintlnInt errno]
        /\ Forall (fun e => ~ is_println e) evs
        /\ status errno
        /\ (errno = 0 -> led_builtin st' = HIGH)
  | Undefined _ => True
  end.
Proof.
  destruct (process_command_first_token command st) as (lst & _ & Heq).
  unfold run, call. rewrite Heq. clear Heq.
  pose proof (quiet_branches (head (fragments command)) (entered lst st))
    as Hq.
  unfold bind at 1.
  match type of Hq with
  | match ?m with _ => _ end => destruct m as [errno st1 | st1 | f]
  end; [| |exact I].
  - destruct Hq as (He & evs & Hl & Hs).
    exists (evs ++ [DigitalWrite LED_BUILTIN HIGH]), errno.
    cbn. rewrite Hl. cbn. rewrite <- !app_assoc. cbn.
    split; [reflexivity|]. split; [|split; [exact He | reflexivity]].
    apply Forall_app. split; [exact Hs | repeat constructor; intros []].
  - destruct Hq as (evs & Hl & Hs). exists evs, 1.
    rewrite Hl. cbn. rewrite <- !app_assoc. cbn.
    split; [reflexivity|]. split; [exact Hs|].
    split; [right; reflexivity | discriminate].
Qed.

(** The line [color 300 0 0], which is turned down, after [setup]. *)
Lemma command_draws_one_status_witness :
  exists st' evs errno,
    run (process_command (line "color 300 0 0")) booted = Done st'
    /\ log st' = log booted
                 ++ DigitalWrite LED_BUILTIN LOW :: evs ++ [PrintlnInt errno]
    /\ Forall (fun e => ~ is_println e) evs
    /\ status errno.
Proof.
  pose proof (command_draws_one_status (line "color 300 0 0") booted) as H.
  destruct (run (process_command (line "color 300 0 0")) booted)
    as [st'|f] eqn:E.
  - destruct H as (evs & errno & Hl & Hs & He & _).
    exists st', evs, errno. split; [reflexivity|].
    split; [exact Hl|]. split; [exact Hs | exact He].
  - vm_compute in E. discriminate E.
Defined.

(** ** Wipe *)

Lemma frames_app e1 e2 : frames (e1 ++ e2) = frames e1 ++ frames e2.
Proof. unfold frames. apply flat_map_app. Qed.

Lemma waits_app e1 e2 : waits (e1 ++ e2) = waits e1 ++ waits e2.
Proof. unfold waits. apply flat_map_app. Qed.

Lemma wipe_steps_views (c wait : Z) (f : nat -> list Z) (l : list nat) :
  let evs := flat_map (fun i => [SetPixelColor (Z.of_nat i) c;
                                 StripShow (f i) DEFAULT_BRIGHTNESS;
                                 Delay wait]) l in
  frames evs = map f l
  /\ waits evs = replicate (length l) wait
  /\ shown evs = replicate (length l) DEFAULT_BRIGHTNESS.
Proof.
  cbv zeta. induction l as [|i l (IH1 & IH2 & IH3)]; [repeat split|].
  cbn [flat_map length replicate map].
  rewrite frames_app, waits_app, shown_app, IH1, IH2, IH3.
  repeat split.
Qed.

(** The wait between two pixels is the fifteenth part of the duration,
    the quotient truncated. *)
Lemma wipe_wait_exact d :
  0 <= d -> Int16.in_range d -> wipe_wait d = d / LED_COUNT.
Proof.
  unfold Int16.in_range, Int16.min_int, Int16.max_int, LED_COUNT.
  intros Hd Hr. unfold wipe_wait, LED_COUNT.
  rewrite Z.quot_div_nonneg by lia.
  assert (0 <= d / 15 <= d).
  { split; [apply Z.div_pos; lia|].
    apply Z.div_le_upper_bound; lia. }
  rewrite wrap_small
    by (unfold Int16.in_range, Int16.min_int, Int16.max_int; lia).
  unfold to_ulong. apply Z.mod_small. lia.
Qed.

(** X12: a [wipe] with arguments that pass their tests shows fifteen
    frames at the default brightness: in frame [i] the pixels up to [i]
    have the colour and those after it are what they were before the
    command, nothing being blacked out first.  After each frame the
    sketch waits the fifteenth part of the duration, the quotient
    truncated.  The last frame is the strip in the colour; the status 0
    follows. *)
Theorem wipe_sweeps_the_strip
    (command : list ascii) (st : firmware)
    (r g b d : string) (rest : list string) :
  strip_ok st ->
  fragments command = "wipe"%string :: r :: g :: b :: d :: rest ->
  passes bad_channel r -> passes bad_channel g -> passes bad_channel b ->
  passes bad_count d ->
  exists st' evs,
    run (process_command command) st = Done st'
    /\ log st' = log st ++ evs
    /\ frames evs
       = wipe_frames (strip_Color (atoi_str r) (atoi_str g) (atoi_str b))
           (pixels (strip st))
    /\ waits evs = replicate (Z.to_nat LED_COUNT) (atoi_str d / LED_COUNT)
    /\ shown evs = replicate (Z.to_nat LED_COUNT) DEFAULT_BRIGHTNESS
    /\ last evs = Some (PrintlnInt 0)
    /\ pixels (strip st')
       = solid (strip_Color (atoi_str r) (atoi_str g) (atoi_str b))
    /\ last (frames evs) = Some (pixels (strip st')).
Proof.
  intros Hok Hf Hr Hg Hb Hd.
  destruct (process_command_carried_out Wipe command st [r; g; b; d] rest
              Hok Hf)
    as (st' & Hrun & (_ & _ & Hstrip & _ & _ & _ & Hlog) & _).
  { repeat constructor; assumption. }
  { discriminate. }
  cbn [map effect_pixels effect_events] in Hstrip, Hlog.
  rewrite wipe_wait_exact in Hlog
    by (try apply atoi_str_range; apply bad_count_false; exact Hd).
  set (c := strip_Color (atoi_str r) (atoi_str g) (atoi_str b)) in *.
  destruct (wipe_steps_views c (atoi_str d / LED_COUNT)
              (wiped c (pixels (strip st))) (seq 0 (Z.to_nat LED_COUNT)))
    as (Hfr & Hw & Hsh).
  cbv zeta in Hfr, Hw, Hsh. rewrite length_seq in Hw, Hsh.
  eexists st', _. split; [exact Hrun|]. split; [exact Hlog|].
  unfold wipe_events.
  assert (Efr : frames
                  (DigitalWrite LED_BUILTIN LOW
                   :: ([AssignIsPulsing false; SetBrightness DEFAULT_BRIGHTNESS]
                       ++ flat_map
                            (fun i =>
                               [SetPixelColor (Z.of_nat i) c;
                                StripShow (wiped c (pixels (strip st)) i)
                                  DEFAULT_BRIGHTNESS;
                                Delay (atoi_str d / LED_COUNT)])
                            (seq 0 (Z.to_nat LED_COUNT)))
                      ++ [DigitalWrite LED_BUILTIN HIGH; PrintlnInt 0])
                = wipe_frames c (pixels (strip st))).
  { change (frames (?e :: (?a ++ ?m) ++ ?z))
      with (frames (([e] ++ a) ++ m ++ z)).
    rewrite !frames_app, Hfr. cbn. rewrite app_nil_r.
    reflexivity. }
  split; [exact Efr|].
  split.
  { change (waits (?e :: (?a ++ ?m) ++ ?z))
      with (waits (([e] ++ a) ++ m ++ z)).
    rewrite !waits_app, Hw. cbn. rewrite app_nil_r.
    reflexivity. }
  split.
  { change (shown (?e :: (?a ++ ?m) ++ ?z))
      with (shown (([e] ++ a) ++ m ++ z)).
    rewrite !shown_app, Hsh. cbn. rewrite app_nil_r.
    reflexivity. }
  split.
  { change [DigitalWrite LED_BUILTIN HIGH; PrintlnInt 0]
      with ([DigitalWrite LED_BUILTIN HIGH] ++ [PrintlnInt 0]).
    rewrite app_comm_cons, app_assoc. apply last_snoc. }
  rewrite Hstrip. cbn [pixels]. split; [reflexivity|].
  rewrite Efr. unfold wipe_frames.
  change (seq 0 (Z.to_nat LED_COUNT)) with (seq 0 14 ++ [14%nat]).
  rewrite map_app. cbn [map]. rewrite last_snoc.
  unfold wiped, solid. rewrite drop_ge by (rewrite Hok; reflexivity).
  rewrite app_nil_r. reflexivity.
Qed.

(** The line [wipe 0 0 255 1500] after [setup]: 100 milliseconds a
    pixel. *)
Lemma wipe_sweeps_the_strip_witness :
  exists st' evs,
    run (process_command (line "wipe 0 0 255 1500")) booted = Done st'
    /\ log st' = log booted ++ evs
    /\ waits evs = replicate 15 100.
Proof.
  destruct (wipe_sweeps_the_strip (line "wipe 0 0 255 1500") booted
              "0" "0" "255" "1500" [])
    as (st' & evs & Hrun & Hlog & _ & Hw & _).
  - reflexivity.
  - vm_compute. reflexivity.
  - reflexivity.
  - reflexivity.
  - reflexivity.
  - reflexivity.
  - exists st', evs. split; [exact Hrun|]. split; [exact Hlog|]. exact Hw.
Defined.

(** ** A line and the animation in one turn of [loop] *)

Lemma string_of_bytes text : string_of_list_ascii (bytes text) = text.
Proof. apply string_of_list_ascii_of_string. Qed.

(** A turn of [loop] that receives one line on an empty buffer: the
    interpreter on the line, then the test of the pulsing flag. *)
Lemma loop_line text t st :
  input_buffer st = holding [] ->
  len_input_buffer_data st = 0 ->
  Forall data_byte (bytes text) ->
  (1 <= length (bytes text) <= 126)%nat ->
  terminator t ->
  fragments (holding (bytes text)) = tokens SP text
  /\ run (loop (bytes text ++ [t])) st
     = match run (process_command (holding (bytes text)))
               (loaded (bytes text) st) with
       | Done st1 =>
           run (bind (gets is_pulsing) (fun p => when p pulse_step))
             (loaded [] st1)
       | Undefined f => Undefined f
       end.
Proof.
  intros Hb Hl Hd Hlen Ht. split.
  { unfold fragments. rewrite c_str_holding, string_of_bytes; [reflexivity| |lia].
    eapply Forall_impl; [exact Hd|]. intros c. apply data_byte_not_nul. }
  rewrite <- (loaded_self [] st Hb Hl) at 1.
  unfold run at 1. unfold call, loop. unfold bind at 1.
  rewrite (serial_drain_app (bytes text) [t] _ _
             (serial_drain_loaded (bytes text) [] st Hd ltac:(cbn; lia))).
  cbn [app serial_drain]. unfold bind at 1.
  rewrite loop_switch_terminator by (assumption || lia).
  destruct (run (process_command (holding (bytes text)))
              (loaded (bytes text) st)) as [st1|f]; reflexivity.
Qed.

(** X13: a [blink], [wipe] or [color] line with arguments that pass
    their tests, received on an empty buffer in a turn of [loop], stops
    the animation in that very turn: the turn ends with pulsing off,
    the strip as the command leaves it at the default brightness, the
    buffer cleared, and the status 0 the last event of the turn; no
    step of the animation follows the command, whether the firmware was
    pulsing or not. *)
Theorem effect_line_stops_animation
    (c : effect_command) (text : string) (t : ascii) (st : firmware)
    (ts rest : list string) :
  input_buffer st = holding [] ->
  len_input_buffer_data st = 0 ->
  strip_ok st ->
  Forall data_byte (bytes text) ->
  (1 <= length (bytes text) <= Z.to_nat (MAX_INPUT_BUFFER_LEN - 1))%nat ->
  terminator t ->
  tokens SP text = keyword c :: ts ++ rest ->
  Forall2 passes (signature c) ts ->
  (c = Blink -> forall n, last ts = Some n -> atoi_str n <> 0) ->
  exists st',
    run (loop (bytes text ++ [t])) st = Done st'
    /\ is_pulsing st' = false
    /\ strip st'
       = NeoPixel (effect_pixels c (map atoi_str ts)) DEFAULT_BRIGHTNESS
    /\ input_buffer st' = holding []
    /\ len_input_buffer_data st' = 0
    /\ pulse_rising st' = pulse_rising st
    /\ log st'
       = log st
         ++ DigitalWrite LED_BUILTIN LOW
            :: effect_events c (map atoi_str ts) (pixels (strip st))
         ++ [DigitalWrite LED_BUILTIN HIGH; PrintlnInt 0].
Proof.
  change (Z.to_nat (MAX_INPUT_BUFFER_LEN - 1)) with 126%nat.
  intros Hb Hl Hok Hd Hlen Ht Hf Hp Hn.
  destruct (loop_line text t st Hb Hl Hd Hlen Ht) as [Efr Erun].
  rewrite <- Efr in Hf.
  destruct (process_command_carried_out c (holding (bytes text))
              (loaded (bytes text) st) ts rest Hok Hf Hp Hn)
    as (st1 & Hrun & (_ & _ & Hstrip & Hip & Hpr & _ & Hlog) & _).
  rewrite Hrun in Erun.
  exists (loaded [] st1). split.
  { rewrite Erun. unfold run, call, bind, gets.
    change (is_pulsing (loaded [] st1)) with (is_pulsing st1).
    rewrite Hip. reflexivity. }
  split; [exact Hip|]. split; [exact Hstrip|].
  split; [reflexivity|]. split; [reflexivity|].
  split; [exact Hpr | exact Hlog].
Qed.

(** The line [color 255 0 0] and a carriage return while the animation
    is under way. *)
Lemma effect_line_stops_animation_witness :
  is_pulsing breathing = true
  /\ exists st',
       run (loop (bytes "color 255 0 0" ++ ["013"%char])) breathing
       = Done st'
       /\ is_pulsing st' = false
       /\ brightness (strip st') = DEFAULT_BRIGHTNESS.
Proof.
  split; [reflexivity|].
  destruct (effect_line_stops_animation Color "color 255 0 0" "013"%char
              breathing ["255"; "0"; "0"]%string [])
    as (st' & Hrun & Hip & Hstrip & _).
  - reflexivity.
  - reflexivity.
  - reflexivity.
  - repeat constructor; discriminate.
  - vm_compute. lia.
  - left. reflexivity.
  - vm_compute. reflexivity.
  - repeat constructor.
  - discriminate.
  - exists st'. split; [exact Hrun|]. split; [exact Hip|].
    rewrite Hstrip. reflexivity.
Defined.

(** X14: a [pulse] line received on an empty buffer in a turn of [loop]
    starts the animation in that very turn: after the status 0 the
    turn makes the first step of the animation, from the brightness and
    the direction the strip has, shows the brightness it sets and waits
    100 milliseconds; the pixels are not touched and the buffer is
    cleared. *)
Theorem pulse_line_starts_animation
    (text : string) (t : ascii) (st : firmware) (rest : list string) :
  input_buffer st = holding [] ->
  len_input_buffer_data st = 0 ->
  byte_range (brightness (strip st)) ->
  Forall data_byte (bytes text) ->
  (1 <= length (bytes text) <= Z.to_nat (MAX_INPUT_BUFFER_LEN - 1))%nat ->
  terminator t ->
  tokens SP text = "pulse"%string :: rest ->
  exists st' evs,
    run (loop (bytes text ++ [t])) st = Done st'
    /\ is_pulsing st' = true
    /\ pulse_state st' = pulse_next (pulse_state st)
    /\ pixels (strip st') = pixels (strip st)
    /\ input_buffer st' = holding []
    /\ len_input_buffer_data st' = 0
    /\ log st'
       = log st
         ++ [DigitalWrite LED_BUILTIN LOW; AssignIsPulsing true;
             DigitalWrite LED_BUILTIN HIGH; PrintlnInt 0]
         ++ evs
    /\ shown evs = [brightness (strip st')]
    /\ waits evs = [100].
Proof.
  change (Z.to_nat (MAX_INPUT_BUFFER_LEN - 1)) with 126%nat.
  intros Hb Hl Hbr Hd Hlen Ht Hf.
  destruct (loop_line text t st Hb Hl Hd Hlen Ht) as [Efr Erun].
  rewrite <- Efr in Hf.
  destruct (process_command_pulse (holding (bytes text))
              (loaded (bytes text) st) rest Hf)
    as (st1 & Hrun & Hlog & Hstrip & Hip & Hpr & _).
  rewrite Hrun in Erun.
  change (strip (loaded (bytes text) st)) with (strip st) in Hstrip.
  change (pulse_rising (loaded (bytes text) st)) with (pulse_rising st) in Hpr.
  change (log (loaded (bytes text) st)) with (log st) in Hlog.
  assert (Hbr1 : byte_range (brightness (strip (loaded [] st1)))).
  { change (strip (loaded [] st1)) with (strip st1). rewrite Hstrip.
    exact Hbr. }
  destruct (pulse_step_next (loaded [] st1) Hbr1)
    as (st2 & Hs & E & _ & Hpx & Hip2 & evs & Hl2 & Hsh).
  assert (Hw : waits evs = [100]).
  { revert Hs Hl2. unfold pulse_step. cbn [bind strip_getBrightness gets].
    destruct (pulse_rising (loaded [] st1));
      match goal with
      | |- context [if ?b then _ else _] => destruct b
      end; cbn; intros [= <-]; cbn; rewrite <- ?app_assoc;
      intros H; apply app_inv_head in H; subst evs; reflexivity. }
  exists st2, evs. split.
  { rewrite Erun. unfold run, call, bind, gets.
    change (is_pulsing (loaded [] st1)) with (is_pulsing st1).
    rewrite Hip. unfold when. rewrite Hs. reflexivity. }
  split; [rewrite Hip2; exact Hip|].
  split.
  { rewrite E. unfold pulse_state.
    change (pulse_rising (loaded [] st1)) with (pulse_rising st1).
    change (strip (loaded [] st1)) with (strip st1).
    rewrite Hpr, Hstrip. reflexivity. }
  split.
  { rewrite Hpx. change (strip (loaded [] st1)) with (strip st1).
    rewrite Hstrip. reflexivity. }
  assert (Hbuf : input_buffer st2 = holding []
                 /\ len_input_buffer_data st2 = 0).
  { revert Hs. unfold pulse_step. cbn [bind strip_getBrightness gets].
    destruct (pulse_rising (loaded [] st1));
      match goal with
      | |- context [if ?b then _ else _] => destruct b
      end; cbn; intros [= <-]; split; reflexivity. }
  split; [apply Hbuf|]. split; [apply Hbuf|].
  split.
  { rewrite Hl2. change (log (loaded [] st1)) with (log st1).
    rewrite Hlog, <- app_assoc. reflexivity. }
  split; [|exact Hw].
  rewrite Hsh, <- E. reflexivity.
Qed.

(** The line [pulse] and a line feed in the first turn after [setup]:
    the brightness goes from 128 to 123. *)
Lemma pulse_line_starts_animation_witness :
  exists st',
    run (loop (bytes "pulse" ++ ["010"%char])) booted = Done st'
    /\ is_pulsing st' = true
    /\ pulse_state st' = (false, 123).
Proof.
  destruct (pulse_line_starts_animation "pulse" "010"%char booted [])
    as (st' & evs & Hrun & Hip & E & _).
  - reflexivity.
  - reflexivity.
  - vm_compute. split; discriminate.
  - repeat constructor; discriminate.
  - vm_compute. lia.
  - right. reflexivity.
  - vm_compute. reflexivity.
  - exists st'. split; [exact Hrun|]. split; [exact Hip | exact E].
Defined.

(** ** Words and spaces *)

Lemma fields_cons delim s : exists f fs, fields delim s = f :: fs.
Proof.
  destruct s as [|c s]; cbn [fields]; [eauto|].
  destruct (is_delim delim c); [eauto|].
  destruct (fields delim s); eauto.
Qed.

Lemma tokens_spaces n s : tokens SP (String.append (spaces n) s) = tokens SP s.
Proof. induction n as [|n IH]; [reflexivity | exact IH]. Qed.

(** A word in front of a text joins the first field of the text. *)
Lemma fields_word w : forall s f fs,
  space_free w ->
  fields SP s = f :: fs ->
  fields SP (String.append w s) = String.append w f :: fs.
Proof.
  induction w as [|c w IH]; intros s f fs Hw Hs; [exact Hs|].
  destruct Hw as [Hc Hw]. cbn [String.append fields]. rewrite Hc.
  rewrite (IH s f fs Hw Hs). reflexivity.
Qed.

Lemma append_empty w : String.append w EmptyString = w.
Proof. induction w as [|c w IH]; cbn; [|rewrite IH]; reflexivity. Qed.

Lemma nonempty_word w : w <> EmptyString -> nonempty w = true.
Proof. destruct w; [contradiction | reflexivity]. Qed.

Lemma tokens_word_space w s :
  word w -> tokens SP (String.append w (String.append SP s)) = w :: tokens SP s.
Proof.
  intros (Hne & Hw & _). unfold tokens.
  rewrite (fields_word w (String.append SP s) EmptyString (fields SP s) Hw)
    by reflexivity.
  rewrite append_empty. cbn [List.filter]. rewrite nonempty_word by exact Hne.
  reflexivity.
Qed.

Lemma tokens_word_end w b :
  word w -> tokens SP (String.append w (spaces b)) = [w].
Proof.
  intros Hw. destruct b as [|b].
  - destruct Hw as (Hne & Hw & _). unfold tokens. cbn [spaces].
    rewrite (fields_word w EmptyString EmptyString [] Hw) by reflexivity.
    rewrite append_empty. cbn [List.filter].
    rewrite nonempty_word by exact Hne. reflexivity.
  - change (spaces (S b)) with (String.append SP (spaces b)).
    rewrite tokens_word_space by exact Hw.
    rewrite <- (append_empty (spaces b)), tokens_spaces. reflexivity.
Qed.

Lemma append_assoc (a b c : string) :
  String.append (String.append a b) c = String.append a (String.append b c).
Proof. induction a as [|x a IH]; cbn; [|rewrite IH]; reflexivity. Qed.

Lemma tokens_spaced ws b :
  Forall (fun p => word (snd p)) ws ->
  tokens SP (String.append (spaced ws) (spaces b)) = map snd ws.
Proof.
  intros H. induction H as [|[n w] ws Hw H IH].
  - cbn [spaced String.append map].
    rewrite <- (append_empty (spaces b)), tokens_spaces. reflexivity.
  - cbn [spaced map snd] in *. rewrite append_assoc, tokens_spaces.
    rewrite append_assoc.
    destruct ws as [|p ws].
    + cbn [String.append map]. apply tokens_word_end. exact Hw.
    + rewrite append_assoc, tokens_word_space by exact Hw.
      rewrite IH. reflexivity.
Qed.

Lemma nul_free_append a b :
  nul_free a -> nul_free b -> nul_free (String.append a b).
Proof.
  intros Ha Hb. induction a as [|c a IH]; [exact Hb|].
  destruct Ha as [Hc Ha]. split; [exact Hc | apply IH; exact Ha].
Qed.

Lemma nul_free_spaces n : nul_free (spaces n).
Proof. induction n as [|n IH]; [exact I | split; [discriminate | exact IH]]. Qed.

Lemma nul_free_spaced ws :
  Forall (fun p => word (snd p)) ws -> nul_free (spaced ws).
Proof.
  intros H. induction H as [|[n w] ws (_ & _ & Hw) H IH]; [exact I|].
  cbn [spaced]. apply nul_free_append; [apply nul_free_spaces|].
  apply nul_free_append; [exact Hw|].
  destruct ws; [exact I|].
  apply nul_free_append; [split; [discriminate | exact I] | exact IH].
Qed.

(** The C string of the memory of a text with no null byte in it is the
    text. *)
Lemma c_str_c_mem s : nul_free s -> c_str (c_mem s) = s.
Proof.
  intros H. unfold c_mem. rewrite c_str_app_nul.
  - apply string_of_list_ascii_of_string.
  - induction s as [|c s IH]; [constructor|].
    destruct H as [Hc H]. constructor; [exact Hc | apply IH; exact H].
Qed.

(** X15: on a line of words, each a run of bytes other than the space
    and the null byte, with any number of spaces before the first word,
    one or more between two words and any number after the last, the
    calls of [strtok] that [process_command] makes deliver the words in
    order, one a call, and the null pointer from then on. *)
Theorem strtok_delivers_the_words
    (ws : list (nat * string)) (b : nat) (i : nat) :
  Forall (fun p => word (snd p)) ws ->
  let text := String.append (spaced ws) (spaces b) in
  fragments (line text) = map snd ws
  /\ fst (strtok_calls (c_str (line text)) i) = map snd ws !! i.
Proof.
  intros H text.
  assert (E : c_str (line text) = text).
  { apply c_str_c_mem. apply nul_free_append;
      [apply nul_free_spaced; exact H | apply nul_free_spaces]. }
  assert (Et : fragments (line text) = map snd ws).
  { unfold fragments. rewrite E. apply tokens_spaced. exact H. }
  split; [exact Et|].
  destruct (strtok_calls_tokens (c_str (line text)) i) as [Hc _].
  rewrite Hc. unfold fragments in Et. rewrite Et. reflexivity.
Qed.

(** The line [  color  255 0   0 ], with spaces around and between the
    words. *)
Lemma strtok_delivers_the_words_witness :
  fragments (line "  color  255 0   0 ")
  = ["color"; "255"; "0"; "0"]%string
  /\ fst (strtok_calls (c_str (line "  color  255 0   0 ")) 1)
     = Some "255"%string.
Proof.
  apply (strtok_delivers_the_words
           [(2%nat, "color"); (1%nat, "255"); (0%nat, "0"); (2%nat, "0")]%string
           1 1).
  repeat constructor; discriminate.
Defined.

(** ** What a command does not depend on *)

Lemma strtok_first_fresh {A} s (k : option string -> stmt A) p st :
  bind (strtok (Some s) SP) k (set_strtok_last p st)
  = bind (strtok (Some s) SP) k st.
Proof.
  unfold bind, strtok.
  change (strtok_last (set_strtok_last p st)) with p.
  change (strtok_r (Some s) SP p) with (strtok_r (Some s) SP (strtok_last st)).
  destruct (strtok_r (Some s) SP (strtok_last st)) as [tok lst].
  reflexivity.
Qed.

(** X16: the pointer [strtok] keeps between calls is static, and so
    outlives a command; a command is nevertheless interpreted without
    regard to what the command before it left there, for its first call
    of [strtok] passes the line and replaces the pointer: whatever the
    pointer holds, the run and the state it leaves are the same. *)
Theorem command_ignores_former_tokens
    (command : list ascii) (st : firmware) (p : option string) :
  run (process_command command) (set_strtok_last p st)
  = run (process_command command) st.
Proof.
  unfold run, call, process_command. cbv zeta.
  cbn [bind digitalWrite modify].
  change (LED_BUILTIN =? LED_BUILTIN) with true. cbv iota.
  change (emit (DigitalWrite LED_BUILTIN LOW)
            (set_led_builtin LOW (set_strtok_last p st)))
    with (set_strtok_last p
            (emit (DigitalWrite LED_BUILTIN LOW) (set_led_builtin LOW st))).
  rewrite strtok_first_fresh. reflexivity.
Qed.

(** ** Input in several turns *)

(** What [loop] calls comes back to it: no [return] leaves the
    [switch]. *)
Lemma loop_switch_flow c st :
  match loop_switch c st with
  | Return _ => False
  | _ => True
  end.
Proof.
  unfold loop_switch. cbv zeta.
  destruct (byte_of c =? 0); [exact I|].
  destruct ((byte_of c =? 13) || (byte_of c =? 10)).
  - unfold bind at 1. unfold gets at 1. cbv beta iota. unfold when.
    destruct (0 <? len_input_buffer_data st); [|exact I].
    unfold bind at 1. unfold gets at 1. cbv beta iota.
    unfold bind at 1. unfold call at 1.
    destruct (process_command (input_buffer st) st);
      cbv beta iota; try exact I; cbn; exact I.
  - cbn [bind gets modify]. unfold when.
    match goal with
    | |- context [if ?b then _ else _] => destruct b
    end; exact I.
Qed.

Lemma serial_drain_flow rx : forall st,
  match serial_drain rx st with
  | Return _ => False
  | _ => True
  end.
Proof.
  induction rx as [|c rx IH]; intros st; [exact I|].
  cbn [serial_drain]. unfold bind.
  pose proof (loop_switch_flow c st) as H.
  destruct (loop_switch c st) as [[] st1| |]; [apply IH | exact H | exact I].
Qed.

Lemma pulse_step_is_pulsing st :
  match pulse_step st with
  | Next _ st' => is_pulsing st' = is_pulsing st
  | Return st' => is_pulsing st' = is_pulsing st
  | Abort _ => True
  end.
Proof.
  unfold pulse_step. cbn [bind strip_getBrightness gets].
  destruct (pulse_rising st);
    match goal with
    | |- context [if ?b then _ else _] => destruct b
    end; reflexivity.
Qed.

(** X17: while the firmware is not pulsing, it makes no difference how
    the bytes from the port fall into turns of [loop]: when a turn that
    received [a] has ended with pulsing off, the turn that receives [b]
    after it ends as one turn that receives [a] and [b] together would,
    a line cut in two by the end of a turn included. *)
Theorem input_may_come_in_several_turns
    (a b : list ascii) (st st1 : firmware) :
  run (loop a) st = Done st1 ->
  is_pulsing st1 = false ->
  run (loop (a ++ b)) st = run (loop b) st1.
Proof.
  intros Hrun Hp.
  assert (Hd : serial_drain a st = Next tt st1).
  { revert Hrun. unfold run, call, loop. unfold bind at 1.
    pose proof (serial_drain_flow a st) as Hf.
    destruct (serial_drain a st) as [[] s1 | s1 | f];
      [|contradiction | discriminate].
    cbn [bind gets]. unfold when.
    destruct (is_pulsing s1) eqn:Ep.
    - pose proof (pulse_step_is_pulsing s1) as Hk.
      destruct (pulse_step s1) as [[] s2 | s2 | f];
        try discriminate; intros [= <-]; congruence.
    - intros [= <-]. reflexivity. }
  unfold run, call, loop. unfold bind at 1 3.
  rewrite (serial_drain_app a b st st1 Hd). reflexivity.
Qed.

(** The line [color 1 2 3] cut after its third byte. *)
Lemma input_may_come_in_several_turns_witness :
  exists st1,
    run (loop (bytes "col")) booted = Done st1
    /\ run (loop (bytes "col" ++ bytes "or 1 2 3" ++ ["010"%char])) booted
       = run (loop (bytes "or 1 2 3" ++ ["010"%char])) st1.
Proof.
  eexists. split; [vm_compute; reflexivity|].
  apply input_may_come_in_several_turns; vm_compute; reflexivity.
Defined.
